(** * The price feeder: aggregation (oracle/util.go) and the oracle tick
    (oracle/oracle.go), embedded as Rocq functions, with the properties the
    specification states about them. *)

From Stdlib Require Import ZArith Lia String Ascii List OrdersEx.
From stdpp Require Import base gmap strings list fin_maps pretty sorting.

Open Scope Z_scope.

(** ** Go run-time outcomes *)

(** A run-time panic ends the call: an index past the end of a slice, a
    division of a big integer by zero, a method called through a nil
    pointer, and the panic of sdk.NewDecCoinFromDec on a denom that does
    not validate or on a negative amount. *)
Inductive panic : Type :=
  | IndexOutOfRange
  | DivideByZero
  | NilDereference
  | InvalidCoin.

Inductive result (A : Type) : Type :=
  | Ok (a : A)
  | Panicked (p : panic).
Arguments Ok {A} a.
Arguments Panicked {A} p.

#[global] Instance result_ret : MRet result := @Ok.
#[global] Instance result_bind : MBind result := λ A B f m,
  match m with
  | Ok a => f a
  | Panicked p => Panicked p
  end.

(** A loop whose body may panic. *)
Fixpoint foldM {S A : Type} (f : S → A → result S) (l : list A) (s : S) : result S :=
  match l with
  | [] => Ok s
  | a :: l' => s' ← f s a; foldM f l' s'
  end.

(** Go's [error] values are messages. *)
Abbreviation error := string (only parsing).

(** ** int64 *)

Definition int64_wrap (z : Z) : Z := (z + 2 ^ 63) mod 2 ^ 64 - 2 ^ 63.
Definition int64_sub (a b : Z) : Z := int64_wrap (a - b).
Definition int64_add (a b : Z) : Z := int64_wrap (a + b).

(** ** cosmossdk.io/math LegacyDec

    A LegacyDec is a big integer counting units of 10^-18. Add and Sub are
    exact; Mul and Quo bring the result back to 18 decimals with
    chopPrecisionAndRound, which rounds half to even; QuoInt64 truncates.
    Quo and QuoInt64 panic on a zero divisor. The library also refuses
    results longer than 315 bits; the values of this development are taken
    inside that bound, which is not modelled. *)
Module Dec.

Abbreviation t := Z (only parsing).

Definition precisionReuse : Z := 10 ^ 18.
Definition fivePrecision : Z := 5 * 10 ^ 17.
Definition squaredPrecisionReuse : Z := 10 ^ 36.

Definition chopPrecisionAndRound_nonneg (d : Z) : Z :=
  let quo := Z.quot d precisionReuse in
  let rem := Z.rem d precisionReuse in
  if rem =? 0 then quo
  else match rem ?= fivePrecision with
       | Lt => quo
       | Gt => quo + 1
       | Eq => if Z.even quo then quo else quo + 1
       end.

Definition chopPrecisionAndRound (d : Z) : Z :=
  if d <? 0 then - chopPrecisionAndRound_nonneg (- d)
  else chopPrecisionAndRound_nonneg d.

Definition LegacyZeroDec : t := 0.
Definition LegacyOneDec : t := precisionReuse.
Definition LegacyNewDec (i : Z) : t := i * precisionReuse.
Definition Add (x y : t) : t := x + y.
Definition Sub (x y : t) : t := x - y.
Definition Mul (x y : t) : t := chopPrecisionAndRound (x * y).
Definition Equal (x y : t) : bool := x =? y.

Definition Quo (x y : t) : result t :=
  if y =? 0 then Panicked DivideByZero
  else Ok (chopPrecisionAndRound (Z.quot (x * squaredPrecisionReuse) y)).

Definition QuoInt64 (x : t) (i : Z) : result t :=
  if i =? 0 then Panicked DivideByZero else Ok (Z.quot x i).

End Dec.

(** minimumTimeWeight = LegacyMustNewDecFromStr("0.2") *)
Definition minimumTimeWeight : Z := 2 * 10 ^ 17.

(** ** Provider data (oracle/provider, oracle/types) *)

Record CurrencyPair : Type := { Base : string; Quote : string }.

(** Modelled from the spec: CurrencyPair.String, of oracle/types, is the
    base followed by the quote. *)
Definition CurrencyPair_String (cp : CurrencyPair) : string :=
  String.append (Base cp) (Quote cp).

Record TickerPrice : Type := { tpPrice : Z; tpVolume : Z }.

Record CandlePrice : Type := { cpPrice : Z; cpVolume : Z; cpTimeStamp : Z }.

(** ** Maps

    A map entry that the code creates when it is missing, and the read of
    an entry that is then present. *)
Definition zero_if_absent (m : gmap string Z) (base : string) : gmap string Z :=
  match m !! base with
  | Some _ => m
  | None => <[base := Dec.LegacyZeroDec]> m
  end.

Definition entry (m : gmap string Z) (base : string) : Z :=
  default Dec.LegacyZeroDec (m !! base).

(** Reading a LegacyDec under a key the map lacks yields the zero value of
    the struct, whose big integer is nil: the first method called on it
    dereferences nil. *)
Definition entry_or_nil (m : gmap string Z) (base : string) : result Z :=
  match m !! base with
  | Some v => Ok v
  | None => Panicked NilDereference
  end.

(** sort.SliceStable(cp, less on TimeStamp): a stable sort has one result,
    the one of this insertion sort. *)
Fixpoint insert_candle (c : CandlePrice) (l : list CandlePrice) : list CandlePrice :=
  match l with
  | [] => [c]
  | y :: l' =>
      if cpTimeStamp y <? cpTimeStamp c then y :: insert_candle c l'
      else c :: y :: l'
  end.

Definition SliceStable_TimeStamp (cp : list CandlePrice) : list CandlePrice :=
  foldr insert_candle [] cp.

(** ** oracle/util.go *)

Section Util.

(** [range] over a map visits its entries once each, in an order Go does
    not fix. *)
Context (range : ∀ V : Type, gmap string V → list (string * V)).

(** math's ApproxSqrt, which reports a failure of its iteration as an
    error next to the value. *)
Context (ApproxSqrt : Z → Z * option error).

(** *** vwap *)

Definition vwap_body (volumeSum : gmap string Z) (vwap : gmap string Z)
    (kv : string * Z) : result (gmap string Z) :=
  let '(base, p) := kv in
  v ← entry_or_nil volumeSum base;
  if negb (Dec.Equal v Dec.LegacyZeroDec) then
    let vwap := zero_if_absent vwap base in
    q ← Dec.Quo p v;
    Ok (<[base := q]> vwap)
  else Ok vwap.

Definition vwap (weightedPrices volumeSum : gmap string Z)
    : result (gmap string Z * option error) :=
  vwap ← foldM (vwap_body volumeSum) (range _ weightedPrices) ∅;
  Ok (vwap, None).

(** *** ComputeVWAP *)

Definition ComputeVWAP_body (acc : gmap string Z * gmap string Z)
    (kv : string * TickerPrice) : gmap string Z * gmap string Z :=
  let '(base, tp) := kv in
  let weightedPrices := zero_if_absent acc.1 base in
  let volumeSum := zero_if_absent acc.2 base in
  let weightedPrices :=
    <[base := Dec.Add (entry weightedPrices base) (Dec.Mul (tpPrice tp) (tpVolume tp))]>
      weightedPrices in
  let volumeSum := <[base := Dec.Add (entry volumeSum base) (tpVolume tp)]> volumeSum in
  (weightedPrices, volumeSum).

(** The loops fill weightedPrices and volumeSum; vwap divides them. *)
Definition ComputeVWAP_sums (prices : gmap string (gmap string TickerPrice))
    : gmap string Z * gmap string Z :=
  foldl (λ acc pp, foldl ComputeVWAP_body acc (range _ pp.2)) (∅, ∅) (range _ prices).

Definition ComputeVWAP (prices : gmap string (gmap string TickerPrice))
    : result (gmap string Z * option error) :=
  let acc := ComputeVWAP_sums prices in
  vwap acc.1 acc.2.

(** *** ComputeTVWAP

    [now0] and [timePeriod] are what provider.PastUnixTime returns for 0
    and for tvwapCandlePeriod (five minutes); [mockNow] is the package
    variable of that name. *)

Definition candleWeight (weightUnit period timeDiff : Z) : Z :=
  Dec.Mul weightUnit (Dec.Add (Dec.Sub period timeDiff) minimumTimeWeight).

Definition ComputeTVWAP_candle (now timePeriod : Z) (base : string)
    (weightUnit period : Z) (acc : gmap string Z * gmap string Z)
    (candle : CandlePrice) : gmap string Z * gmap string Z :=
  let '(weightedPrices, volumeSum) := acc in
  if timePeriod <? cpTimeStamp candle then
    let timeDiff := Dec.LegacyNewDec (int64_sub now (cpTimeStamp candle)) in
    let volume := Dec.Mul (cpVolume candle) (candleWeight weightUnit period timeDiff) in
    let volumeSum := <[base := Dec.Add (entry volumeSum base) volume]> volumeSum in
    let weightedPrices :=
      <[base := Dec.Add (entry weightedPrices base) (Dec.Mul (cpPrice candle) volume)]>
        weightedPrices in
    (weightedPrices, volumeSum)
  else (weightedPrices, volumeSum).

Definition ComputeTVWAP_base (now timePeriod : Z)
    (acc : gmap string Z * gmap string Z) (kv : string * list CandlePrice)
    : result (gmap string Z * gmap string Z) :=
  let '(base, cp) := kv in
  let weightedPrices := zero_if_absent acc.1 base in
  let volumeSum := zero_if_absent acc.2 base in
  let cp := SliceStable_TimeStamp cp in
  cp0 ← match cp !! 0%nat with
        | Some c => Ok c
        | None => Panicked IndexOutOfRange
        end;
  let period := Dec.LegacyNewDec (int64_sub now (cpTimeStamp cp0)) in
  let weightUnit := Dec.Sub Dec.LegacyZeroDec minimumTimeWeight in
  weightUnit ← (if negb (Dec.Equal period Dec.LegacyZeroDec)
                then Dec.Quo weightUnit period
                else Ok weightUnit);
  Ok (foldl (ComputeTVWAP_candle now timePeriod base weightUnit period)
        (weightedPrices, volumeSum) cp).

Definition ComputeTVWAP_sums (now0 timePeriod mockNow : Z)
    (prices : gmap string (gmap string (list CandlePrice)))
    : result (gmap string Z * gmap string Z) :=
  let now := if 0 <? mockNow then mockNow else now0 in
  foldM (λ acc pp, foldM (ComputeTVWAP_base now timePeriod) (range _ pp.2) acc)
        (range _ prices) (∅, ∅).

Definition ComputeTVWAP (now0 timePeriod mockNow : Z)
    (prices : gmap string (gmap string (list CandlePrice)))
    : result (gmap string Z * option error) :=
  acc ← ComputeTVWAP_sums now0 timePeriod mockNow prices;
  vwap acc.1 acc.2.

(** *** StandardDeviation *)

Definition StandardDeviation_collect
    (acc : gmap string Z * gmap string (list Z)) (kv : string * Z)
    : gmap string Z * gmap string (list Z) :=
  let '(base, p) := kv in
  let priceSums := zero_if_absent acc.1 base in
  let priceSlice :=
    match acc.2 !! base with
    | Some _ => acc.2
    | None => <[base := []]> acc.2
    end in
  (<[base := Dec.Add (entry priceSums base) p]> priceSums,
   <[base := default [] (priceSlice !! base) ++ [p]]> priceSlice).

Fixpoint StandardDeviation_loop (priceSlice : gmap string (list Z))
    (l : list (string * Z)) (deviations means : gmap string Z)
    : result (gmap string Z * gmap string Z * option error) :=
  match l with
  | [] => Ok (deviations, means, None)
  | (base, sum) :: l' =>
      let ps := default [] (priceSlice !! base) in
      if (length ps <? 3)%nat then
        StandardDeviation_loop priceSlice l' deviations means
      else
        let deviations := zero_if_absent deviations base in
        let means := zero_if_absent means base in
        let numPrices := Z.of_nat (length ps) in
        mean ← Dec.QuoInt64 sum numPrices;
        let means := <[base := mean]> means in
        let varianceSum :=
          foldl (λ varianceSum price,
                   let deviation := Dec.Sub price (entry means base) in
                   Dec.Add varianceSum (Dec.Mul deviation deviation))
                Dec.LegacyZeroDec ps in
        variance ← Dec.QuoInt64 varianceSum numPrices;
        match ApproxSqrt variance with
        | (_, Some err) => Ok (∅, ∅, Some err)
        | (standardDeviation, None) =>
            StandardDeviation_loop priceSlice l'
              (<[base := standardDeviation]> deviations) means
        end
  end.

Definition StandardDeviation (prices : gmap string (gmap string Z))
    : result (gmap string Z * gmap string Z * option error) :=
  let acc :=
    foldl (λ acc pp, foldl StandardDeviation_collect acc (range _ pp.2))
          (∅, ∅) (range _ prices) in
  StandardDeviation_loop acc.2 (range _ acc.1) ∅ ∅.

End Util.

(** ** Coins (cosmos-sdk types) and the oracle module's types *)

Record DecCoin : Type := { Denom : string; Amount : Z }.

Record DenomEntry : Type := { Name : string }.

Record Params : Type := { VotePeriod : Z; Whitelist : list DenomEntry }.

(** Modelled from the spec: DenomList.Contains, of the chain's oracle
    module, tells whether the list has an entry of that name. *)
Definition DenomList_Contains (dl : list DenomEntry) (denom : string) : bool :=
  existsb (λ d, String.eqb (Name d) denom) dl.

(** LegacyDec.String: sign, integer part, point, the 18 decimals. *)
Fixpoint decimal_digits (k : nat) (n : Z) (acc : string) : string :=
  match k with
  | O => acc
  | S k' =>
      decimal_digits k' (n / 10)
        (String (ascii_of_nat (48 + Z.to_nat (n mod 10))) acc)
  end.

Definition Dec_String (d : Z) : string :=
  let a := Z.abs d in
  String.append (if (d <? 0)%Z then "-" else "")
    (String.append (pretty (a / Dec.precisionReuse)%Z)
       (String "." (decimal_digits 18 (a mod Dec.precisionReuse)%Z ""))).

Definition DecCoin_String (c : DecCoin) : string :=
  String.append (Dec_String (Amount c)) (Denom c).

Fixpoint DecCoins_String (coins : list DecCoin) : string :=
  match coins with
  | [] => ""
  | [c] => DecCoin_String c
  | c :: coins' => String.append (DecCoin_String c) (String "," (DecCoins_String coins'))
  end.

(** DecCoins.Sort is sort.Sort with Less comparing the denoms. sort.Sort
    is not stable; on a slice of at most twelve elements it is this
    insertion sort, which moves an element left while it is smaller than
    its neighbour, and on a longer slice whose denoms differ pairwise it
    has the same result, the one sorted arrangement. *)
Fixpoint insert_coin (c : DecCoin) (sorted : list DecCoin) : list DecCoin :=
  match sorted with
  | [] => [c]
  | d :: sorted' =>
      if String.ltb (Denom c) (Denom d) then c :: d :: sorted'
      else d :: insert_coin c sorted'
  end.

Definition DecCoins_Sort (coins : list DecCoin) : list DecCoin :=
  foldl (λ sorted c, insert_coin c sorted) [] coins.

(** DecCoins.Add of one coin to a sorted set: the amounts of equal denoms
    are added, a zero amount leaves the set, the order is kept. *)
Fixpoint DecCoins_Add (coins : list DecCoin) (c : DecCoin) : list DecCoin :=
  match coins with
  | [] => if Amount c =? 0 then [] else [c]
  | d :: coins' =>
      match String.compare (Denom c) (Denom d) with
      | Lt => if Amount c =? 0 then d :: coins' else c :: d :: coins'
      | Eq =>
          let sum := Dec.Add (Amount d) (Amount c) in
          if sum =? 0 then coins' else {| Denom := Denom d; Amount := sum |} :: coins'
      | Gt => d :: DecCoins_Add coins' c
      end
  end.

(** ** oracle/oracle.go: functions without state *)

(** GenerateExchangeRatesString *)
Definition GenerateExchangeRatesString (prices : list DecCoin) : string :=
  DecCoins_String (DecCoins_Sort prices).

(** filterPricesByDenomList *)
Definition filterPricesByDenomList (coinPrices : list DecCoin)
    (denomList : list DenomEntry) : list DecCoin :=
  foldl (λ result c,
           foldl (λ result d,
                    if String.eqb (Name d) (Denom c) then DecCoins_Add result c
                    else result)
                 result denomList)
        [] coinPrices.

(** SetProviderTickerPricesAndCandles: the two aggregates after the call,
    and its result. *)
Definition SetProviderTickerPricesAndCandles (providerName : string)
    (providerPrices : gmap string (gmap string TickerPrice))
    (providerCandles : gmap string (gmap string (list CandlePrice)))
    (prices : gmap string TickerPrice)
    (candles : gmap string (list CandlePrice))
    (pair : CurrencyPair)
    : gmap string (gmap string TickerPrice)
      * gmap string (gmap string (list CandlePrice)) * bool :=
  let providerPrices :=
    match providerPrices !! providerName with
    | Some _ => providerPrices
    | None => <[providerName := ∅]> providerPrices
    end in
  let providerCandles :=
    match providerCandles !! providerName with
    | Some _ => providerCandles
    | None => <[providerName := ∅]> providerCandles
    end in
  let tp := prices !! CurrencyPair_String pair in
  let cp := candles !! CurrencyPair_String pair in
  let providerPrices :=
    match tp with
    | Some tp =>
        <[providerName :=
            <[Base pair := tp]> (default ∅ (providerPrices !! providerName))]>
          providerPrices
    | None => providerPrices
    end in
  let providerCandles :=
    match cp with
    | Some cp =>
        <[providerName :=
            <[Base pair := cp]> (default ∅ (providerCandles !! providerName))]>
          providerCandles
    | None => providerCandles
    end in
  (providerPrices, providerCandles, bool_decide (is_Some tp) || bool_decide (is_Some cp)).

(** ** oracle/oracle.go: the oracle and its tick *)

(** config.ProviderEndpoint *)
Record ProviderEndpoint : Type :=
  { epName : string; epRest : string; epWebsocket : string; epTimeout : string }.

(** config.CurrencyPair and config.Healthchecks *)
Record config_CurrencyPair : Type := {
  cfgBase : string; cfgChainDenom : string; cfgQuote : string;
  cfgProviders : list string
}.

Record config_Healthchecks : Type := { hcURL : string; hcTimeout : string }.

(** provider.Provider: what the adapter of one exchange answers. *)
Record Provider : Type := {
  GetTickerPrices : list CurrencyPair → gmap string TickerPrice * option error;
  GetCandlePrices : list CurrencyPair → gmap string (list CandlePrice) * option error
}.

Record TxResponse : Type := { Code : Z; TxHash : string }.

Record MsgAggregateExchangeRateVote : Type :=
  { ExchangeRates : string; Feeder : string; Validator : string }.

Record OracleClient : Type :=
  { ValidatorAddrString : string; OracleAddrString : string }.

(** Modelled from the spec: ParamCache and JailCache hold the last answer
    of the chain and the height at which it was fetched; the data is
    absent until the first fetch. *)
Record ParamCache : Type :=
  { params : option Params; paramsLastUpdatedBlock : Z }.

Record JailCache : Type :=
  { isJailed : option bool; jailLastUpdatedBlock : Z }.

(** What the outside answers during one call: the constructors of the
    exchange adapters, the provider that does not answer within
    providerTimeout, the chain queries, the broadcast, the healthcheck
    requests and the clock. A broadcast or a request that succeeds comes
    with its response; one that fails comes with its error, and with a
    response or with the nil pointer. *)
Record World : Type := {
  newAdapter : string → ProviderEndpoint → list CurrencyPair → Provider + error;
  timedOut : string → bool;
  QueryJailStatus : Z → bool + error;
  QueryOracleParams : Z → Params + error;
  BroadcastTx : MsgAggregateExchangeRateVote → TxResponse + option TxResponse * error;
  httpGet : string → unit + option unit * error;
  timeNow : Z;
  PastUnixTime_0 : Z;
  PastUnixTime_tvwapCandlePeriod : Z
}.

(** The calls that leave the process. *)
Inductive event : Type :=
  | EvNewProvider (providerName : string)
  | EvBroadcastTx (msg : MsgAggregateExchangeRateVote) (succeeded : bool)
  | EvHTTPGet (url : string).

Section OracleModel.

Context (range : ∀ V : Type, gmap string V → list (string * V)).

(** float64, its [==], and
    math.Floor(float64(nextBlockHeight) / float64(oracleVotePeriod)). *)
Context (float64 : Type) (float64_eqb : float64 → float64 → bool).
Context (votePeriodIndex : Z → Z → float64).

(** The package variable mockNow of util.go. *)
Context (mockNow : Z).

(** The provider names that NewProvider's switch has a case for (the
    constants config.ProviderBinance to config.ProviderMock). *)
Context (knownProvider : string → bool).

(** Functions of the package whose code is in other files. *)
Context (convertCandlesToUSD :
           gmap string (gmap string (list CandlePrice)) →
           gmap string (list CurrencyPair) → gmap string Z →
           gmap string (gmap string (list CandlePrice)) * option error).
Context (FilterCandleDeviations :
           gmap string (gmap string (list CandlePrice)) → gmap string Z →
           gmap string (gmap string (list CandlePrice)) * option error).
Context (convertTickersToUSD :
           gmap string (gmap string TickerPrice) →
           gmap string (list CurrencyPair) → gmap string Z →
           gmap string (gmap string TickerPrice) * option error).
Context (FilterTickerDeviations :
           gmap string (gmap string TickerPrice) → gmap string Z →
           gmap string (gmap string TickerPrice) * option error).

(** sdk.ValidateDenom, sdk.ValAddressFromBech32 followed by String, and
    time.ParseDuration. *)
Context (ValidateDenom : string → bool).
Context (ValAddressFromBech32 : string → string + error).
Context (ParseDuration : string → Z + error).

Record Oracle : Type := {
  providerPairs : gmap string (list CurrencyPair);
  chainDenomMapping : gmap string string;
  previousVotePeriod : float64;
  priceProviders : gmap string Provider;
  failedProviders : gmap string error;
  oracleClient : OracleClient;
  deviations : gmap string Z;
  endpoints : gmap string ProviderEndpoint;
  lastPriceSyncTS : Z;
  prices : gmap string Z;
  paramCache : ParamCache;
  jailCache : JailCache;
  healthchecks : gmap string Z;
  mockSetPrices : option (option error)
}.

Definition set_priceProviders (v : gmap string Provider) (o : Oracle) : Oracle :=
  {| providerPairs := providerPairs o; chainDenomMapping := chainDenomMapping o;
     previousVotePeriod := previousVotePeriod o; priceProviders := v;
     failedProviders := failedProviders o; oracleClient := oracleClient o;
     deviations := deviations o; endpoints := endpoints o;
     lastPriceSyncTS := lastPriceSyncTS o; prices := prices o;
     paramCache := paramCache o; jailCache := jailCache o;
     healthchecks := healthchecks o; mockSetPrices := mockSetPrices o |}.

Definition set_failedProviders (v : gmap string error) (o : Oracle) : Oracle :=
  {| providerPairs := providerPairs o; chainDenomMapping := chainDenomMapping o;
     previousVotePeriod := previousVotePeriod o; priceProviders := priceProviders o;
     failedProviders := v; oracleClient := oracleClient o;
     deviations := deviations o; endpoints := endpoints o;
     lastPriceSyncTS := lastPriceSyncTS o; prices := prices o;
     paramCache := paramCache o; jailCache := jailCache o;
     healthchecks := healthchecks o; mockSetPrices := mockSetPrices o |}.

Definition set_previousVotePeriod (v : float64) (o : Oracle) : Oracle :=
  {| providerPairs := providerPairs o; chainDenomMapping := chainDenomMapping o;
     previousVotePeriod := v; priceProviders := priceProviders o;
     failedProviders := failedProviders o; oracleClient := oracleClient o;
     deviations := deviations o; endpoints := endpoints o;
     lastPriceSyncTS := lastPriceSyncTS o; prices := prices o;
     paramCache := paramCache o; jailCache := jailCache o;
     healthchecks := healthchecks o; mockSetPrices := mockSetPrices o |}.

Definition set_lastPriceSyncTS (v : Z) (o : Oracle) : Oracle :=
  {| providerPairs := providerPairs o; chainDenomMapping := chainDenomMapping o;
     previousVotePeriod := previousVotePeriod o; priceProviders := priceProviders o;
     failedProviders := failedProviders o; oracleClient := oracleClient o;
     deviations := deviations o; endpoints := endpoints o;
     lastPriceSyncTS := v; prices := prices o;
     paramCache := paramCache o; jailCache := jailCache o;
     healthchecks := healthchecks o; mockSetPrices := mockSetPrices o |}.

Definition set_prices (v : gmap string Z) (o : Oracle) : Oracle :=
  {| providerPairs := providerPairs o; chainDenomMapping := chainDenomMapping o;
     previousVotePeriod := previousVotePeriod o; priceProviders := priceProviders o;
     failedProviders := failedProviders o; oracleClient := oracleClient o;
     deviations := deviations o; endpoints := endpoints o;
     lastPriceSyncTS := lastPriceSyncTS o; prices := v;
     paramCache := paramCache o; jailCache := jailCache o;
     healthchecks := healthchecks o; mockSetPrices := mockSetPrices o |}.

Definition set_paramCache (v : ParamCache) (o : Oracle) : Oracle :=
  {| providerPairs := providerPairs o; chainDenomMapping := chainDenomMapping o;
     previousVotePeriod := previousVotePeriod o; priceProviders := priceProviders o;
     failedProviders := failedProviders o; oracleClient := oracleClient o;
     deviations := deviations o; endpoints := endpoints o;
     lastPriceSyncTS := lastPriceSyncTS o; prices := prices o;
     paramCache := v; jailCache := jailCache o;
     healthchecks := healthchecks o; mockSetPrices := mockSetPrices o |}.

Definition set_jailCache (v : JailCache) (o : Oracle) : Oracle :=
  {| providerPairs := providerPairs o; chainDenomMapping := chainDenomMapping o;
     previousVotePeriod := previousVotePeriod o; priceProviders := priceProviders o;
     failedProviders := failedProviders o; oracleClient := oracleClient o;
     deviations := deviations o; endpoints := endpoints o;
     lastPriceSyncTS := lastPriceSyncTS o; prices := prices o;
     paramCache := paramCache o; jailCache := v;
     healthchecks := healthchecks o; mockSetPrices := mockSetPrices o |}.

(** A method of the oracle: it reads and writes the oracle, leaves a
    trace of the outside calls it makes, and returns or panics; the
    oracle keeps what was written before a panic. *)
Definition M (A : Type) : Type :=
  Oracle * list event → result A * (Oracle * list event).

#[local] Instance M_ret : MRet M := λ A a s, (Ok a, s).
#[local] Instance M_bind : MBind M := λ A B f m s,
  match m s with
  | (Ok a, s') => f a s'
  | (Panicked p, s') => (Panicked p, s')
  end.

Definition get : M Oracle := λ s, (Ok s.1, s).
Definition modify (f : Oracle → Oracle) : M unit := λ s, (Ok (), (f s.1, s.2)).
Definition emit (e : event) : M unit := λ s, (Ok (), (s.1, s.2 ++ [e])).
Definition lift {A : Type} (r : result A) : M A := λ s, (r, s).

Fixpoint forM {S A : Type} (f : S → A → M S) (l : list A) (s : S) : M S :=
  match l with
  | [] => mret s
  | a :: l' => s' ← f s a; forM f l' s'
  end.

(** *** createMappingsFromPairs and New *)

Definition createMappingsFromPairs (currencyPairs : list config_CurrencyPair)
    : gmap string string * gmap string (list CurrencyPair) :=
  foldl (λ acc pair,
           let providerPairs :=
             foldl (λ providerPairs provider,
                      let currencyPair :=
                        {| Base := cfgBase pair; Quote := cfgQuote pair |} in
                      <[provider :=
                          default [] (providerPairs !! provider) ++ [currencyPair]]>
                        providerPairs)
                   acc.2 (cfgProviders pair) in
           (<[cfgBase pair := cfgChainDenom pair]> acc.1, providerPairs))
        (∅, ∅) currencyPairs.

(** [zero] is the float64 0 that previousVotePeriod starts with. *)
Definition New (oc : OracleClient) (currencyPairs : list config_CurrencyPair)
    (deviations : gmap string Z) (endpoints : gmap string ProviderEndpoint)
    (healthchecksConfig : list config_Healthchecks) (zero : float64) : Oracle :=
  let '(chainDenomMapping, providerPairs) := createMappingsFromPairs currencyPairs in
  let healthchecks :=
    foldl (λ healthchecks healthcheck,
             match ParseDuration (hcTimeout healthcheck) with
             | inr _ => healthchecks
             | inl timeout => <[hcURL healthcheck := timeout]> healthchecks
             end)
          ∅ healthchecksConfig in
  {| providerPairs := providerPairs; chainDenomMapping := chainDenomMapping;
     previousVotePeriod := zero; priceProviders := ∅; failedProviders := ∅;
     oracleClient := oc; deviations := deviations; endpoints := endpoints;
     lastPriceSyncTS := 0; prices := ∅;
     paramCache := {| params := None; paramsLastUpdatedBlock := 0 |};
     jailCache := {| isJailed := None; jailLastUpdatedBlock := 0 |};
     healthchecks := healthchecks; mockSetPrices := None |}.

(** *** NewProvider and getOrSetProvider *)

Definition zeroProviderEndpoint : ProviderEndpoint :=
  {| epName := ""; epRest := ""; epWebsocket := ""; epTimeout := "" |}.

Definition NewProvider (w : World) (providerName : string)
    (endpoint : ProviderEndpoint) (providerPairs : list CurrencyPair)
    : Provider + error :=
  if knownProvider providerName
  then newAdapter w providerName endpoint providerPairs
  else inr (String.append "provider " (String.append providerName " not found")).

(** errors.Wrap *)
Definition errors_Wrap (err : error) (message : string) : error :=
  String.append message (String.append ": " err).

Definition getOrSetProvider (w : World) (providerName : string)
    : M (Provider + error) :=
  o ← get;
  match failedProviders o !! providerName with
  | Some err =>
      mret (inr (errors_Wrap err "failed at first init (skipping provider)"))
  | None =>
      match priceProviders o !! providerName with
      | Some priceProvider => mret (inl priceProvider)
      | None =>
          _ ← emit (EvNewProvider providerName);
          match NewProvider w providerName
                  (default zeroProviderEndpoint (endpoints o !! providerName))
                  (default [] (providerPairs o !! providerName)) with
          | inr err =>
              _ ← modify (λ o, set_failedProviders
                                 (<[providerName := err]> (failedProviders o)) o);
              mret (inr err)
          | inl newProvider =>
              _ ← modify (λ o, set_priceProviders
                                 (<[providerName := newProvider]> (priceProviders o)) o);
              mret (inl newProvider)
          end
      end
  end.

(** *** SetPrices *)

Record task : Type := {
  taskProviderName : string;
  taskCurrencyPairs : list CurrencyPair;
  taskPriceProvider : Provider
}.

(** o.paramCache.params.Whitelist *)
Definition paramCache_Whitelist : M (list DenomEntry) :=
  o ← get;
  match params (paramCache o) with
  | Some p => mret (Whitelist p)
  | None => lift (Panicked NilDereference)
  end.

Definition SetPrices_required (requiredRates : gmap string unit)
    (pair : CurrencyPair) : M (gmap string unit) :=
  match requiredRates !! Base pair with
  | Some _ => mret requiredRates
  | None =>
      o ← get;
      whitelist ← paramCache_Whitelist;
      if DenomList_Contains whitelist
           (default "" (chainDenomMapping o !! Base pair))
      then mret (<[Base pair := ()]> requiredRates)
      else mret requiredRates
  end.

(** The loop over o.providerPairs: the providers whose adapter is at
    hand get a task, and their pairs enter requiredRates. *)
Definition SetPrices_provider (w : World) (acc : gmap string unit * list task)
    (kv : string * list CurrencyPair) : M (gmap string unit * list task) :=
  let '(providerName, currencyPairs) := kv in
  r ← getOrSetProvider w providerName;
  match r with
  | inr _ => mret acc
  | inl priceProvider =>
      requiredRates ← forM SetPrices_required currencyPairs acc.1;
      mret (requiredRates,
            acc.2 ++ [{| taskProviderName := providerName;
                         taskCurrencyPairs := currencyPairs;
                         taskPriceProvider := priceProvider |}])
  end.

Fixpoint SetPrices_merge (providerName : string)
    (prices : gmap string TickerPrice) (candles : gmap string (list CandlePrice))
    (pairs : list CurrencyPair)
    (agg : gmap string (gmap string TickerPrice)
           * gmap string (gmap string (list CandlePrice)))
    : gmap string (gmap string TickerPrice)
      * gmap string (gmap string (list CandlePrice)) :=
  match pairs with
  | [] => agg
  | currencyPair :: pairs' =>
      let '(providerPrices, providerCandles, success) :=
        SetProviderTickerPricesAndCandles providerName agg.1 agg.2 prices candles
          currencyPair in
      if success
      then SetPrices_merge providerName prices candles pairs' (providerPrices, providerCandles)
      else (providerPrices, providerCandles)
  end.

(** One task of the errgroup: the provider that answers in time has its
    tickers and candles merged, under the mutex, into the aggregates. *)
Definition SetPrices_task (w : World)
    (agg : gmap string (gmap string TickerPrice)
           * gmap string (gmap string (list CandlePrice)))
    (t : task)
    : gmap string (gmap string TickerPrice)
      * gmap string (gmap string (list CandlePrice)) :=
  if timedOut w (taskProviderName t) then agg
  else
    let prices := (GetTickerPrices (taskPriceProvider t) (taskCurrencyPairs t)).1 in
    let candles := (GetCandlePrices (taskPriceProvider t) (taskCurrencyPairs t)).1 in
    SetPrices_merge (taskProviderName t) prices candles (taskCurrencyPairs t) agg.

(** *** GetComputedPrices (the logging at debug level is left out) *)

Definition GetComputedPrices (w : World)
    (providerCandles : gmap string (gmap string (list CandlePrice)))
    (providerPrices : gmap string (gmap string TickerPrice))
    (providerPairs : gmap string (list CurrencyPair))
    (deviations : gmap string Z)
    (requiredRates : gmap string unit)
    : result (gmap string Z * option error) :=
  match convertCandlesToUSD providerCandles providerPairs deviations with
  | (_, Some err) => Ok (∅, Some err)
  | (convertedCandles, None) =>
  match FilterCandleDeviations convertedCandles deviations with
  | (_, Some err) => Ok (∅, Some err)
  | (filteredCandles, None) =>
  r ← ComputeTVWAP range (PastUnixTime_0 w) (PastUnixTime_tvwapCandlePeriod w)
        mockNow filteredCandles;
  match r with
  | (_, Some err) => Ok (∅, Some err)
  | (computedPrices, None) =>
  let allRequiredAssetsPresent :=
    foldl (λ present kv,
             match computedPrices !! kv.1 with
             | Some _ => present
             | None => false
             end)
          true (range _ requiredRates) in
  if negb allRequiredAssetsPresent then
    match convertTickersToUSD providerPrices providerPairs deviations with
    | (_, Some err) => Ok (∅, Some err)
    | (convertedTickers, None) =>
    match FilterTickerDeviations convertedTickers deviations with
    | (_, Some err) => Ok (∅, Some err)
    | (filteredProviderPrices, None) =>
    r ← ComputeVWAP range filteredProviderPrices;
    match r with
    | (_, Some err) => Ok (∅, Some err)
    | (vwapPrices, None) =>
        Ok (foldl (λ computedPrices kv,
                     match computedPrices !! kv.1 with
                     | Some _ => computedPrices
                     | None => <[kv.1 := kv.2]> computedPrices
                     end)
                  computedPrices (range _ vwapPrices),
            None)
    end end end
  else Ok (computedPrices, None)
  end end end.

Definition SetPrices_missing (computedPrices : gmap string Z)
    (requiredRates : list (string * unit)) : option string :=
  fst <$> List.find (λ kv, bool_decide (computedPrices !! kv.1 = None)) requiredRates.

(** The loop over o.providerPairs, and what the tasks it started have
    merged when group.Wait returns. *)
Definition SetPrices_spawn (w : World) : M (gmap string unit * list task) :=
  o ← get;
  forM (SetPrices_provider w) (range _ (providerPairs o)) (∅, []).

Definition SetPrices_aggregate (w : World) (tasks : list task)
    : gmap string (gmap string TickerPrice)
      * gmap string (gmap string (list CandlePrice)) :=
  foldl (SetPrices_task w) (∅, ∅) tasks.

Definition SetPrices (w : World) : M (option error) :=
  o ← get;
  match mockSetPrices o with
  | Some r => mret r
  | None =>
      '(requiredRates, tasks) ← SetPrices_spawn w;
      let '(providerPrices, providerCandles) := SetPrices_aggregate w tasks in
      o ← get;
      r ← lift (GetComputedPrices w providerCandles providerPrices
                  (providerPairs o) (deviations o) requiredRates);
      match r with
      | (_, Some err) => mret (Some err)
      | (computedPrices, None) =>
          match SetPrices_missing computedPrices (range _ requiredRates) with
          | Some base =>
              mret (Some (String.append
                      "reported prices were not equal to required rates, missed: " base))
          | None =>
              _ ← modify (set_prices computedPrices);
              mret None
          end
      end
  end.

(** *** GetPrices *)

(** sdk.NewDecCoinFromDec *)
Definition NewDecCoinFromDec (denom : string) (amount : Z) : result DecCoin :=
  if negb (ValidateDenom denom) then Panicked InvalidCoin
  else if amount <? 0 then Panicked InvalidCoin
  else Ok {| Denom := denom; Amount := amount |}.

Definition GetPrices : M (list DecCoin) :=
  o ← get;
  lift (foldM (λ prices kv,
                 let chainDenom := default "" (chainDenomMapping o !! kv.1) in
                 c ← NewDecCoinFromDec chainDenom kv.2;
                 Ok (DecCoins_Add prices c))
              (range _ (prices o)) []).

(** *** The caches of the chain's answers *)

Definition jailCacheInterval : Z := 50.
Definition paramsCacheInterval : Z := 200.

Definition refreshJailCache (w : World) (blockHeight : Z) : M (bool + error) :=
  match QueryJailStatus w blockHeight with
  | inr err => mret (inr err)
  | inl jailed =>
      _ ← modify (set_jailCache
                    {| isJailed := Some jailed; jailLastUpdatedBlock := blockHeight |});
      mret (inl jailed)
  end.

(** Modelled from the spec: GetCachedJailedState answers from the cache
    while it is set and less than 50 blocks old, and asks the chain
    otherwise. *)
Definition GetCachedJailedState (w : World) (blockHeight : Z) : M (bool + error) :=
  o ← get;
  match isJailed (jailCache o) with
  | Some jailed =>
      if blockHeight - jailLastUpdatedBlock (jailCache o) <? jailCacheInterval
      then mret (inl jailed)
      else refreshJailCache w blockHeight
  | None => refreshJailCache w blockHeight
  end.

Definition refreshParamCache (w : World) (blockHeight : Z) : M (Params + error) :=
  match QueryOracleParams w blockHeight with
  | inr err => mret (inr err)
  | inl p =>
      _ ← modify (set_paramCache
                    {| params := Some p; paramsLastUpdatedBlock := blockHeight |});
      mret (inl p)
  end.

(** Modelled from the spec: GetParamCache answers from the cache while it
    is set and less than 200 blocks old, and asks the chain otherwise. *)
Definition GetParamCache (w : World) (blockHeight : Z) : M (Params + error) :=
  o ← get;
  match params (paramCache o) with
  | Some p =>
      if blockHeight - paramsLastUpdatedBlock (paramCache o) <? paramsCacheInterval
      then mret (inl p)
      else refreshParamCache w blockHeight
  | None => refreshParamCache w blockHeight
  end.

(** *** healthchecksPing *)

(** One turn of the loop: the request, the warning when it fails (the
    log is left out), and response.Body.Close(), which goes through the
    response pointer. *)
Definition healthchecksPing_url (w : World) (_ : unit) (kv : string * Z) : M unit :=
  _ ← emit (EvHTTPGet kv.1);
  match httpGet w kv.1 with
  | inl _ => mret ()
  | inr (Some _, _) => mret ()
  | inr (None, _) => lift (Panicked NilDereference)
  end.

Definition healthchecksPing (w : World) : M unit :=
  o ← get;
  forM (healthchecksPing_url w) (range _ (healthchecks o)) ().

(** *** tick *)

Definition tick_broadcast (w : World) (currentVotePeriod : float64)
    (voteMsg : MsgAggregateExchangeRateVote) : M (option error) :=
  match BroadcastTx w voteMsg with
  | inr (_, err) =>
      _ ← emit (EvBroadcastTx voteMsg false);
      mret (Some err)
  | inl _ =>
      _ ← emit (EvBroadcastTx voteMsg true);
      _ ← modify (set_previousVotePeriod currentVotePeriod);
      _ ← healthchecksPing w;
      mret None
  end.

Definition tick_vote (w : World) (oracleParams : Params) (blockHeight : Z)
    : M (option error) :=
  _ ← modify (set_lastPriceSyncTS (timeNow w));
  let oracleVotePeriod := int64_wrap (VotePeriod oracleParams) in
  let nextBlockHeight := int64_add blockHeight 1 in
  let currentVotePeriod := votePeriodIndex nextBlockHeight oracleVotePeriod in
  o ← get;
  if float64_eqb currentVotePeriod (previousVotePeriod o) then mret None
  else
    match ValAddressFromBech32 (ValidatorAddrString (oracleClient o)) with
    | inr err => mret (Some err)
    | inl valAddr =>
        prices ← GetPrices;
        let filteredPrices := filterPricesByDenomList prices (Whitelist oracleParams) in
        let exchangeRatesStr := GenerateExchangeRatesString filteredPrices in
        let voteMsg :=
          {| ExchangeRates := exchangeRatesStr;
             Feeder := OracleAddrString (oracleClient o);
             Validator := valAddr |} in
        tick_broadcast w currentVotePeriod voteMsg
    end.

Definition tick (w : World) (blockHeight : Z) : M (option error) :=
  if blockHeight <? 1 then mret (Some "expected positive block height"%string)
  else
    r ← GetCachedJailedState w blockHeight;
    match r with
    | inr err => mret (Some err)
    | inl jailed =>
        if jailed : bool then
          o ← get;
          mret (Some (String.append "validator "
                        (String.append (ValidatorAddrString (oracleClient o))
                                       " is jailed")))
        else
          r ← GetParamCache w blockHeight;
          match r with
          | inr err => mret (Some err)
          | inl oracleParams =>
              err ← SetPrices w;
              match err with
              | Some err => mret (Some err)
              | None => tick_vote w oracleParams blockHeight
              end
          end
    end.

(** The value tick compares previousVotePeriod with. *)
Definition currentVotePeriod (oracleParams : Params) (blockHeight : Z) : float64 :=
  votePeriodIndex (int64_add blockHeight 1) (int64_wrap (VotePeriod oracleParams)).

End OracleModel.

(** * The vocabulary of the specification *)

(** ** Aggregation *)

(** The sum of [f] over the entries of one base. *)
Definition sum_for {V : Type} (f : V → Z) (base : string) (l : list (string * V)) : Z :=
  foldr (λ kv acc, if decide (kv.1 = base) then f kv.2 + acc else acc) 0 l.

(** The quotient of two decimals that are known not to divide by zero:
    LegacyDec.Quo without its panic. *)
Definition quo (p v : Z) : Z :=
  Dec.chopPrecisionAndRound (Z.quot (p * Dec.squaredPrecisionReuse) v).


Section UtilVocabulary.
Context (range : ∀ V : Type, gmap string V → list (string * V)).


End UtilVocabulary.



(** The weight as the comment above its computation writes it, and as the
    specification repeats it:
    weightUnit * (period - timeDiff) + minimumTimeWeight. *)
Definition documentedWeight (weightUnit period timeDiff : Z) : Z :=
  Dec.Add (Dec.Mul weightUnit (Dec.Sub period timeDiff)) minimumTimeWeight.

(** The values reported for one base. *)
Definition values_for {V : Type} (base : string) (l : list (string * V)) : list V :=
  omap (λ kv, if decide (kv.1 = base) then Some kv.2 else None) l.


Definition sumZ (l : list Z) : Z := foldr Z.add 0 l.




(** Ascending order of the denoms, byte by byte. *)
Definition denom_lt (c d : DecCoin) : Prop := String.ltb (Denom c) (Denom d) = true.

(** ** The oracle *)

#[global] Instance MsgAggregateExchangeRateVote_eq_dec : EqDecision MsgAggregateExchangeRateVote.
Proof. solve_decision. Defined.

#[global] Instance event_eq_dec : EqDecision event.
Proof. solve_decision. Defined.

(** How often NewProvider was called for a provider name. *)
Definition creations (providerName : string) (trace : list event) : nat :=
  length (filter (λ ev, ev = EvNewProvider providerName) trace).


Section OracleVocabulary.
Context (float64 : Type) (knownProvider : string → bool).
Context (votePeriodIndex : Z → Z → float64).

(** A run of calls of getOrSetProvider, each in the world of its time. *)
Fixpoint getOrSetProvider_run (calls : list (World * string))
    (s : Oracle float64 * list event) : Oracle float64 * list event :=
  match calls with
  | [] => s
  | (w, providerName) :: calls' =>
      getOrSetProvider_run calls'
        (getOrSetProvider float64 knownProvider w providerName s).2
  end.

(** A provider name is created once at most, and then sits in one of
    the two maps. *)
Definition created_once (s : Oracle float64 * list event) : Prop :=
  ∀ name, (creations name s.2 ≤ 1)%nat ∧
    (creations name s.2 = 1%nat →
       is_Some (priceProviders _ s.1 !! name) ∨ is_Some (failedProviders _ s.1 !! name)).




(** The provider whose adapter getOrSetProvider hands out: it has not
    failed before, and it is cached or its creation succeeds now. *)
Definition provider_available (w : World) (o : Oracle float64) (name : string) : Prop :=
  failedProviders _ o !! name = None ∧
  (is_Some (priceProviders _ o !! name) ∨
   ∃ a, NewProvider knownProvider w name
          (default zeroProviderEndpoint (endpoints _ o !! name))
          (default [] (providerPairs _ o !! name)) = inl a).

(** The chain denom of the base is in the whitelist. *)
Definition whitelisted (o : Oracle float64) (whitelist : list DenomEntry)
    (base : string) : Prop :=
  DenomList_Contains whitelist (default "" (chainDenomMapping _ o !! base)) = true.

(** The required rates as the code collects them. *)
Definition required_rate (w : World) (o : Oracle float64) (whitelist : list DenomEntry)
    (base : string) : Prop :=
  ∃ name pairs currencyPair,
    providerPairs _ o !! name = Some pairs ∧ provider_available w o name ∧
    currencyPair ∈ pairs ∧ Base currencyPair = base ∧ whitelisted o whitelist base.

(** The required rates as the specification writes them:
    {base | base in configured pairs AND chainDenom(base) ∈ whitelist}. *)
Definition required_rate_as_specified (o : Oracle float64)
    (whitelist : list DenomEntry) (base : string) : Prop :=
  (∃ name pairs currencyPair,
     providerPairs _ o !! name = Some pairs ∧
     currencyPair ∈ pairs ∧ Base currencyPair = base) ∧
  whitelisted o whitelist base.

(** The fields that the loop of SetPrices does not write. *)
Definition same_configuration (o o' : Oracle float64) : Prop :=
  providerPairs _ o' = providerPairs _ o ∧
  chainDenomMapping _ o' = chainDenomMapping _ o ∧
  endpoints _ o' = endpoints _ o ∧
  deviations _ o' = deviations _ o ∧
  paramCache _ o' = paramCache _ o ∧
  prices _ o' = prices _ o.

End OracleVocabulary.

(** ** Scenarios *)

(** One of the orders [range] may take. *)
Definition range_fixed : ∀ V : Type, gmap string V → list (string * V) :=
  λ V m, map_to_list m.



(** One candle of price 10 and volume 1 with the time stamp
    1700000299000. *)
Definition scenario_one_candle : gmap string (gmap string (list CandlePrice)) :=
  {["A" := {["ATOM" := [{| cpPrice := 10 * 10 ^ 18; cpVolume := 10 ^ 18;
                           cpTimeStamp := 1700000299000 |}]]}]}.



(** Three providers report ATOM at 10, 10.1 and 50. *)
Definition scenario_three_prices : gmap string (gmap string Z) :=
  <["A" := {["ATOM" := 10 * 10 ^ 18]}]>
    (<["B" := {["ATOM" := 101 * 10 ^ 17]}]>
       (<["C" := {["ATOM" := 50 * 10 ^ 18]}]> ∅)).

(** In the examples the square root is the exact one, cut to 18
    decimals, and does not fail. *)
Definition example_ApproxSqrt (d : Z) : Z * option error :=
  (Z.sqrt (d * 10 ^ 18), None).

(** In the examples the vote periods are small non-negative integers, on
    which the floor of the float quotient is the integer quotient. *)
Definition example_votePeriodIndex (nextBlockHeight oracleVotePeriod : Z) : Z :=
  nextBlockHeight / oracleVotePeriod.

(** The provider names that the switch of NewProvider knows. *)
Definition example_knownProvider (providerName : string) : bool :=
  bool_decide (providerName ∈
    ["binance"; "kraken"; "crypto"; "mexc"; "huobi"; "coinbase"; "okx"; "gate"; "mock"]).

(** Pairs quoted in a dollar coin, no deviation configured: the
    conversions and the filters hand back what they get. *)
Definition example_convertCandlesToUSD
    (candles : gmap string (gmap string (list CandlePrice)))
    (_ : gmap string (list CurrencyPair)) (_ : gmap string Z)
    : gmap string (gmap string (list CandlePrice)) * option error := (candles, None).

Definition example_FilterCandleDeviations
    (candles : gmap string (gmap string (list CandlePrice))) (_ : gmap string Z)
    : gmap string (gmap string (list CandlePrice)) * option error := (candles, None).

Definition example_convertTickersToUSD
    (tickers : gmap string (gmap string TickerPrice))
    (_ : gmap string (list CurrencyPair)) (_ : gmap string Z)
    : gmap string (gmap string TickerPrice) * option error := (tickers, None).

Definition example_FilterTickerDeviations
    (tickers : gmap string (gmap string TickerPrice)) (_ : gmap string Z)
    : gmap string (gmap string TickerPrice) * option error := (tickers, None).

(** An adapter that reports ATOMUSDT at 10. *)
Definition example_provider : Provider :=
  {| GetTickerPrices := λ _,
       ({["ATOMUSDT" := {| tpPrice := 10 * 10 ^ 18; tpVolume := 100 * 10 ^ 18 |}]}, None);
     GetCandlePrices := λ _,
       ({["ATOMUSDT" := [{| cpPrice := 10 * 10 ^ 18; cpVolume := 10 ^ 18;
                            cpTimeStamp := 1700000299000 |}]]}, None) |}.

Definition example_params : Params :=
  {| VotePeriod := 10; Whitelist := [{| Name := "uatom" |}; {| Name := "akii" |}] |}.

(** Binance answers; Kraken cannot be reached when its adapter is made. *)
Definition example_world : World :=
  {| newAdapter := λ providerName _ _,
       if String.eqb providerName "binance" then inl example_provider
       else inr "dial tcp: connection refused"%string;
     timedOut := λ _, false;
     QueryJailStatus := λ _, inl false;
     QueryOracleParams := λ _, inl example_params;
     BroadcastTx := λ _, inl {| Code := 0; TxHash := "4A1F" |};
     httpGet := λ _, inl ();
     timeNow := 1700000300;
     PastUnixTime_0 := 1700000300000;
     PastUnixTime_tvwapCandlePeriod := 1700000000000 |}.

(** The same, with the healthcheck endpoint not answering. *)
Definition example_world_healthcheck_down : World :=
  {| newAdapter := newAdapter example_world;
     timedOut := timedOut example_world;
     QueryJailStatus := QueryJailStatus example_world;
     QueryOracleParams := QueryOracleParams example_world;
     BroadcastTx := BroadcastTx example_world;
     httpGet := λ _, inr (None, "context deadline exceeded"%string);
     timeNow := timeNow example_world;
     PastUnixTime_0 := PastUnixTime_0 example_world;
     PastUnixTime_tvwapCandlePeriod := PastUnixTime_tvwapCandlePeriod example_world |}.

(** ATOM is taken from Binance and KII from Kraken. *)
Definition example_currencyPairs : list config_CurrencyPair :=
  [ {| cfgBase := "ATOM"; cfgChainDenom := "uatom"; cfgQuote := "USDT";
       cfgProviders := ["binance"] |};
    {| cfgBase := "KII"; cfgChainDenom := "akii"; cfgQuote := "USDT";
       cfgProviders := ["kraken"] |} ].

Definition example_healthcheck_url : string := "https://hc-ping.com/HEALTHCHECK-UUID".

Definition example_oracle : Oracle Z :=
  New Z (λ _, inl 200)
    {| ValidatorAddrString := "kiivaloper1"; OracleAddrString := "kii1" |}
    example_currencyPairs ∅ ∅
    [{| hcURL := example_healthcheck_url; hcTimeout := "200ms" |}] 0.

(** The oracle once the parameters of the chain are cached, as they are
    when tick calls SetPrices. *)
Definition example_oracle_with_params : Oracle Z :=
  set_paramCache Z {| params := Some example_params; paramsLastUpdatedBlock := 9 |}
    example_oracle.

(** SetPrices and tick in this setting. *)
Definition example_SetPrices (w : World) : M Z (option error) :=
  SetPrices range_fixed Z 0 example_knownProvider example_convertCandlesToUSD
    example_FilterCandleDeviations example_convertTickersToUSD
    example_FilterTickerDeviations w.

Definition example_tick (w : World) (blockHeight : Z) : M Z (option error) :=
  tick range_fixed Z Z.eqb example_votePeriodIndex 0 example_knownProvider
    example_convertCandlesToUSD example_FilterCandleDeviations
    example_convertTickersToUSD example_FilterTickerDeviations
    (λ _, true) inl w blockHeight.

(** The vote that the tick of the examples broadcasts. *)
Definition example_vote : MsgAggregateExchangeRateVote :=
  {| ExchangeRates := "10.000000000000000000uatom"; Feeder := "kii1";
     Validator := "kiivaloper1" |}.

(** * The vocabulary of the further properties *)

(** Adding to the entry of a base, which counts as zero while absent. *)
Definition bump (b : string) (x : Z) (m : gmap string Z) : gmap string Z :=
  <[b := entry m b + x]> m.





(** The pair that createMappingsFromPairs hands to the providers of a
    configured pair. *)
Definition types_CurrencyPair (pair : config_CurrencyPair) : CurrencyPair :=
  {| Base := cfgBase pair; Quote := cfgQuote pair |}.

(** The step of createMappingsFromPairs for one provider of a pair. *)
Definition add_provider_pair (currencyPair : CurrencyPair)
    (providerPairs : gmap string (list CurrencyPair)) (provider : string)
    : gmap string (list CurrencyPair) :=
  <[provider := default [] (providerPairs !! provider) ++ [currencyPair]]> providerPairs.

(** What an aggregate holds for a provider and a base. *)
Definition aggregate_lookup {V : Type} (m : gmap string (gmap string V))
    (providerName base : string) : option V :=
  inner ← m !! providerName; inner !! base.

(** DecCoins.AmountOf: what a set of coins holds of a denom. *)
Definition DecCoins_AmountOf (denom : string) (coins : list DecCoin) : Z :=
  foldr (λ c acc, if decide (Denom c = denom) then Amount c + acc else acc) 0 coins.

(** How often a denom list names a denom. *)
Definition DenomList_count (denom : string) (denomList : list DenomEntry) : Z :=
  Z.of_nat (length (filter (λ d, Name d = denom) denomList)).



(** A method all of whose runs relate the state before to the state after
    by [R]. *)
Definition keeps {float64 A : Type}
    (R : Oracle float64 * list event → Oracle float64 * list event → Prop)
    (m : M float64 A) : Prop :=
  ∀ s, R s (m s).2.

(** The calls of a trace, by kind. *)
Definition is_creation (ev : event) : Prop := ∃ providerName, ev = EvNewProvider providerName.
Definition is_request (ev : event) : Prop := ∃ url, ev = EvHTTPGet url.

(** What the steps of a tick before the vote do: they keep
    previousVotePeriod and the cached parameters, and the only calls they
    make create provider adapters. *)
Definition prepares {float64 : Type} (s s' : Oracle float64 * list event) : Prop :=
  previousVotePeriod _ s'.1 = previousVotePeriod _ s.1 ∧
  paramCache _ s'.1 = paramCache _ s.1 ∧
  ∃ evs, s'.2 = s.2 ++ evs ∧ Forall is_creation evs.


Section TickVocabulary.
Context (range : ∀ V : Type, gmap string V → list (string * V)).
Context (float64 : Type) (float64_eqb : float64 → float64 → bool).
Context (votePeriodIndex : Z → Z → float64).
Context (ValidateDenom : string → bool).
Context (ValAddressFromBech32 : string → string + error).

(** The vote that the oracle [o] builds under the parameters [p]: the
    string of its prices as coins, filtered by the whitelist, with the
    addresses of its client. *)
Definition vote_message (o : Oracle float64) (p : Params)
    (msg : MsgAggregateExchangeRateVote) : Prop :=
  ∃ coins valAddr,
    (GetPrices range float64 ValidateDenom (o, [])).1 = Ok coins ∧
    ValAddressFromBech32 (ValidatorAddrString (oracleClient _ o)) = inl valAddr ∧
    msg = {| ExchangeRates :=
               GenerateExchangeRatesString (filterPricesByDenomList coins (Whitelist p));
             Feeder := OracleAddrString (oracleClient _ o);
             Validator := valAddr |}.

(** A tick seen from outside: the adapters it created, then its vote if
    it came to one, which it does only in a vote period other than
    previousVotePeriod. *)
Definition tick_trace (blockHeight : Z) (s : Oracle float64 * list event)
    (r : result (option error)) (s' : Oracle float64 * list event) : Prop :=
  ∃ created rest,
    s'.2 = s.2 ++ created ++ rest ∧ Forall is_creation created ∧
    ((rest = [] ∧ previousVotePeriod _ s'.1 = previousVotePeriod _ s.1) ∨
     (∃ p, params (paramCache _ s'.1) = Some p ∧
        float64_eqb (currentVotePeriod float64 votePeriodIndex p blockHeight)
          (previousVotePeriod _ s.1) = false ∧
        ((∃ msg err, rest = [EvBroadcastTx msg false] ∧ vote_message s'.1 p msg ∧
            r = Ok (Some err) ∧
            previousVotePeriod _ s'.1 = previousVotePeriod _ s.1) ∨
         (∃ msg requests, rest = EvBroadcastTx msg true :: requests ∧
            vote_message s'.1 p msg ∧ Forall is_request requests ∧
            (r = Ok None ∨ r = Panicked NilDereference))))).

End TickVocabulary.

(** A step that keeps the invariant of getOrSetProvider. *)
Definition keeps_created_once {float64 : Type}
    (s s' : Oracle float64 * list event) : Prop :=
  created_once float64 s → created_once float64 s'.

Section TickRun.
Context (range : ∀ V : Type, gmap string V → list (string * V)).
Context (float64 : Type) (float64_eqb : float64 → float64 → bool).
Context (votePeriodIndex : Z → Z → float64).
Context (mockNow : Z).
Context (knownProvider : string → bool).
Context (convertCandlesToUSD :
           gmap string (gmap string (list CandlePrice)) →
           gmap string (list CurrencyPair) → gmap string Z →
           gmap string (gmap string (list CandlePrice)) * option error).
Context (FilterCandleDeviations :
           gmap string (gmap string (list CandlePrice)) → gmap string Z →
           gmap string (gmap string (list CandlePrice)) * option error).
Context (convertTickersToUSD :
           gmap string (gmap string TickerPrice) →
           gmap string (list CurrencyPair) → gmap string Z →
           gmap string (gmap string TickerPrice) * option error).
Context (FilterTickerDeviations :
           gmap string (gmap string TickerPrice) → gmap string Z →
           gmap string (gmap string TickerPrice) * option error).
Context (ValidateDenom : string → bool).
Context (ValAddressFromBech32 : string → string + error).

(** The ticks that the loop of Start runs, one per block height it
    receives, each in the world of its time.  The loop goes on after a
    tick that returns an error; a panic ends the process, and the run
    here goes on from what the panic left, so that it covers every
    sequence of ticks the process can make. *)
Fixpoint tick_run (ticks : list (World * Z)) (s : Oracle float64 * list event)
    : Oracle float64 * list event :=
  match ticks with
  | [] => s
  | (w, blockHeight) :: ticks' =>
      tick_run ticks'
        (tick range float64 float64_eqb votePeriodIndex mockNow knownProvider
           convertCandlesToUSD FilterCandleDeviations convertTickersToUSD
           FilterTickerDeviations ValidateDenom ValAddressFromBech32
           w blockHeight s).2
  end.

End TickRun.

(** ** oracle/oracle.go: the metrics of missing prices *)

(** A map that may be nil. *)
Definition safeMapContains {V : Type} (m : option (gmap string V)) (key : string) : bool :=
  match m with
  | None => false
  | Some m => bool_decide (is_Some (m !! key))
  end.

(** The labels of one call of sendProviderFailureMetric. *)
Definition missing_price_labels (providerName priceType : string) (pair : CurrencyPair)
    : list (string * string) :=
  [("type", priceType); ("reason", "error"); ("provider", providerName);
   ("base", Base pair)]%string.

(** reportPriceErrMetrics: the calls of sendProviderFailureMetric it makes,
    in their order, each given by its labels. *)
Definition reportPriceErrMetrics {V : Type} (providerName priceType : string)
    (prices : option (gmap string V)) (expected : list CurrencyPair)
    : list (list (string * string)) :=
  foldl (λ sent pair,
           if negb (safeMapContains prices (CurrencyPair_String pair))
           then sent ++ [missing_price_labels providerName priceType pair]
           else sent)
        [] expected.

(** ** config: the timeout of a provider *)

(** The fields of config.Config that GetProviderTimeout reads. *)
Record Config : Type := {
  ProviderEndpoints : list ProviderEndpoint;
  ProviderTimeout : string
}.

(** time.Millisecond, in the nanoseconds that a time.Duration counts. *)
Definition Millisecond : Z := 1000000.

Section ConfigModel.
Context (ParseDuration : string → Z + error).

(** The timeout that one endpoint gives to a provider: its own, when the
    endpoint has the provider's name and a timeout that is set and
    parses. *)
Definition own_timeout (providerName : string) (endpoint : ProviderEndpoint) : option Z :=
  if decide (epName endpoint = providerName ∧ epTimeout endpoint ≠ "")
  then match ParseDuration (epTimeout endpoint) with
       | inl d => Some d
       | inr _ => None
       end
  else None.

(** The loop of GetProviderTimeout, which returns from the function at
    the first endpoint of that name whose timeout is set and parses. *)
Fixpoint GetProviderTimeout_endpoints (providerName : string)
    (endpoints : list ProviderEndpoint) : option Z :=
  match endpoints with
  | [] => None
  | endpoint :: endpoints' =>
      if String.eqb (epName endpoint) providerName
         && negb (String.eqb (epTimeout endpoint) "")
      then match ParseDuration (epTimeout endpoint) with
           | inl d => Some d
           | inr _ => GetProviderTimeout_endpoints providerName endpoints'
           end
      else GetProviderTimeout_endpoints providerName endpoints'
  end.

Definition GetProviderTimeout (providerName : string) (cfg : Config) : Z :=
  match GetProviderTimeout_endpoints providerName (ProviderEndpoints cfg) with
  | Some d => d
  | None =>
      match ParseDuration (ProviderTimeout cfg) with
      | inr _ => 100 * Millisecond
      | inl d => d
      end
  end.

End ConfigModel.

(** The durations of the test of the configuration, instead of
    time.ParseDuration. *)
Definition example_ParseDuration (s : string) : Z + error :=
  if String.eqb s "250ms" then inl (250 * Millisecond)
  else if String.eqb s "100ms" then inl (100 * Millisecond)
  else inr "time: invalid duration"%string.

(** The configuration of TestProviderEndpointTimeout. *)
Definition example_binance_endpoint : ProviderEndpoint :=
  {| epName := "binance"; epRest := "https://api1.binance.com";
     epWebsocket := "stream.binance.com:9443"; epTimeout := "250ms" |}.

Definition example_config : Config :=
  {| ProviderEndpoints := [example_binance_endpoint]; ProviderTimeout := "100ms" |}.

(** The timeouts of the healthchecks of one URL that parse, in the order
    of the configuration. *)
Definition parsed_timeouts (ParseDuration : string → Z + error) (url : string)
    (healthchecksConfig : list config_Healthchecks) : list Z :=
  omap (λ hc, if decide (hcURL hc = url)
              then match ParseDuration (hcTimeout hc) with
                   | inl timeout => Some timeout
                   | inr _ => None
                   end
              else None) healthchecksConfig.

(** ** oracle/oracle.go: the time of the last prices *)

Definition GetLastPriceSyncTimestamp {float64 : Type} (o : Oracle float64) : Z :=
  lastPriceSyncTS _ o.

(** The steps that leave the stored prices and their time alone. *)
Definition keeps_prices {float64 : Type} (s s' : Oracle float64 * list event) : Prop :=
  prices _ s'.1 = prices _ s.1 ∧ lastPriceSyncTS _ s'.1 = lastPriceSyncTS _ s.1.

(** * Properties *)

#[local] Existing Instances M_ret M_bind.

(** ** Volume-weighted average *)

Lemma sum_for_cons {V : Type} (f : V → Z) (b k : string) (v : V) l :
  sum_for f b ((k, v) :: l) = (if decide (k = b) then f v else 0) + sum_for f b l.
Proof. unfold sum_for. cbn. destruct (decide (k = b)); lia. Qed.




Lemma chop_nonneg_bounds (a b d : Z) :
  0 ≤ d → a * 10 ^ 18 ≤ d → d ≤ b * 10 ^ 18 →
  a ≤ Dec.chopPrecisionAndRound_nonneg d ≤ b.
Proof.
  intros Hd Ha Hb. unfold Dec.chopPrecisionAndRound_nonneg, Dec.precisionReuse, Dec.fivePrecision.
  rewrite Z.quot_div_nonneg, Z.rem_mod_nonneg by lia.
  pose proof (Z.div_mod d (10 ^ 18) ltac:(lia)) as Hdm.
  pose proof (Z.mod_pos_bound d (10 ^ 18) ltac:(lia)) as Hm.
  set (q := d / 10 ^ 18) in *. set (r := d mod 10 ^ 18) in *.
  assert (a ≤ q) by nia.
  destruct (r =? 0) eqn:Hr.
  - apply Z.eqb_eq in Hr. split; [lia | nia].
  - apply Z.eqb_neq in Hr. assert (q + 1 ≤ b) by nia.
    destruct (r ?= 5 * 10 ^ 17); [destruct (Z.even q) | |]; lia.
Qed.

Lemma chop_bounds (a b d : Z) :
  a * 10 ^ 18 ≤ d → d ≤ b * 10 ^ 18 → a ≤ Dec.chopPrecisionAndRound d ≤ b.
Proof.
  intros Ha Hb. unfold Dec.chopPrecisionAndRound.
  destruct (d <? 0) eqn:Hd.
  - apply Z.ltb_lt in Hd.
    pose proof (chop_nonneg_bounds (- b) (- a) (- d) ltac:(lia) ltac:(lia) ltac:(lia)). lia.
  - apply Z.ltb_ge in Hd. by apply chop_nonneg_bounds.
Qed.



Lemma quot_bounds (a b x v : Z) :
  0 < v → a * v ≤ x → x ≤ b * v → a ≤ Z.quot x v ≤ b.
Proof.
  intros Hv Ha Hb.
  destruct (Z_lt_le_dec x 0) as [Hx | Hx].
  - rewrite <- (Z.opp_involutive x), Z.quot_opp_l by lia.
    rewrite Z.quot_div_nonneg by lia.
    pose proof (Z.div_mod (- x) v ltac:(lia)).
    pose proof (Z.mod_pos_bound (- x) v ltac:(lia)). nia.
  - rewrite Z.quot_div_nonneg by lia.
    pose proof (Z.div_mod x v ltac:(lia)).
    pose proof (Z.mod_pos_bound x v ltac:(lia)). nia.
Qed.



Lemma zero_if_absent_lookup (m : gmap string Z) (k b : string) :
  zero_if_absent m k !! b =
    if decide (k = b) then Some (entry m b) else m !! b.
Proof.
  unfold zero_if_absent, entry. destruct (decide (k = b)) as [->|Hne].
  - destruct (m !! b) eqn:Hm; [by rewrite Hm | by rewrite lookup_insert_eq].
  - destruct (m !! k); [done | by rewrite lookup_insert_ne].
Qed.




Section UtilProperties.
Context (range : ∀ V : Type, gmap string V → list (string * V)).
Context (range_perm : ∀ (V : Type) (m : gmap string V), range V m ≡ₚ map_to_list m).

Lemma elem_of_range {V : Type} (m : gmap string V) (k : string) (v : V) :
  (k, v) ∈ range V m ↔ m !! k = Some v.
Proof. rewrite range_perm. apply elem_of_map_to_list. Qed.

Lemma NoDup_range {V : Type} (m : gmap string V) : NoDup (range V m).*1.
Proof. rewrite range_perm. apply NoDup_fst_map_to_list. Qed.







End UtilProperties.


Section VWAPProperties.
Context (range : ∀ V : Type, gmap string V → list (string * V)).
Context (range_perm : ∀ (V : Type) (m : gmap string V), range V m ≡ₚ map_to_list m).

End VWAPProperties.


(** ** Time- and volume-weighted average *)









(** ComputeTVWAP_base: an empty slice panics at cp[0]; any other returns. *)
Lemma ComputeTVWAP_base_nil now timePeriod acc base :
  ComputeTVWAP_base now timePeriod acc (base, []) = Panicked IndexOutOfRange.
Proof. done. Qed.





Section TVWAPProperties.
Context (range : ∀ V : Type, gmap string V → list (string * V)).
Context (range_perm : ∀ (V : Type) (m : gmap string V), range V m ≡ₚ map_to_list m).



End TVWAPProperties.


Section TVWAPResults.
Context (range : ∀ V : Type, gmap string V → list (string * V)).
Context (range_perm : ∀ (V : Type) (m : gmap string V), range V m ≡ₚ map_to_list m).



End TVWAPResults.

(** ** Standard deviation *)






Lemma values_for_cons {V : Type} (b k : string) (v : V) (l : list (string * V)) :
  values_for b ((k, v) :: l) =
    (if decide (k = b) then [v] else []) ++ values_for b l.
Proof. unfold values_for. cbn. by destruct (decide (k = b)). Qed.


Lemma values_for_in {V : Type} (b : string) (l : list (string * V)) :
  b ∈ l.*1 → values_for b l ≠ [].
Proof.
  induction l as [|[k v] l IH]; [set_solver|]. intros Hb. rewrite values_for_cons.
  destruct (decide (k = b)); [done|]. cbn. apply IH. set_solver.
Qed.

Lemma sum_for_values (b : string) (l : list (string * Z)) :
  sum_for id b l = sumZ (values_for b l).
Proof.
  induction l as [|[k v] l IH]; [done|]. rewrite sum_for_cons, values_for_cons, IH.
  by destruct (decide (k = b)).
Qed.



Section StandardDeviationLoop.
Context (ApproxSqrt : Z → Z * option error).

End StandardDeviationLoop.

Section StandardDeviationProperties.
Context (range : ∀ V : Type, gmap string V → list (string * V)).
Context (range_perm : ∀ (V : Type) (m : gmap string V), range V m ≡ₚ map_to_list m).
Context (ApproxSqrt : Z → Z * option error).

End StandardDeviationProperties.

(** ** The time weight *)

Lemma chop_nonpos (d : Z) : d ≤ 0 → Dec.chopPrecisionAndRound d ≤ 0.
Proof.
  intros Hd. apply (chop_bounds (d - 1) 0 d); lia.
Qed.

Lemma candleWeight_nonpositive (weightUnit period timeDiff : Z) :
  0 < period → timeDiff ≤ period →
  Dec.Quo (Dec.Sub Dec.LegacyZeroDec minimumTimeWeight) period = Ok weightUnit →
  candleWeight weightUnit period timeDiff ≤ 0.
Proof.
  intros Hp Ht. unfold Dec.Quo. destruct (period =? 0) eqn:Hz; [discriminate|].
  intros [= <-]. unfold candleWeight, Dec.Mul, Dec.Add, Dec.Sub, Dec.LegacyZeroDec,
    minimumTimeWeight, Dec.squaredPrecisionReuse.
  apply chop_nonpos.
  assert (Hw : Dec.chopPrecisionAndRound (Z.quot ((0 - 2 * 10 ^ 17) * 10 ^ 36) period) ≤ 0).
  { apply chop_nonpos.
    pose proof (quot_bounds ((0 - 2 * 10 ^ 17) * 10 ^ 36) 0
                  ((0 - 2 * 10 ^ 17) * 10 ^ 36) period Hp ltac:(nia) ltac:(lia)). lia. }
  nia.
Qed.

(** Claim C1 (the code departs from it).  The weight that ComputeTVWAP
    multiplies a candle's volume with is
    weightUnit * (period - timeDiff + minimumTimeWeight), with
    weightUnit = (0 - minimumTimeWeight) / period, and not the documented
    weightUnit * (period - timeDiff) + minimumTimeWeight.  For one candle
    of price 10 and volume 1, one second old, weightUnit is -0.0002, the
    weight is -0.00004 where the documented formula gives 0.2, and the
    sums that go to vwap are -0.0004 for the prices and -0.00004 for the
    volumes: the weight is negative, outside [0.2, 1]. *)
Theorem ComputeTVWAP_weight_is_negative :
  let now := 1700000300000 in
  let period := Dec.LegacyNewDec (int64_sub now 1700000299000) in
  Dec.Quo (Dec.Sub Dec.LegacyZeroDec minimumTimeWeight) period = Ok (- (2 * 10 ^ 14)) ∧
  candleWeight (- (2 * 10 ^ 14)) period period = - (4 * 10 ^ 13) ∧
  documentedWeight (- (2 * 10 ^ 14)) period period = minimumTimeWeight ∧
  ComputeTVWAP_sums (λ V, map_to_list) now (now - 300000) 0 scenario_one_candle =
    Ok ({["ATOM" := - (4 * 10 ^ 14)]}, {["ATOM" := - (4 * 10 ^ 13)]}).
Proof. vm_compute. repeat split; reflexivity. Qed.

(** ** The vote string *)

Lemma String_compare_OT (a b : string) : String.compare a b = String_as_OT.compare a b.
Proof. reflexivity. Qed.

Lemma String_ltb_lt (a b : string) : String.ltb a b = true ↔ String_as_OT.lt a b.
Proof.
  unfold String.ltb, String_as_OT.lt. rewrite String_compare_OT.
  destruct (String_as_OT.compare a b); split; congruence.
Qed.


Lemma denom_lt_trans : Transitive denom_lt.
Proof.
  intros c d e. unfold denom_lt. rewrite !String_ltb_lt.
  apply String_as_OT.lt_strorder.
Qed.

Lemma denom_lt_irrefl (c d : DecCoin) : denom_lt c d → Denom c ≠ Denom d.
Proof.
  unfold denom_lt. rewrite String_ltb_lt. intros Hlt Heq. rewrite Heq in Hlt.
  by apply (irreflexivity String_as_OT.lt) in Hlt.
Qed.

Lemma denom_lt_antisymm : AntiSymm (=) denom_lt.
Proof.
  intros c d Hcd Hdc. exfalso.
  pose proof (denom_lt_trans _ _ _ Hcd Hdc) as Hcc. by apply denom_lt_irrefl in Hcc.
Qed.

#[local] Existing Instances denom_lt_trans denom_lt_antisymm.







Lemma denom_sorted_NoDup (l : list DecCoin) :
  StronglySorted denom_lt l → NoDup (Denom <$> l).
Proof.
  induction 1 as [|c l Hs IH Hc]; cbn; [constructor|].
  apply NoDup_cons. split; [|done]. intros Hin.
  apply list_elem_of_fmap in Hin as (d & Heq & Hd).
  rewrite Forall_forall in Hc. by apply (denom_lt_irrefl c d (Hc d Hd)).
Qed.

Lemma DecCoins_Add_sorted (coins : list DecCoin) (c : DecCoin) :
  StronglySorted denom_lt coins → StronglySorted denom_lt (DecCoins_Add coins c).
Proof.
  induction coins as [|d coins IH]; intros Hs; cbn.
  - destruct (Amount c =? 0); repeat constructor.
  - apply StronglySorted_inv in Hs as [Hs Hd].
    destruct (String.compare (Denom c) (Denom d)) eqn:Hcmp.
    + apply String.compare_eq_iff in Hcmp.
      destruct (Dec.Add (Amount d) (Amount c) =? 0); [done|].
      constructor; [done|]. eapply Forall_impl; [exact Hd|].
      intros e. unfold denom_lt. done.
    + assert (Hcd : denom_lt c d) by (unfold denom_lt, String.ltb; by rewrite Hcmp).
      destruct (Amount c =? 0); [by constructor|].
      constructor; [by constructor|]. constructor; [done|].
      eapply Forall_impl; [exact Hd|]. intros e He. by transitivity d.
    + assert (Hdc : denom_lt d c).
      { unfold denom_lt, String.ltb. rewrite String.compare_antisym, Hcmp. done. }
      constructor; [by apply IH|].
      clear IH. induction coins as [|e coins IH]; cbn.
      * destruct (Amount c =? 0); repeat constructor; done.
      * apply Forall_cons in Hd as [Hde Hd]. apply StronglySorted_inv in Hs as [Hs He].
        destruct (String.compare (Denom c) (Denom e));
          [destruct (_ =? 0)|destruct (_ =? 0)|]; repeat constructor; auto.
Qed.

Lemma filterPricesByDenomList_sorted (coinPrices : list DecCoin) (denomList : list DenomEntry) :
  StronglySorted denom_lt (filterPricesByDenomList coinPrices denomList).
Proof.
  unfold filterPricesByDenomList.
  assert (H : ∀ acc, StronglySorted denom_lt acc →
    StronglySorted denom_lt
      (foldl (λ result c,
                foldl (λ result d,
                         if String.eqb (Name d) (Denom c) then DecCoins_Add result c
                         else result) result denomList) acc coinPrices)).
  { induction coinPrices as [|c cs IH]; intros acc Hacc; [done|]. cbn. apply IH.
    clear IH. revert acc Hacc. induction denomList as [|d ds IHd]; intros acc Hacc; [done|].
    cbn. apply IHd. destruct (String.eqb (Name d) (Denom c)); [|done].
    by apply DecCoins_Add_sorted. }
  apply H. constructor.
Qed.




(** ** Provider initialisation *)

Section GetOrSetProviderProperties.
Context (float64 : Type) (knownProvider : string → bool).

Lemma getOrSetProvider_unfold (w : World) (providerName : string)
    (o : Oracle float64) (tr : list event) :
  getOrSetProvider float64 knownProvider w providerName (o, tr) =
    match failedProviders _ o !! providerName with
    | Some err =>
        (Ok (inr (errors_Wrap err "failed at first init (skipping provider)")), (o, tr))
    | None =>
        match priceProviders _ o !! providerName with
        | Some priceProvider => (Ok (inl priceProvider), (o, tr))
        | None =>
            match NewProvider knownProvider w providerName
                    (default zeroProviderEndpoint (endpoints _ o !! providerName))
                    (default [] (providerPairs _ o !! providerName)) with
            | inr err =>
                (Ok (inr err),
                 (set_failedProviders _ (<[providerName := err]> (failedProviders _ o)) o,
                  tr ++ [EvNewProvider providerName]))
            | inl newProvider =>
                (Ok (inl newProvider),
                 (set_priceProviders _ (<[providerName := newProvider]> (priceProviders _ o)) o,
                  tr ++ [EvNewProvider providerName]))
            end
        end
    end.
Proof.
  unfold getOrSetProvider, mbind, mret, M_bind, M_ret, get, emit, modify. cbn.
  destruct (failedProviders _ o !! providerName); [done|].
  destruct (priceProviders _ o !! providerName); [done|]. cbn.
  by destruct (NewProvider _ _ _ _ _).
Qed.

Lemma creations_snoc (name name' : string) (tr : list event) :
  creations name (tr ++ [EvNewProvider name']) =
    (creations name tr + if decide (name' = name) then 1 else 0)%nat.
Proof.
  unfold creations. rewrite filter_app, length_app. f_equal.
  rewrite filter_cons, filter_nil.
  destruct (decide (name' = name)) as [->|Hne].
  - by rewrite decide_True.
  - rewrite decide_False; [done|]. intros [= ?]. done.
Qed.

Lemma getOrSetProvider_created_once w providerName s :
  created_once float64 s →
  created_once float64 (getOrSetProvider float64 knownProvider w providerName s).2.
Proof.
  destruct s as [o tr]. intros Hinv. rewrite getOrSetProvider_unfold.
  destruct (failedProviders _ o !! providerName) eqn:Hf; [done|].
  destruct (priceProviders _ o !! providerName) eqn:Hp; [done|].
  assert (H0 : creations providerName tr = 0%nat).
  { destruct (Hinv providerName) as [Hle Hone]. cbn -[creations] in *.
    destruct (creations providerName tr) as [|[|n]]; [done| |lia].
    destruct (Hone eq_refl) as [[? ?]|[? ?]]; congruence. }
  destruct (NewProvider _ _ _ _ _); intros name; destruct (Hinv name) as [Hle Hone];
    cbn -[creations] in *; rewrite creations_snoc;
    (destruct (decide (providerName = name)) as [<-|Hne];
      [rewrite H0; split; [lia|]; intros _; rewrite lookup_insert_eq; eauto
      |rewrite Nat.add_0_r; split; [done|]; intros H1;
       rewrite ?lookup_insert_ne by done; auto]).
Qed.

Lemma getOrSetProvider_run_created_once calls s :
  created_once float64 s → created_once float64 (getOrSetProvider_run float64 knownProvider calls s).
Proof.
  revert s. induction calls as [|[w name] calls IH]; intros s Hs; [done|].
  cbn. apply IH. by apply getOrSetProvider_created_once.
Qed.

Lemma getOrSetProvider_cached_kept w' name' s name p :
  priceProviders _ s.1 !! name = Some p ∧ failedProviders _ s.1 !! name = None →
  let s' := (getOrSetProvider float64 knownProvider w' name' s).2 in
  priceProviders _ s'.1 !! name = Some p ∧ failedProviders _ s'.1 !! name = None.
Proof.
  destruct s as [o tr]. cbn. intros [Hp Hf]. rewrite getOrSetProvider_unfold.
  destruct (failedProviders _ o !! name') eqn:Hf'; [done|].
  destruct (priceProviders _ o !! name') eqn:Hp'; [done|].
  assert (name' ≠ name) by congruence.
  destruct (NewProvider _ _ _ _ _); cbn; by rewrite ?lookup_insert_ne.
Qed.

Lemma getOrSetProvider_failed_kept w' name' s name :
  is_Some (failedProviders _ s.1 !! name) →
  is_Some (failedProviders _ (getOrSetProvider float64 knownProvider w' name' s).2.1 !! name).
Proof.
  destruct s as [o tr]. cbn. intros Hf. rewrite getOrSetProvider_unfold.
  destruct (failedProviders _ o !! name') eqn:Hf'; [done|].
  destruct (priceProviders _ o !! name') eqn:Hp'; [done|].
  assert (name' ≠ name) by (intros ->; rewrite Hf' in Hf; by destruct Hf).
  destruct (NewProvider _ _ _ _ _); cbn; by rewrite ?lookup_insert_ne.
Qed.

(** Claim C9.  From an oracle with no provider cached and none failed,
    any run of calls of getOrSetProvider, in whatever worlds, creates the
    adapter of a name at most once.  After a call that returned an adapter,
    every later call for that name returns the same adapter and changes
    nothing; after a call that returned an error, every later call for
    that name returns an error and changes nothing, so it creates no
    adapter. *)
Theorem getOrSetProvider_creates_at_most_once :
  (∀ (calls : list (World * string)) (o : Oracle float64) (providerName : string),
     priceProviders _ o = ∅ → failedProviders _ o = ∅ →
     (creations providerName (getOrSetProvider_run float64 knownProvider calls (o, [])).2 ≤ 1)%nat) ∧
  (∀ (w : World) (providerName : string) (s s' : Oracle float64 * list event)
     (priceProvider : Provider),
     getOrSetProvider float64 knownProvider w providerName s
       = (Ok (inl priceProvider), s') →
     ∀ (calls : list (World * string)) (w' : World),
       getOrSetProvider float64 knownProvider w' providerName
         (getOrSetProvider_run float64 knownProvider calls s')
       = (Ok (inl priceProvider), getOrSetProvider_run float64 knownProvider calls s')) ∧
  (∀ (w : World) (providerName : string) (s s' : Oracle float64 * list event)
     (err : error),
     getOrSetProvider float64 knownProvider w providerName s = (Ok (inr err), s') →
     ∀ (calls : list (World * string)) (w' : World),
       ∃ err', getOrSetProvider float64 knownProvider w' providerName
                 (getOrSetProvider_run float64 knownProvider calls s')
               = (Ok (inr err'), getOrSetProvider_run float64 knownProvider calls s')).
Proof.
  split; [|split].
  - intros calls o name Hp Hf.
    apply (getOrSetProvider_run_created_once calls (o, [])).
    intros n. cbn. split; [lia|]. unfold creations. cbn. lia.
  - intros w name [o tr] s' p Hcall calls w'.
    assert (Hs' : priceProviders _ s'.1 !! name = Some p ∧
                  failedProviders _ s'.1 !! name = None).
    { rewrite getOrSetProvider_unfold in Hcall.
      destruct (failedProviders _ o !! name) eqn:Hf; [discriminate|].
      destruct (priceProviders _ o !! name) eqn:Hp.
      - injection Hcall as <- <-. done.
      - destruct (NewProvider _ _ _ _ _); [|discriminate].
        injection Hcall as <- <-. cbn. by rewrite lookup_insert_eq. }
    clear Hcall. revert s' Hs'.
    induction calls as [|[w1 n1] calls IH]; intros [o' tr'] [Hp Hf].
    + cbn in *. rewrite getOrSetProvider_unfold. by rewrite Hf, Hp.
    + cbn [getOrSetProvider_run]. apply IH.
      by apply getOrSetProvider_cached_kept.
  - intros w name [o tr] s' err Hcall calls w'.
    assert (Hs' : is_Some (failedProviders _ s'.1 !! name)).
    { rewrite getOrSetProvider_unfold in Hcall.
      destruct (failedProviders _ o !! name) eqn:Hf.
      - injection Hcall as _ <-. cbn. rewrite Hf. eauto.
      - destruct (priceProviders _ o !! name) eqn:Hp; [discriminate|].
        destruct (NewProvider _ _ _ _ _); [discriminate|].
        injection Hcall as _ <-. cbn. rewrite lookup_insert_eq. eauto. }
    clear Hcall. revert s' Hs'.
    induction calls as [|[w1 n1] calls IH]; intros [o' tr'] Hf.
    + cbn in *. rewrite getOrSetProvider_unfold. destruct Hf as [e ->]. eauto.
    + cbn [getOrSetProvider_run]. apply IH.
      by apply getOrSetProvider_failed_kept.
Qed.
End GetOrSetProviderProperties.

(** ** The tick *)

Section Frame.
Context (float64 : Type).



Lemma run_bind {A B : Type} (m : M float64 A) (f : A → M float64 B) s :
  (m ≫= f) s =
    match m s with
    | (Ok a, s') => f a s'
    | (Panicked p, s') => (Panicked p, s')
    end.
Proof. done. Qed.

Lemma run_modify (f : Oracle float64 → Oracle float64) o tr :
  modify float64 f (o, tr) = (Ok (), (f o, tr)).
Proof. done. Qed.

Lemma run_get o tr : get float64 (o, tr) = (Ok o, (o, tr)).
Proof. done. Qed.

Lemma run_emit ev o tr : emit float64 ev (o, tr) = (Ok (), (o, tr ++ [ev])).
Proof. done. Qed.







End Frame.


Section TickProperties.
Context (range : ∀ V : Type, gmap string V → list (string * V)).
Context (float64 : Type) (float64_eqb : float64 → float64 → bool).
Context (votePeriodIndex : Z → Z → float64).
Context (mockNow : Z).
Context (knownProvider : string → bool).
Context (convertCandlesToUSD :
           gmap string (gmap string (list CandlePrice)) →
           gmap string (list CurrencyPair) → gmap string Z →
           gmap string (gmap string (list CandlePrice)) * option error).
Context (FilterCandleDeviations :
           gmap string (gmap string (list CandlePrice)) → gmap string Z →
           gmap string (gmap string (list CandlePrice)) * option error).
Context (convertTickersToUSD :
           gmap string (gmap string TickerPrice) →
           gmap string (list CurrencyPair) → gmap string Z →
           gmap string (gmap string TickerPrice) * option error).
Context (FilterTickerDeviations :
           gmap string (gmap string TickerPrice) → gmap string Z →
           gmap string (gmap string TickerPrice) * option error).
Context (ValidateDenom : string → bool).
Context (ValAddressFromBech32 : string → string + error).






Lemma GetParamCache_spec w h s :
  ∃ r, (GetParamCache float64 w h s).1 = Ok r ∧
    previousVotePeriod _ (GetParamCache float64 w h s).2.1 = previousVotePeriod _ s.1 ∧
    (GetParamCache float64 w h s).2.2 = s.2 ∧
    ∀ p, r = inl p → params (paramCache _ (GetParamCache float64 w h s).2.1) = Some p.
Proof.
  destruct s as [o tr].
  unfold GetParamCache, refreshParamCache, mbind, mret, M_bind, M_ret, get, modify.
  cbn. destruct (params (paramCache _ o)) as [p|] eqn:Hp;
    [destruct (_ <? _)|];
    try (destruct (QueryOracleParams w h) as [p'|e]); cbn;
    (eexists; split; [reflexivity|]; split; [reflexivity|]; split; [reflexivity|];
     intros ? [= <-]; done).
Qed.





End TickProperties.

(** ** Required rates *)

Section SetPricesProperties.
Context (range : ∀ V : Type, gmap string V → list (string * V)).
Context (range_perm : ∀ (V : Type) (m : gmap string V), range V m ≡ₚ map_to_list m).
Context (float64 : Type).
Context (mockNow : Z).
Context (knownProvider : string → bool).
Context (convertCandlesToUSD :
           gmap string (gmap string (list CandlePrice)) →
           gmap string (list CurrencyPair) → gmap string Z →
           gmap string (gmap string (list CandlePrice)) * option error).
Context (FilterCandleDeviations :
           gmap string (gmap string (list CandlePrice)) → gmap string Z →
           gmap string (gmap string (list CandlePrice)) * option error).
Context (convertTickersToUSD :
           gmap string (gmap string TickerPrice) →
           gmap string (list CurrencyPair) → gmap string Z →
           gmap string (gmap string TickerPrice) * option error).
Context (FilterTickerDeviations :
           gmap string (gmap string TickerPrice) → gmap string Z →
           gmap string (gmap string TickerPrice) * option error).

Lemma SetPrices_required_loop (pairs : list CurrencyPair) (req : gmap string unit)
    (o : Oracle float64) (tr : list event) (p : Params) :
  params (paramCache _ o) = Some p →
  ∃ req', forM float64 (SetPrices_required float64) pairs req (o, tr)
            = (Ok req', (o, tr)) ∧
    ∀ b, is_Some (req' !! b) ↔
      is_Some (req !! b) ∨
      ∃ currencyPair, currencyPair ∈ pairs ∧ Base currencyPair = b ∧
        whitelisted float64 o (Whitelist p) b.
Proof.
  intros Hp. revert req. induction pairs as [|cp pairs IH]; intros req.
  - exists req. split; [done|]. intros b. split; [auto|].
    intros [H|(c & Hc & _)]; [done|]. inversion Hc.
  - cbn [forM]. rewrite run_bind.
    assert (Hstep : ∃ req1, SetPrices_required float64 req cp (o, tr) = (Ok req1, (o, tr)) ∧
       ∀ b, is_Some (req1 !! b) ↔
         is_Some (req !! b) ∨ (Base cp = b ∧ whitelisted float64 o (Whitelist p) b)).
    { unfold SetPrices_required, paramCache_Whitelist.
      destruct (req !! Base cp) eqn:Hreq.
      - exists req. split; [done|]. intros b. split; [auto|]. intros [H|[<- _]]; [done|eauto].
      - rewrite run_bind, run_get, run_bind, run_bind, run_get, Hp.
        cbn [mret M_ret]. unfold whitelisted.
        destruct (DenomList_Contains _ _) eqn:Hc.
        + eexists. split; [done|]. intros b.
          destruct (decide (Base cp = b)) as [<-|Hne].
          * rewrite lookup_insert_eq. split; [intros _; right; done|eauto].
          * rewrite lookup_insert_ne by done. split; [auto|]. intros [H|[? _]]; done.
        + exists req. split; [done|]. intros b. split; [auto|].
          intros [H|[<- H]]; [done|congruence]. }
    destruct Hstep as (req1 & -> & Hreq1).
    destruct (IH req1) as (req' & -> & Hreq'). exists req'. split; [done|].
    intros b. rewrite Hreq', Hreq1. split.
    + intros [[H|[Hb Hw]]|(c & Hc & Hb & Hw)]; [auto| |].
      * right. exists cp. split; [set_solver|done].
      * right. exists c. split; [set_solver|done].
    + intros [H|(c & Hc & Hb & Hw)]; [auto|].
      apply elem_of_cons in Hc as [->|Hc]; [auto|]. right. eauto.
Qed.

Lemma SetPrices_provider_loop (w : World) (o : Oracle float64) (p : Params)
    (l : list (string * list CurrencyPair)) :
  params (paramCache _ o) = Some p →
  NoDup l.*1 →
  (∀ name pairs, (name, pairs) ∈ l → providerPairs _ o !! name = Some pairs) →
  ∀ (req : gmap string unit) (tasks : list task) (oi : Oracle float64) (tr : list event),
    same_configuration float64 o oi →
    (∀ name, name ∈ l.*1 →
       failedProviders _ oi !! name = failedProviders _ o !! name ∧
       priceProviders _ oi !! name = priceProviders _ o !! name) →
    ∃ req' tasks' s',
      forM float64 (SetPrices_provider float64 knownProvider w) l (req, tasks) (oi, tr)
        = (Ok (req', tasks'), s') ∧
      same_configuration float64 o s'.1 ∧
      ∀ b, is_Some (req' !! b) ↔
        is_Some (req !! b) ∨
        ∃ name pairs currencyPair,
          (name, pairs) ∈ l ∧ provider_available float64 knownProvider w o name ∧
          currencyPair ∈ pairs ∧ Base currencyPair = b ∧
          whitelisted float64 o (Whitelist p) b.
Proof.
  intros Hp. induction l as [|[name pairs] l IH]; intros Hnd Hl req tasks oi tr Hcfg Hmaps.
  - exists req, tasks, (oi, tr). split; [done|]. split; [done|].
    intros b. split; [auto|]. intros [H|(n & ps & c & Hin & _)]; [done|]. inversion Hin.
  - apply NoDup_cons in Hnd as [Hname Hnd].
    change (name ∉ l.*1) in Hname. change (NoDup l.*1) in Hnd.
    destruct Hcfg as (Hpp & Hcdm & Hep & Hdev & Hpc & Hpr).
    destruct (Hmaps name ltac:(set_solver)) as [Hf Hpv].
    cbn [forM]. rewrite run_bind. unfold SetPrices_provider at 1.
    rewrite run_bind, getOrSetProvider_unfold, Hf, Hpv, Hep, Hpp.
    assert (Hrest : ∀ o1, same_configuration float64 o o1 →
              (∀ n, n ≠ name → failedProviders _ o1 !! n = failedProviders _ oi !! n ∧
                               priceProviders _ o1 !! n = priceProviders _ oi !! n) →
              ∀ n, n ∈ l.*1 →
                failedProviders _ o1 !! n = failedProviders _ o !! n ∧
                priceProviders _ o1 !! n = priceProviders _ o !! n).
    { intros o1 _ Ho1 n Hn. assert (n ≠ name) by (intros ->; done).
      destruct (Ho1 n ltac:(done)) as [-> ->]. apply Hmaps. set_solver. }
    assert (Hl' : ∀ n ps, (n, ps) ∈ l → providerPairs _ o !! n = Some ps).
    { intros n ps Hin. apply Hl. set_solver. }
    assert (Hunavailable : ¬ provider_available float64 knownProvider w o name →
      ∀ b, (is_Some (req !! b) ∨
            ∃ name0 pairs0 currencyPair,
              (name0, pairs0) ∈ l ∧ provider_available float64 knownProvider w o name0 ∧
              currencyPair ∈ pairs0 ∧ Base currencyPair = b ∧
              whitelisted float64 o (Whitelist p) b) ↔
           (is_Some (req !! b) ∨
            ∃ name0 pairs0 currencyPair,
              (name0, pairs0) ∈ (name, pairs) :: l ∧
              provider_available float64 knownProvider w o name0 ∧
              currencyPair ∈ pairs0 ∧ Base currencyPair = b ∧
              whitelisted float64 o (Whitelist p) b)).
    { intros Hna b. split.
      - intros [H|(n & ps & c & Hin & H)]; [auto|]. right. exists n, ps, c.
        split; [set_solver|done].
      - intros [H|(n & ps & c & Hin & Hav & H)]; [auto|].
        apply elem_of_cons in Hin as [[= -> ->]|Hin]; [done|]. right. eauto 10. }
    assert (Havailable : ∀ req1 : gmap string unit, provider_available float64 knownProvider w o name →
      (∀ b, is_Some (req1 !! b) ↔
            is_Some (req !! b) ∨
            ∃ currencyPair, currencyPair ∈ pairs ∧ Base currencyPair = b ∧
              whitelisted float64 o (Whitelist p) b) →
      ∀ b, (is_Some (req1 !! b) ∨
            ∃ name0 pairs0 currencyPair,
              (name0, pairs0) ∈ l ∧ provider_available float64 knownProvider w o name0 ∧
              currencyPair ∈ pairs0 ∧ Base currencyPair = b ∧
              whitelisted float64 o (Whitelist p) b) ↔
           (is_Some (req !! b) ∨
            ∃ name0 pairs0 currencyPair,
              (name0, pairs0) ∈ (name, pairs) :: l ∧
              provider_available float64 knownProvider w o name0 ∧
              currencyPair ∈ pairs0 ∧ Base currencyPair = b ∧
              whitelisted float64 o (Whitelist p) b)).
    { intros req1 Hav Hreq1 b. rewrite Hreq1. split.
      - intros [[H|(c & Hc & H)]|(n & ps & c & Hin & H)]; [auto| |].
        + right. exists name, pairs, c. split; [set_solver|done].
        + right. exists n, ps, c. split; [set_solver|done].
      - intros [H|(n & ps & c & Hin & Hav' & Hc & H)]; [auto|].
        apply elem_of_cons in Hin as [[= -> ->]|Hin]; [left; right; eauto|].
        right. eauto 10. }
    assert (Hwl : ∀ o1, chainDenomMapping _ o1 = chainDenomMapping _ o →
              ∀ b, whitelisted float64 o1 (Whitelist p) b ↔ whitelisted float64 o (Whitelist p) b).
    { intros o1 Ho1 b. unfold whitelisted. by rewrite Ho1. }
    destruct (failedProviders _ o !! name) as [err|] eqn:Hfo.
    { (* failed before *)
      cbv beta iota. cbn [mret M_ret]. cbv beta iota.
      destruct (IH Hnd Hl' req tasks oi tr) as (req' & tasks' & s' & -> & Hcfg' & Hreq');
        [done | intros n Hn; apply Hmaps; set_solver |].
      exists req', tasks', s'. split; [done|]. split; [done|].
      intros b. rewrite Hreq'. apply Hunavailable. intros [Hnone _]. congruence. }
    destruct (priceProviders _ o !! name) as [a|] eqn:Hpo.
    { (* cached *)
      cbv beta iota. rewrite run_bind. cbn [fst].
      destruct (SetPrices_required_loop pairs req oi tr p ltac:(by rewrite Hpc))
        as (req1 & -> & Hreq1).
      cbv beta iota. cbn [mret M_ret]. cbv beta iota. cbn [snd].
      destruct (IH Hnd Hl' req1
                  (tasks ++ [{| taskProviderName := name; taskCurrencyPairs := pairs;
                                taskPriceProvider := a |}]) oi tr)
        as (req' & tasks' & s' & -> & Hcfg' & Hreq');
        [done | intros n Hn; apply Hmaps; set_solver |].
      exists req', tasks', s'. split; [done|]. split; [done|].
      intros b. rewrite Hreq'. apply Havailable.
      - split; [done|]. left. rewrite Hpo. eauto.
      - intros b'. rewrite Hreq1. by setoid_rewrite (Hwl oi Hcdm). }
    rewrite (Hl name pairs ltac:(set_solver)).
    destruct (NewProvider knownProvider w name _ _) as [a|err] eqn:Hnew.
    { (* created now *)
      cbv beta iota. rewrite run_bind. cbn [fst].
      set (o1 := set_priceProviders _ (<[name := a]> (priceProviders _ oi)) oi).
      destruct (SetPrices_required_loop pairs req o1 (tr ++ [EvNewProvider name]) p
                  ltac:(unfold o1; cbn; by rewrite Hpc))
        as (req1 & -> & Hreq1).
      cbv beta iota. cbn [mret M_ret]. cbv beta iota. cbn [snd].
      destruct (IH Hnd Hl' req1
                  (tasks ++ [{| taskProviderName := name; taskCurrencyPairs := pairs;
                                taskPriceProvider := a |}]) o1 (tr ++ [EvNewProvider name]))
        as (req' & tasks' & s' & -> & Hcfg' & Hreq').
      { done. }
      { apply Hrest; [done|]. intros n Hn. cbn. by rewrite lookup_insert_ne. }
      exists req', tasks', s'. split; [done|]. split; [done|].
      intros b. rewrite Hreq'. apply Havailable.
      - split; [done|]. right. exists a.
        by rewrite (Hl name pairs ltac:(set_solver)).
      - intros b'. rewrite Hreq1. by setoid_rewrite (Hwl o1 Hcdm). }
    { (* creation fails *)
      cbv beta iota. cbn [mret M_ret]. cbv beta iota.
      set (o1 := set_failedProviders _ (<[name := err]> (failedProviders _ oi)) oi).
      destruct (IH Hnd Hl' req tasks o1 (tr ++ [EvNewProvider name]))
        as (req' & tasks' & s' & -> & Hcfg' & Hreq').
      { done. }
      { apply Hrest; [done|]. intros n Hn. cbn. by rewrite lookup_insert_ne. }
      exists req', tasks', s'. split; [done|]. split; [done|].
      intros b. rewrite Hreq'. apply Hunavailable.
      intros [_ [[? Hs]|[a Ha]]]; [congruence|].
      rewrite (Hl name pairs ltac:(set_solver)) in Ha. congruence. }
Qed.

Lemma SetPrices_spawn_spec (w : World) (o : Oracle float64) (tr : list event) (p : Params) :
  params (paramCache _ o) = Some p →
  ∃ requiredRates tasks s1,
    SetPrices_spawn range float64 knownProvider w (o, tr)
      = (Ok (requiredRates, tasks), s1) ∧
    same_configuration float64 o s1.1 ∧
    ∀ base, is_Some (requiredRates !! base) ↔
            required_rate float64 knownProvider w o (Whitelist p) base.
Proof.
  intros Hp. unfold SetPrices_spawn. rewrite run_bind, run_get.
  destruct (SetPrices_provider_loop w o p (range _ (providerPairs _ o)) Hp
              (NoDup_range range range_perm _)
              (λ name pairs, proj1 (elem_of_range range range_perm _ name pairs))
              ∅ [] o tr) as (req & tasks & s1 & Hloop & Hcfg & Hreq); [done|done|].
  exists req, tasks, s1. split; [done|]. split; [done|].
  intros b. rewrite Hreq, lookup_empty. unfold required_rate. split.
  - intros [[? H]|(n & ps & c & Hin & H)]; [done|].
    exists n, ps, c. split; [by apply (elem_of_range range range_perm)|done].
  - intros (n & ps & c & Hin & H). right. exists n, ps, c.
    split; [by apply (elem_of_range range range_perm)|done].
Qed.

Lemma SetPrices_missing_None (computedPrices : gmap string Z) (req : gmap string unit) :
  SetPrices_missing computedPrices (range _ req) = None ↔
  ∀ base, is_Some (req !! base) → is_Some (computedPrices !! base).
Proof.
  unfold SetPrices_missing. split.
  - intros Hnone base [[] Hb].
    destruct (List.find _ _) eqn:Hfind; [discriminate|].
    apply (elem_of_range range range_perm), list_elem_of_In in Hb.
    pose proof (List.find_none _ _ Hfind _ Hb) as Hf. cbn in Hf.
    apply bool_decide_eq_false in Hf. by destruct (computedPrices !! base); eauto.
  - intros Hall. destruct (List.find _ _) as [[b []]|] eqn:Hfind; [|done].
    apply List.find_some in Hfind as [Hin Hf]. cbn in Hf. apply bool_decide_eq_true in Hf.
    apply list_elem_of_In, (elem_of_range range range_perm) in Hin.
    destruct (Hall b ltac:(eauto)) as [? ?]. congruence.
Qed.

(** Claim C2 (as amended).  With the oracle parameters cached and no mock
    installed, the required rates that SetPrices collects are the bases
    of the pairs of those providers whose adapter getOrSetProvider hands
    out (a provider that failed to initialise is skipped with its pairs)
    and whose chain denom is in the whitelist.  When GetComputedPrices
    panics or returns an error, SetPrices passes that on; otherwise it
    returns an error if and only if a required base has no computed
    price.  On every error, and on a panic, the stored prices are what
    they were; without one they are the computed prices. *)
Theorem SetPrices_required_rates (w : World) (o : Oracle float64) (tr : list event)
    (p : Params) :
  mockSetPrices _ o = None → params (paramCache _ o) = Some p →
  ∃ requiredRates tasks s1,
    SetPrices_spawn range float64 knownProvider w (o, tr)
      = (Ok (requiredRates, tasks), s1) ∧
    (∀ base, is_Some (requiredRates !! base) ↔
             required_rate float64 knownProvider w o (Whitelist p) base) ∧
    let agg := SetPrices_aggregate w tasks in
    let rs := SetPrices range float64 mockNow knownProvider convertCandlesToUSD
                FilterCandleDeviations convertTickersToUSD FilterTickerDeviations
                w (o, tr) in
    match GetComputedPrices range mockNow convertCandlesToUSD FilterCandleDeviations
            convertTickersToUSD FilterTickerDeviations w agg.2 agg.1
            (providerPairs _ o) (deviations _ o) requiredRates with
    | Panicked pn => rs.1 = Panicked pn ∧ prices _ rs.2.1 = prices _ o
    | Ok (_, Some err) => rs.1 = Ok (Some err) ∧ prices _ rs.2.1 = prices _ o
    | Ok (computedPrices, None) =>
        ((∃ err, rs.1 = Ok (Some err)) ↔
         (∃ base, is_Some (requiredRates !! base) ∧ computedPrices !! base = None)) ∧
        ((∃ err, rs.1 = Ok (Some err)) → prices _ rs.2.1 = prices _ o) ∧
        ((∀ err, rs.1 ≠ Ok (Some err)) →
           rs.1 = Ok None ∧ prices _ rs.2.1 = computedPrices)
    end.
Proof.
  intros Hmock Hp.
  destruct (SetPrices_spawn_spec w o tr p Hp)
    as (req & tasks & [o1 tr1] & Hspawn & Hcfg & Hreq).
  exists req, tasks, (o1, tr1). split; [done|]. split; [done|].
  cbn zeta. unfold SetPrices. rewrite run_bind, run_get, Hmock, run_bind, Hspawn.
  cbv beta iota. destruct (SetPrices_aggregate w tasks) as [pp pc]. cbn [fst snd].
  rewrite run_bind, run_get, run_bind.
  destruct Hcfg as (Hpp & _ & _ & Hdev & _ & Hpr). cbn [fst] in Hpp, Hdev, Hpr.
  rewrite Hpp, Hdev.
  replace (lift float64
             (GetComputedPrices range mockNow convertCandlesToUSD FilterCandleDeviations
                convertTickersToUSD FilterTickerDeviations w pc pp
                (providerPairs float64 o) (deviations float64 o) req) (o1, tr1))
    with (GetComputedPrices range mockNow convertCandlesToUSD FilterCandleDeviations
            convertTickersToUSD FilterTickerDeviations w pc pp
            (providerPairs float64 o) (deviations float64 o) req, (o1, tr1))
    by reflexivity.
  destruct (GetComputedPrices _ _ _ _ _ _ w pc pp _ _ req) as [[computed [err|]]|pn];
    cbv beta iota; cbn [fst snd mret M_ret]; [done| |done].
  destruct (SetPrices_missing computed (range _ req)) as [base|] eqn:Hmiss.
  - cbn [fst snd mret M_ret]. split; [|split].
    + split; [intros _|intros _; eexists; reflexivity].
      unfold SetPrices_missing in Hmiss.
      destruct (List.find _ _) as [[b []]|] eqn:Hfind; [|discriminate].
      apply List.find_some in Hfind as [Hin Hf]. cbn in Hf.
      apply bool_decide_eq_true in Hf.
      apply list_elem_of_In, (elem_of_range range range_perm) in Hin. eauto.
    + done.
    + intros Hno. by destruct (Hno _ eq_refl).
  - rewrite run_bind, run_modify. cbn [fst snd mret M_ret].
    pose proof (proj1 (SetPrices_missing_None computed req) Hmiss) as Hall.
    split; [|split].
    + split; [by intros [? [=]]|]. intros (b & Hb & Hnone).
      destruct (Hall b Hb) as [? ?]. congruence.
    + by intros [? [=]].
    + done.
Qed.
End SetPricesProperties.

(** ** The healthcheck ping *)

Section HealthchecksProperties.
Context (range : ∀ V : Type, gmap string V → list (string * V)).
Context (range_perm : ∀ (V : Type) (m : gmap string V), range V m ≡ₚ map_to_list m).
Context (float64 : Type).

Lemma forM_panics {S A : Type} (f : S → A → M float64 S) (p : panic)
    (l : list A) (s0 : S) (st : Oracle float64 * list event) :
  (∀ s a st, a ∈ l → (∃ s', (f s a st).1 = Ok s') ∨ (f s a st).1 = Panicked p) →
  (∃ a, a ∈ l ∧ ∀ s st, (f s a st).1 = Panicked p) →
  (forM float64 f l s0 st).1 = Panicked p.
Proof.
  revert s0 st. induction l as [|a l IH]; intros s0 st Hstep (a0 & Ha0 & Hp); [set_solver|].
  cbn [forM]. rewrite run_bind.
  destruct (f s0 a st) as [[s1|p'] st1] eqn:E.
  - apply elem_of_cons in Ha0 as [->|Ha0].
    + specialize (Hp s0 st). rewrite E in Hp. discriminate.
    + apply IH; [intros; apply Hstep; set_solver | eauto].
  - destruct (Hstep s0 a st ltac:(set_solver)) as [[s1 Hf]|Hf];
      rewrite E in Hf; cbn in Hf; [discriminate|]. by injection Hf as ->.
Qed.

(** A request that fails and brings no response makes healthchecksPing
    panic. *)
Lemma healthchecksPing_failed_request_panics (w : World)
    (s : Oracle float64 * list event) :
  (∃ url timeout err, healthchecks _ s.1 !! url = Some timeout ∧
                      httpGet w url = inr (None, err)) →
  (healthchecksPing range float64 w s).1 = Panicked NilDereference.
Proof.
  destruct s as [o tr]. intros (url & timeout & err & Hurl & Hget).
  unfold healthchecksPing. rewrite run_bind, run_get.
  apply forM_panics.
  - intros [] [u t] [o' tr'] _. unfold healthchecksPing_url.
    rewrite run_bind, run_emit. cbn [fst].
    destruct (httpGet w u) as [|[[|] ?]]; cbn; eauto.
  - exists (url, timeout). split; [by apply (elem_of_range range range_perm)|].
    intros [] [o' tr']. unfold healthchecksPing_url.
    rewrite run_bind, run_emit. cbn [fst]. by rewrite Hget.
Qed.
End HealthchecksProperties.

(** ** The scenarios *)

Lemma range_fixed_perm (V : Type) (m : gmap string V) : range_fixed V m ≡ₚ map_to_list m.
Proof. reflexivity. Qed.

Example example_tick_votes :
  (example_tick example_world 9 (example_oracle, [])).1 = Ok None ∧
  previousVotePeriod _ (example_tick example_world 9 (example_oracle, [])).2.1 = 1 ∧
  prices _ (example_tick example_world 9 (example_oracle, [])).2.1 = {["ATOM" := 10 * 10 ^ 18]} ∧
  (example_tick example_world 9 (example_oracle, [])).2.2 =
    [EvNewProvider "kraken"; EvNewProvider "binance"; EvBroadcastTx example_vote true;
     EvHTTPGet example_healthcheck_url].
Proof. vm_compute. repeat split; reflexivity. Qed.

(** Claim C4 (the code departs from it).  With one healthcheck URL
    configured and a GET that fails without a response, healthchecksPing
    does not return: after the request it closes the body of the nil
    response and panics.  The tick that had broadcast its vote
    successfully panics with it. *)
Theorem healthchecksPing_panics_when_request_fails :
  healthchecksPing range_fixed Z example_world_healthcheck_down (example_oracle, [])
    = (Panicked NilDereference, (example_oracle, [EvHTTPGet example_healthcheck_url])) ∧
  (example_tick example_world_healthcheck_down 9 (example_oracle, [])).1
    = Panicked NilDereference ∧
  (example_tick example_world_healthcheck_down 9 (example_oracle, [])).2.2 =
    [EvNewProvider "kraken"; EvNewProvider "binance"; EvBroadcastTx example_vote true;
     EvHTTPGet example_healthcheck_url].
Proof. vm_compute. repeat split; reflexivity. Qed.

Lemma SetPrices_required_rates_counterexample :
  required_rate_as_specified Z example_oracle_with_params (Whitelist example_params) "KII" ∧
  (∃ tasks s1,
     SetPrices_spawn range_fixed Z example_knownProvider example_world
       (example_oracle_with_params, [])
     = (Ok ({["ATOM" := ()]}, tasks), s1)) ∧
  (example_SetPrices example_world (example_oracle_with_params, [])).1 = Ok None ∧
  prices _ (example_SetPrices example_world (example_oracle_with_params, [])).2.1
    = {["ATOM" := 10 * 10 ^ 18]}.
Proof.
  split; [|split; [|split]].
  - split; [|reflexivity].
    exists "kraken", [{| Base := "KII"; Quote := "USDT" |}], {| Base := "KII"; Quote := "USDT" |}.
    split; [reflexivity|]. split; [apply list_elem_of_singleton; reflexivity|reflexivity].
  - eexists _, _. vm_compute. reflexivity.
  - vm_compute. reflexivity.
  - vm_compute. reflexivity.
Qed.

Lemma SetPrices_required_rates_witness :
  ∃ requiredRates tasks s1,
    SetPrices_spawn range_fixed Z example_knownProvider example_world
      (example_oracle_with_params, [])
      = (Ok (requiredRates, tasks), s1) ∧
    (∀ base, is_Some (requiredRates !! base) ↔
             required_rate Z example_knownProvider example_world
               example_oracle_with_params (Whitelist example_params) base) ∧
    let agg := SetPrices_aggregate example_world tasks in
    let rs := example_SetPrices example_world (example_oracle_with_params, []) in
    match GetComputedPrices range_fixed 0 example_convertCandlesToUSD
            example_FilterCandleDeviations example_convertTickersToUSD
            example_FilterTickerDeviations example_world agg.2 agg.1
            (providerPairs _ example_oracle_with_params)
            (deviations _ example_oracle_with_params) requiredRates with
    | Panicked pn =>
        rs.1 = Panicked pn ∧ prices _ rs.2.1 = prices _ example_oracle_with_params
    | Ok (_, Some err) =>
        rs.1 = Ok (Some err) ∧ prices _ rs.2.1 = prices _ example_oracle_with_params
    | Ok (computedPrices, None) =>
        ((∃ err, rs.1 = Ok (Some err)) ↔
         (∃ base, is_Some (requiredRates !! base) ∧ computedPrices !! base = None)) ∧
        ((∃ err, rs.1 = Ok (Some err)) →
           prices _ rs.2.1 = prices _ example_oracle_with_params) ∧
        ((∀ err, rs.1 ≠ Ok (Some err)) →
           rs.1 = Ok None ∧ prices _ rs.2.1 = computedPrices)
    end.
Proof.
  apply (SetPrices_required_rates range_fixed range_fixed_perm Z 0 example_knownProvider
           example_convertCandlesToUSD example_FilterCandleDeviations
           example_convertTickersToUSD example_FilterTickerDeviations
           example_world example_oracle_with_params [] example_params);
    reflexivity.
Defined.


Lemma getOrSetProvider_creates_at_most_once_witness :
  (creations "kraken"
     (getOrSetProvider_run Z example_knownProvider
        [(example_world, "kraken"); (example_world, "binance"); (example_world, "kraken")]
        (example_oracle, [])).2 ≤ 1)%nat ∧
  getOrSetProvider Z example_knownProvider example_world "binance"
    (getOrSetProvider_run Z example_knownProvider [(example_world, "kraken")]
       (getOrSetProvider Z example_knownProvider example_world "binance"
          (example_oracle, [])).2)
  = (Ok (inl example_provider),
     getOrSetProvider_run Z example_knownProvider [(example_world, "kraken")]
       (getOrSetProvider Z example_knownProvider example_world "binance"
          (example_oracle, [])).2) ∧
  ∃ err',
    getOrSetProvider Z example_knownProvider example_world "ftx"
      (getOrSetProvider_run Z example_knownProvider [(example_world, "kraken")]
         (getOrSetProvider Z example_knownProvider example_world "ftx"
            (example_oracle, [])).2)
    = (Ok (inr err'),
       getOrSetProvider_run Z example_knownProvider [(example_world, "kraken")]
         (getOrSetProvider Z example_knownProvider example_world "ftx"
            (example_oracle, [])).2).
Proof.
  split; [|split].
  - apply (proj1 (getOrSetProvider_creates_at_most_once Z example_knownProvider));
      reflexivity.
  - apply (proj1 (proj2 (getOrSetProvider_creates_at_most_once Z example_knownProvider))
             example_world "binance" (example_oracle, [])).
    reflexivity.
  - apply (proj2 (proj2 (getOrSetProvider_creates_at_most_once Z example_knownProvider))
             example_world "ftx" (example_oracle, []) _ "provider ftx not found").
    reflexivity.
Defined.






Example StandardDeviation_three_prices :
  StandardDeviation range_fixed example_ApproxSqrt scenario_three_prices =
    Ok ({["ATOM" := 18832654855035412369]}, {["ATOM" := 23366666666666666666]}, None).
Proof. vm_compute. reflexivity. Qed.

(** * Further properties of the code *)

Section VWAPTotal.
Context (range : ∀ V : Type, gmap string V → list (string * V)).
Context (range_perm : ∀ (V : Type) (m : gmap string V), range V m ≡ₚ map_to_list m).





End VWAPTotal.




Lemma bump_lookup (b k : string) (x : Z) (m : gmap string Z) :
  bump b x m !! k = if decide (b = k) then Some (entry m k + x) else m !! k.
Proof.
  unfold bump. destruct (decide (b = k)) as [->|Hne].
  - by rewrite lookup_insert_eq.
  - by rewrite lookup_insert_ne.
Qed.


Lemma bump_zero_if_absent (b : string) (x : Z) (m : gmap string Z) :
  bump b x (zero_if_absent m b) = bump b x m.
Proof.
  apply map_eq. intros k. rewrite !bump_lookup. case_decide as Hk.
  - subst k. unfold entry at 1. rewrite zero_if_absent_lookup, decide_True by done. done.
  - by rewrite zero_if_absent_lookup, decide_False.
Qed.











Section TVWAPOrder.
Context (range : ∀ V : Type, gmap string V → list (string * V)).
Context (range_perm : ∀ (V : Type) (m : gmap string V), range V m ≡ₚ map_to_list m).



End TVWAPOrder.











Section StandardDeviationOutcome.
Context (range : ∀ V : Type, gmap string V → list (string * V)).
Context (range_perm : ∀ (V : Type) (m : gmap string V), range V m ≡ₚ map_to_list m).
Context (ApproxSqrt : Z → Z * option error).


End StandardDeviationOutcome.

Section StandardDeviationExtra.
Context (range : ∀ V : Type, gmap string V → list (string * V)).
Context (range_perm : ∀ (V : Type) (m : gmap string V), range V m ≡ₚ map_to_list m).
Context (ApproxSqrt : Z → Z * option error).


End StandardDeviationExtra.


Lemma add_provider_pair_fold (cp : CurrencyPair) (provs : list string)
    (pp : gmap string (list CurrencyPair)) (q : string) :
  (is_Some (foldl (add_provider_pair cp) pp provs !! q) ↔ is_Some (pp !! q) ∨ q ∈ provs) ∧
  (∀ x, x ∈ default [] (foldl (add_provider_pair cp) pp provs !! q) ↔
        x ∈ default [] (pp !! q) ∨ (q ∈ provs ∧ x = cp)).
Proof.
  revert pp. induction provs as [|p provs IH]; intros pp.
  - cbn. split; [set_solver|]. intros x. set_solver.
  - cbn [foldl]. destruct (IH (add_provider_pair cp pp p)) as [IH1 IH2]. split.
    + rewrite IH1. unfold add_provider_pair. destruct (decide (p = q)) as [->|Hne].
      * rewrite lookup_insert_eq. split; [set_solver|]. intros _. left. by eexists.
      * rewrite lookup_insert_ne by done. set_solver.
    + intros x. rewrite IH2. unfold add_provider_pair.
      destruct (decide (p = q)) as [->|Hne].
      * rewrite lookup_insert_eq. cbn. rewrite elem_of_app, list_elem_of_singleton.
        set_solver.
      * rewrite lookup_insert_ne by done. set_solver.
Qed.

Lemma createMappingsFromPairs_snoc (l : list config_CurrencyPair) (pair : config_CurrencyPair) :
  createMappingsFromPairs (l ++ [pair]) =
    (<[cfgBase pair := cfgChainDenom pair]> (createMappingsFromPairs l).1,
     foldl (add_provider_pair (types_CurrencyPair pair)) (createMappingsFromPairs l).2
       (cfgProviders pair)).
Proof. unfold createMappingsFromPairs. by rewrite foldl_app. Qed.

Lemma createMappingsFromPairs_spec (currencyPairs : list config_CurrencyPair) :
  let r := createMappingsFromPairs currencyPairs in
  (∀ q, is_Some (r.2 !! q) ↔ ∃ pair, pair ∈ currencyPairs ∧ q ∈ cfgProviders pair) ∧
  (∀ q x, x ∈ default [] (r.2 !! q) ↔
          ∃ pair, pair ∈ currencyPairs ∧ q ∈ cfgProviders pair ∧ x = types_CurrencyPair pair) ∧
  (∀ b, r.1 !! b =
        cfgChainDenom <$> last (filter (λ pair, cfgBase pair = b) currencyPairs)).
Proof.
  induction currencyPairs as [|pair l IH] using rev_ind.
  - cbn. split; [|split].
    + intros q. rewrite lookup_empty. split; [by intros [? ?]|]. intros (? & H & _).
      inversion H.
    + intros q x. rewrite lookup_empty. cbn. split; [intros H; inversion H|].
      intros (? & H & _). inversion H.
    + intros b. by rewrite lookup_empty.
  - cbn zeta in *. destruct IH as (IH1 & IH2 & IH3).
    rewrite createMappingsFromPairs_snoc. cbn [fst snd].
    split; [|split].
    + intros q.
      rewrite (proj1 (add_provider_pair_fold _ _ _ q)), IH1.
      setoid_rewrite elem_of_app. setoid_rewrite list_elem_of_singleton.
      split.
      * intros [(pr & ? & ?)|?]; eauto.
      * intros (pr & [?| ->] & ?); eauto.
    + intros q x.
      rewrite (proj2 (add_provider_pair_fold _ _ _ q)), IH2.
      setoid_rewrite elem_of_app. setoid_rewrite list_elem_of_singleton.
      split.
      * intros [(pr & ? & ? & ?)|[? ?]]; eauto 6.
      * intros (pr & [?| ->] & ? & ?); eauto 6.
    + intros b. rewrite filter_app, filter_cons, filter_nil.
      destruct (decide (cfgBase pair = b)) as [<-|Hne].
      * rewrite lookup_insert_eq, last_snoc. done.
      * rewrite lookup_insert_ne, app_nil_r by done. apply IH3.
Qed.

(** X5.  createMappingsFromPairs gives a provider an entry exactly when a
    configured pair names it, and that entry is never the empty list: it
    holds the base and quote of exactly the configured pairs that name
    the provider.  Every base of such a pair has a chain denom, and the
    chain denom of a base is the one of the last configured pair with
    that base. *)
Theorem createMappingsFromPairs_lookup (currencyPairs : list config_CurrencyPair) :
  let chainDenomMapping := (createMappingsFromPairs currencyPairs).1 in
  let providerPairs := (createMappingsFromPairs currencyPairs).2 in
  (∀ provider,
     is_Some (providerPairs !! provider) ↔
     ∃ pair, pair ∈ currencyPairs ∧ provider ∈ cfgProviders pair) ∧
  (∀ provider pairs,
     providerPairs !! provider = Some pairs →
     pairs ≠ [] ∧
     (∀ x, x ∈ pairs ↔
           ∃ pair, pair ∈ currencyPairs ∧ provider ∈ cfgProviders pair ∧
                   x = {| Base := cfgBase pair; Quote := cfgQuote pair |}) ∧
     (∀ x, x ∈ pairs → is_Some (chainDenomMapping !! Base x))) ∧
  (∀ base,
     chainDenomMapping !! base =
       cfgChainDenom <$> last (filter (λ pair, cfgBase pair = base) currencyPairs)).
Proof.
  cbn zeta. destruct (createMappingsFromPairs_spec currencyPairs) as (H1 & H2 & H3).
  cbn zeta in *. split; [done|]. split; [|done].
  intros q pairs Hq.
  assert (Hmem : ∀ x, x ∈ pairs ↔
            ∃ pair, pair ∈ currencyPairs ∧ q ∈ cfgProviders pair ∧
                    x = types_CurrencyPair pair).
  { intros x. rewrite <- H2, Hq. done. }
  split; [|split; [done|]].
  - destruct (proj1 (H1 q) ltac:(by eexists)) as (pair & Hin & Hprov).
    intros ->. assert (Hx : types_CurrencyPair pair ∈ []) by (apply Hmem; eauto).
    inversion Hx.
  - intros x Hx. apply Hmem in Hx as (pair & Hin & _ & ->). rewrite H3. cbn.
    assert (Hf : pair ∈ filter (λ pair0, cfgBase pair0 = cfgBase pair) currencyPairs).
    { apply list_elem_of_filter. done. }
    destruct (filter _ currencyPairs) as [|y l] using rev_ind; [inversion Hf|].
    rewrite last_snoc. by eexists.
Qed.

Lemma SetProviderTickerPricesAndCandles_spec (providerName : string)
    (providerPrices : gmap string (gmap string TickerPrice))
    (providerCandles : gmap string (gmap string (list CandlePrice)))
    (prices : gmap string TickerPrice) (candles : gmap string (list CandlePrice))
    (currencyPair : CurrencyPair) :
  let r := SetProviderTickerPricesAndCandles providerName providerPrices
             providerCandles prices candles currencyPair in
  let key := CurrencyPair_String currencyPair in
  (r.2 = false ↔ prices !! key = None ∧ candles !! key = None) ∧
  (∀ p b,
     aggregate_lookup r.1.1 p b =
       if decide (p = providerName ∧ b = Base currencyPair)
       then match prices !! key with
            | Some tp => Some tp
            | None => aggregate_lookup providerPrices p b
            end
       else aggregate_lookup providerPrices p b) ∧
  (∀ p b,
     aggregate_lookup r.1.2 p b =
       if decide (p = providerName ∧ b = Base currencyPair)
       then match candles !! key with
            | Some cp => Some cp
            | None => aggregate_lookup providerCandles p b
            end
       else aggregate_lookup providerCandles p b) ∧
  (∀ p, is_Some (r.1.1 !! p) ↔ p = providerName ∨ is_Some (providerPrices !! p)) ∧
  (∀ p, is_Some (r.1.2 !! p) ↔ p = providerName ∨ is_Some (providerCandles !! p)).
Proof.
  cbn zeta. unfold SetProviderTickerPricesAndCandles. cbn [fst snd].
  assert (Hgen : ∀ (V : Type) (m : gmap string (gmap string V)) (v : option V) p b,
    aggregate_lookup (match v with
     | Some x =>
         <[providerName :=
             <[Base currencyPair := x]>
               (default ∅ (match m !! providerName with
                           | Some _ => m
                           | None => <[providerName := ∅]> m
                           end !! providerName))]>
           (match m !! providerName with
            | Some _ => m
            | None => <[providerName := ∅]> m
            end)
     | None => match m !! providerName with
               | Some _ => m
               | None => <[providerName := ∅]> m
               end
     end) p b =
    (if decide (p = providerName ∧ b = Base currencyPair)
     then match v with Some x => Some x | None => aggregate_lookup m p b end
     else aggregate_lookup m p b)).
  { intros V m v p b. unfold aggregate_lookup. destruct (decide (p = providerName)) as [->|Hp].
    - destruct v as [x|], (m !! providerName) as [inner|] eqn:Hm;
        rewrite ?lookup_insert_eq, ?Hm; cbn;
        destruct (decide (b = Base currencyPair)) as [->|Hb];
        rewrite ?decide_True by done;
        rewrite ?(decide_False (P := _ ∧ b = _)) by (intros [_ ?]; done);
        rewrite ?lookup_insert_eq, ?lookup_insert_ne by done; done.
    - rewrite decide_False by (intros [? _]; done).
      destruct v as [x|], (m !! providerName) as [inner|] eqn:Hm;
        rewrite ?lookup_insert_ne by done; done. }
  assert (Hkeys : ∀ (V : Type) (m : gmap string (gmap string V)) (v : option V) p,
    is_Some (match v with
     | Some x =>
         <[providerName :=
             <[Base currencyPair := x]>
               (default ∅ (match m !! providerName with
                           | Some _ => m
                           | None => <[providerName := ∅]> m
                           end !! providerName))]>
           (match m !! providerName with
            | Some _ => m
            | None => <[providerName := ∅]> m
            end)
     | None => match m !! providerName with
               | Some _ => m
               | None => <[providerName := ∅]> m
               end
     end !! p) ↔ p = providerName ∨ is_Some (m !! p)).
  { intros V m v p. destruct (decide (p = providerName)) as [->|Hp].
    - destruct v as [x|], (m !! providerName) as [inner|] eqn:Hm;
        rewrite ?lookup_insert_eq, ?Hm; split; eauto.
    - destruct v as [x|], (m !! providerName) as [inner|] eqn:Hm;
        rewrite ?lookup_insert_ne by done; split; eauto; by intros [?|?]. }
  split; [|split; [|split; [|split]]].
  - destruct (prices !! _), (candles !! _); cbn; split; try done;
      try (intros [? ?]; done);
      repeat (rewrite bool_decide_eq_true_2 by (by eexists));
      repeat (rewrite bool_decide_eq_false_2 by (by intros [? ?])); cbn; try done.
  - intros p b. apply Hgen.
  - intros p b. apply Hgen.
  - intros p. apply Hkeys.
  - intros p. apply Hkeys.
Qed.

(** X6.  SetProviderTickerPricesAndCandles reports a failure exactly when
    the provider returned neither a ticker nor candles for the pair.  It
    leaves every entry of the two aggregates as it was but the one of
    this provider and this base, which takes what the provider returned
    and stays as it was for what the provider did not return.  The
    provider has an entry in both aggregates afterwards, also after a
    failure. *)
Theorem SetProviderTickerPricesAndCandles_lookup (providerName : string)
    (providerPrices : gmap string (gmap string TickerPrice))
    (providerCandles : gmap string (gmap string (list CandlePrice)))
    (prices : gmap string TickerPrice) (candles : gmap string (list CandlePrice))
    (currencyPair : CurrencyPair) :
  let r := SetProviderTickerPricesAndCandles providerName providerPrices
             providerCandles prices candles currencyPair in
  let key := CurrencyPair_String currencyPair in
  (r.2 = false ↔ prices !! key = None ∧ candles !! key = None) ∧
  (∀ p b,
     aggregate_lookup r.1.1 p b =
       if decide (p = providerName ∧ b = Base currencyPair)
       then match prices !! key with
            | Some tp => Some tp
            | None => aggregate_lookup providerPrices p b
            end
       else aggregate_lookup providerPrices p b) ∧
  (∀ p b,
     aggregate_lookup r.1.2 p b =
       if decide (p = providerName ∧ b = Base currencyPair)
       then match candles !! key with
            | Some cp => Some cp
            | None => aggregate_lookup providerCandles p b
            end
       else aggregate_lookup providerCandles p b) ∧
  (∀ p, is_Some (r.1.1 !! p) ↔ p = providerName ∨ is_Some (providerPrices !! p)) ∧
  (∀ p, is_Some (r.1.2 !! p) ↔ p = providerName ∨ is_Some (providerCandles !! p)).
Proof.
  apply SetProviderTickerPricesAndCandles_spec.
Qed.

Lemma SetPrices_merge_app (providerName : string) (prices : gmap string TickerPrice)
    (candles : gmap string (list CandlePrice)) (l1 l2 : list CurrencyPair) agg :
  (∀ q, q ∈ l1 → is_Some (prices !! CurrencyPair_String q) ∨
                 is_Some (candles !! CurrencyPair_String q)) →
  SetPrices_merge providerName prices candles (l1 ++ l2) agg
  = SetPrices_merge providerName prices candles l2
      (SetPrices_merge providerName prices candles l1 agg).
Proof.
  revert agg. induction l1 as [|q l1 IH]; intros agg Hok; [done|].
  cbn [app SetPrices_merge].
  destruct (SetProviderTickerPricesAndCandles_spec providerName agg.1 agg.2 prices candles q)
    as (Hfail & _).
  cbn zeta in Hfail.
  destruct (SetProviderTickerPricesAndCandles providerName agg.1 agg.2 prices candles q)
    as [[pp pc] success]. cbn [snd] in Hfail.
  destruct success.
  - apply IH. intros q' Hq'. apply Hok. set_solver.
  - destruct (proj1 Hfail eq_refl) as [Hp Hc].
    destruct (Hok q ltac:(set_solver)) as [[? H]|[? H]]; congruence.
Qed.

Lemma SetPrices_merge_other_base (providerName : string) (prices : gmap string TickerPrice)
    (candles : gmap string (list CandlePrice)) (l : list CurrencyPair) agg p b :
  (∀ q, q ∈ l → p = providerName → Base q ≠ b) →
  aggregate_lookup (SetPrices_merge providerName prices candles l agg).1 p b
    = aggregate_lookup agg.1 p b ∧
  aggregate_lookup (SetPrices_merge providerName prices candles l agg).2 p b
    = aggregate_lookup agg.2 p b.
Proof.
  revert agg. induction l as [|q l IH]; intros agg Hb; [done|].
  cbn [SetPrices_merge].
  destruct (SetProviderTickerPricesAndCandles_spec providerName agg.1 agg.2 prices candles q)
    as (_ & H1 & H2 & _).
  cbn zeta in H1, H2. specialize (H1 p b). specialize (H2 p b).
  assert (Hn : ¬ (p = providerName ∧ b = Base q)).
  { intros [-> ->]. by apply (Hb q ltac:(set_solver) eq_refl). }
  rewrite (decide_False (P := p = providerName ∧ b = Base q)) in H1 by done.
  rewrite (decide_False (P := p = providerName ∧ b = Base q)) in H2 by done.
  destruct (SetProviderTickerPricesAndCandles providerName agg.1 agg.2 prices candles q)
    as [[pp pc] success]. cbn [fst snd] in H1, H2.
  destruct success.
  - destruct (IH (pp, pc)) as [IH1 IH2]; [intros q' Hq'; apply Hb; set_solver|].
    cbn [fst snd] in IH1, IH2. by rewrite IH1, IH2, H1, H2.
  - cbn [fst snd]. by rewrite H1, H2.
Qed.

(** X7.  The task of one provider stops at the first of its pairs for
    which the provider returned neither a ticker nor candles: the pairs
    that follow it are not collected, whatever the provider returned for
    them, so that a base that occurs only after the missing pair keeps the
    entry it had. *)
Theorem SetPrices_merge_stops_at_missing_pair (providerName : string)
    (prices : gmap string TickerPrice) (candles : gmap string (list CandlePrice))
    (before : list CurrencyPair) (missing : CurrencyPair) (after : list CurrencyPair)
    (agg : gmap string (gmap string TickerPrice)
           * gmap string (gmap string (list CandlePrice))) :
  (∀ q, q ∈ before → is_Some (prices !! CurrencyPair_String q) ∨
                     is_Some (candles !! CurrencyPair_String q)) →
  prices !! CurrencyPair_String missing = None →
  candles !! CurrencyPair_String missing = None →
  let r := SetPrices_merge providerName prices candles (before ++ missing :: after) agg in
  r = SetPrices_merge providerName prices candles (before ++ [missing]) agg ∧
  ∀ q, q ∈ after → (∀ q', q' ∈ before → Base q' ≠ Base q) → Base missing ≠ Base q →
       aggregate_lookup r.1 providerName (Base q)
         = aggregate_lookup agg.1 providerName (Base q) ∧
       aggregate_lookup r.2 providerName (Base q)
         = aggregate_lookup agg.2 providerName (Base q).
Proof.
  intros Hok Hp Hc. cbn zeta.
  assert (Hstop : ∀ l agg0,
    SetPrices_merge providerName prices candles (missing :: l) agg0
    = SetPrices_merge providerName prices candles [missing] agg0).
  { intros l agg0. cbn [SetPrices_merge].
    destruct (SetProviderTickerPricesAndCandles_spec providerName agg0.1 agg0.2
                prices candles missing) as (Hfail & _).
    cbn zeta in Hfail.
    destruct (SetProviderTickerPricesAndCandles providerName agg0.1 agg0.2
                prices candles missing) as [[pp pc] success]. cbn [snd] in Hfail.
    destruct success; [|done]. by pose proof (proj2 Hfail (conj Hp Hc)). }
  assert (Heq : SetPrices_merge providerName prices candles (before ++ missing :: after) agg
                = SetPrices_merge providerName prices candles (before ++ [missing]) agg).
  { rewrite !SetPrices_merge_app by done. apply Hstop. }
  split; [done|]. intros q Hq Hbefore Hmissing. rewrite Heq.
  apply SetPrices_merge_other_base. intros q' Hq' _.
  apply elem_of_app in Hq' as [Hq'|Hq']; [by apply Hbefore|].
  apply list_elem_of_singleton in Hq'. by subst q'.
Qed.

Lemma createMappingsFromPairs_lookup_witness :
  is_Some ((createMappingsFromPairs example_currencyPairs).2 !! "binance").
Proof.
  apply (proj1 (createMappingsFromPairs_lookup example_currencyPairs) "binance").
  exists {| cfgBase := "ATOM"; cfgChainDenom := "uatom"; cfgQuote := "USDT";
            cfgProviders := ["binance"] |}.
  split; left.
Defined.

Lemma SetProviderTickerPricesAndCandles_lookup_witness :
  (SetProviderTickerPricesAndCandles "binance" ∅ ∅ ∅ ∅
     {| Base := "ATOM"; Quote := "USDT" |}).2 = false.
Proof.
  apply (proj1 (SetProviderTickerPricesAndCandles_lookup "binance" ∅ ∅ ∅ ∅
                  {| Base := "ATOM"; Quote := "USDT" |})).
  split; reflexivity.
Defined.

Lemma SetPrices_merge_stops_at_missing_pair_witness :
  let prices : gmap string TickerPrice :=
    {["KIIUSDT" := {| tpPrice := 2 * 10 ^ 17; tpVolume := 10 ^ 18 |}]} in
  let agg : gmap string (gmap string TickerPrice)
            * gmap string (gmap string (list CandlePrice)) := (∅, ∅) in
  let r := SetPrices_merge "binance" prices ∅
             ([] ++ {| Base := "ATOM"; Quote := "USDT" |}
                 :: [{| Base := "KII"; Quote := "USDT" |}]) agg in
  r = SetPrices_merge "binance" prices ∅ ([] ++ [{| Base := "ATOM"; Quote := "USDT" |}]) agg ∧
  ∀ q, q ∈ [{| Base := "KII"; Quote := "USDT" |}] →
       (∀ q', q' ∈ [] → Base q' ≠ Base q) → "ATOM" ≠ Base q →
       aggregate_lookup r.1 "binance" (Base q) = aggregate_lookup agg.1 "binance" (Base q) ∧
       aggregate_lookup r.2 "binance" (Base q) = aggregate_lookup agg.2 "binance" (Base q).
Proof.
  intros prices agg.
  apply (SetPrices_merge_stops_at_missing_pair "binance" prices ∅ []
           {| Base := "ATOM"; Quote := "USDT" |} [{| Base := "KII"; Quote := "USDT" |}]
           agg).
  - intros q Hq. inversion Hq.
  - reflexivity.
  - reflexivity.
Defined.

Lemma DecCoins_AmountOf_cons (d : string) (c : DecCoin) (l : list DecCoin) :
  DecCoins_AmountOf d (c :: l) =
    (if decide (Denom c = d) then Amount c else 0) + DecCoins_AmountOf d l.
Proof. unfold DecCoins_AmountOf. cbn. by destruct (decide (Denom c = d)). Qed.

Lemma DecCoins_AmountOf_Add (d : string) (coins : list DecCoin) (c : DecCoin) :
  DecCoins_AmountOf d (DecCoins_Add coins c) =
    DecCoins_AmountOf d coins + (if decide (Denom c = d) then Amount c else 0).
Proof.
  induction coins as [|e coins IH]; cbn [DecCoins_Add].
  - destruct (Amount c =? 0) eqn:Hz; rewrite ?DecCoins_AmountOf_cons;
      [apply Z.eqb_eq in Hz|]; cbn; destruct (decide (Denom c = d)); lia.
  - destruct (String.compare (Denom c) (Denom e)) eqn:Hcmp.
    + apply String.compare_eq_iff in Hcmp. unfold Dec.Add.
      destruct (Amount e + Amount c =? 0) eqn:Hz; rewrite ?DecCoins_AmountOf_cons;
        [apply Z.eqb_eq in Hz|]; cbn [Denom Amount]; rewrite Hcmp;
        destruct (decide (Denom e = d)); lia.
    + destruct (Amount c =? 0) eqn:Hz; rewrite ?DecCoins_AmountOf_cons;
        [apply Z.eqb_eq in Hz|];
        destruct (decide (Denom c = d)), (decide (Denom e = d)); lia.
    + rewrite !DecCoins_AmountOf_cons, IH. lia.
Qed.

Lemma elem_of_DecCoins_Add (coins : list DecCoin) (c x : DecCoin) :
  x ∈ DecCoins_Add coins c → Denom x = Denom c ∨ x ∈ coins.
Proof.
  induction coins as [|e coins IH]; cbn [DecCoins_Add].
  - destruct (Amount c =? 0); [set_solver|]. intros Hx.
    apply list_elem_of_singleton in Hx. subst x. by left.
  - destruct (String.compare (Denom c) (Denom e)) eqn:Hcmp.
    + apply String.compare_eq_iff in Hcmp.
      destruct (_ =? 0); [set_solver|]. intros Hx.
      apply elem_of_cons in Hx as [->|Hx]; [left; by cbn|set_solver].
    + destruct (Amount c =? 0); [set_solver|]. intros Hx.
      apply elem_of_cons in Hx as [->|Hx]; [by left|set_solver].
    + intros Hx. apply elem_of_cons in Hx as [->|Hx]; [set_solver|].
      destruct (IH Hx); set_solver.
Qed.

Lemma DecCoins_Add_nonzero (coins : list DecCoin) (c : DecCoin) :
  (∀ x, x ∈ coins → Amount x ≠ 0) → ∀ x, x ∈ DecCoins_Add coins c → Amount x ≠ 0.
Proof.
  induction coins as [|e coins IH]; cbn [DecCoins_Add]; intros Hnz x.
  - destruct (Amount c =? 0) eqn:Hz; [set_solver|]. apply Z.eqb_neq in Hz.
    intros Hx. apply list_elem_of_singleton in Hx. by subst x.
  - destruct (String.compare (Denom c) (Denom e)) eqn:Hcmp.
    + unfold Dec.Add. destruct (_ =? 0) eqn:Hz; [intros; apply Hnz; set_solver|].
      apply Z.eqb_neq in Hz. intros Hx.
      apply elem_of_cons in Hx as [->|Hx]; [by cbn|apply Hnz; set_solver].
    + destruct (Amount c =? 0) eqn:Hz; [apply Hnz|]. apply Z.eqb_neq in Hz.
      intros Hx. apply elem_of_cons in Hx as [->|Hx]; [done|by apply Hnz].
    + intros Hx. apply elem_of_cons in Hx as [->|Hx]; [apply Hnz; set_solver|].
      apply IH; [|done]. intros y Hy. apply Hnz. set_solver.
Qed.

Lemma DecCoins_AmountOf_notin (d : string) (l : list DecCoin) :
  d ∉ Denom <$> l → DecCoins_AmountOf d l = 0.
Proof.
  induction l as [|c l IH]; [done|]. intros Hd. rewrite DecCoins_AmountOf_cons.
  rewrite decide_False by set_solver. rewrite IH by set_solver. done.
Qed.

Lemma DecCoins_AmountOf_elem (c : DecCoin) (l : list DecCoin) :
  NoDup (Denom <$> l) → c ∈ l → DecCoins_AmountOf (Denom c) l = Amount c.
Proof.
  induction l as [|e l IH]; intros Hnd Hc; [inversion Hc|].
  cbn [fmap list_fmap] in Hnd. apply NoDup_cons in Hnd as [He Hnd].
  rewrite DecCoins_AmountOf_cons. apply elem_of_cons in Hc as [->|Hc].
  - rewrite decide_True by done. rewrite DecCoins_AmountOf_notin by done. lia.
  - rewrite decide_False.
    + rewrite IH by done. lia.
    + intros Heq. apply He. rewrite Heq. apply list_elem_of_fmap. eauto.
Qed.

Lemma DecCoins_AmountOf_nonzero (d : string) (l : list DecCoin) :
  DecCoins_AmountOf d l ≠ 0 → ∃ c, c ∈ l ∧ Denom c = d.
Proof.
  intros Hnz. destruct (decide (d ∈ Denom <$> l)) as [Hin|Hn].
  - apply list_elem_of_fmap in Hin as (c & -> & Hc). eauto.
  - by rewrite DecCoins_AmountOf_notin in Hnz.
Qed.

(** Two sets of coins without zero amounts, each sorted by denom, that
    hold the same amount of every denom are the same list. *)
Lemma DecCoins_sorted_unique (l l' : list DecCoin) :
  StronglySorted denom_lt l → StronglySorted denom_lt l' →
  (∀ x, x ∈ l → Amount x ≠ 0) → (∀ x, x ∈ l' → Amount x ≠ 0) →
  (∀ d, DecCoins_AmountOf d l = DecCoins_AmountOf d l') →
  l = l'.
Proof.
  intros Hs Hs' Hnz Hnz' Heq.
  pose proof (denom_sorted_NoDup l Hs) as Hnd.
  pose proof (denom_sorted_NoDup l' Hs') as Hnd'.
  assert (Hsub : ∀ a b : list DecCoin, NoDup (Denom <$> a) → NoDup (Denom <$> b) →
            (∀ x, x ∈ a → Amount x ≠ 0) →
            (∀ d, DecCoins_AmountOf d a = DecCoins_AmountOf d b) →
            ∀ x, x ∈ a → x ∈ b).
  { intros a b Ha Hb Hza Hab x Hx.
    pose proof (DecCoins_AmountOf_elem x a Ha Hx) as Hax.
    rewrite Hab in Hax.
    destruct (DecCoins_AmountOf_nonzero (Denom x) b) as (y & Hy & Hd).
    { rewrite Hax. by apply Hza. }
    pose proof (DecCoins_AmountOf_elem y b Hb Hy) as Hby.
    rewrite Hd, Hax in Hby. destruct x, y. cbn in *. by subst. }
  apply (StronglySorted_unique denom_lt); [done|done|].
  apply NoDup_Permutation.
  - eapply NoDup_fmap_1. exact Hnd.
  - eapply NoDup_fmap_1. exact Hnd'.
  - intros x. split; [by apply Hsub|].
    apply Hsub; first [done | intros d; by rewrite Heq].
Qed.

Lemma filterPricesByDenomList_inner (c : DecCoin) (denomList : list DenomEntry)
    (result : list DecCoin) (d : string) :
  DecCoins_AmountOf d
    (foldl (λ result e,
              if String.eqb (Name e) (Denom c) then DecCoins_Add result c else result)
           result denomList)
  = DecCoins_AmountOf d result
    + (if decide (Denom c = d) then Amount c else 0) * DenomList_count (Denom c) denomList.
Proof.
  revert result. induction denomList as [|e es IH]; intros result.
  - unfold DenomList_count. rewrite filter_nil. cbn [foldl length]. lia.
  - cbn [foldl]. rewrite IH. unfold DenomList_count. rewrite filter_cons.
    destruct (String.eqb_spec (Name e) (Denom c)) as [Heq|Hne];
      destruct (decide (Name e = Denom c)) as [Hd|Hd]; try done.
    rewrite DecCoins_AmountOf_Add. cbn [length]. rewrite Nat2Z.inj_succ. ring.
Qed.

Lemma filterPricesByDenomList_AmountOf (coinPrices : list DecCoin)
    (denomList : list DenomEntry) (result : list DecCoin) (d : string) :
  DecCoins_AmountOf d
    (foldl (λ result c,
              foldl (λ result e,
                       if String.eqb (Name e) (Denom c) then DecCoins_Add result c
                       else result)
                    result denomList)
           result coinPrices)
  = DecCoins_AmountOf d result
    + DenomList_count d denomList * DecCoins_AmountOf d coinPrices.
Proof.
  revert result. induction coinPrices as [|c cs IH]; intros result.
  - cbn [foldl]. unfold DecCoins_AmountOf at 3. cbn [foldr]. lia.
  - cbn [foldl]. rewrite IH, filterPricesByDenomList_inner, DecCoins_AmountOf_cons.
    case_decide as Hd; [subst d|]; lia.
Qed.

Lemma filterPricesByDenomList_elem (coinPrices : list DecCoin)
    (denomList : list DenomEntry) (result : list DecCoin) (x : DecCoin) :
  x ∈ foldl (λ result c,
               foldl (λ result e,
                        if String.eqb (Name e) (Denom c) then DecCoins_Add result c
                        else result)
                     result denomList)
            result coinPrices →
  x ∈ result ∨
  (∃ c e, c ∈ coinPrices ∧ e ∈ denomList ∧ Denom c = Denom x ∧ Name e = Denom x).
Proof.
  revert result. induction coinPrices as [|c cs IH]; intros result; [by left|].
  cbn [foldl]. intros Hx. destruct (IH _ Hx) as [Hin|(c' & e & ? & ? & ? & ?)];
    [|right; exists c', e; set_solver].
  clear IH Hx.
  assert (Hinner : ∀ es res,
    x ∈ foldl (λ result e,
                 if String.eqb (Name e) (Denom c) then DecCoins_Add result c else result)
              res es →
    x ∈ res ∨ (∃ e, e ∈ es ∧ Denom c = Denom x ∧ Name e = Denom x)).
  { induction es as [|e es IHe]; intros res; [by left|]. cbn [foldl]. intros Hx.
    destruct (IHe _ Hx) as [Hres|(e' & ? & ? & ?)]; [|right; exists e'; set_solver].
    destruct (String.eqb_spec (Name e) (Denom c)) as [Heq|Hne]; [|by left].
    apply elem_of_DecCoins_Add in Hres as [Hd|Hres]; [|by left].
    right. exists e. split; [set_solver|]. split; congruence. }
  destruct (Hinner _ _ Hin) as [?|(e & ? & ? & ?)]; [by left|].
  right. exists c, e. set_solver.
Qed.

Lemma filterPricesByDenomList_nonzero (coinPrices : list DecCoin)
    (denomList : list DenomEntry) :
  ∀ x, x ∈ filterPricesByDenomList coinPrices denomList → Amount x ≠ 0.
Proof.
  unfold filterPricesByDenomList.
  assert (H : ∀ acc, (∀ x, x ∈ acc → Amount x ≠ 0) →
    ∀ x, x ∈ foldl (λ result c,
                      foldl (λ result e,
                               if String.eqb (Name e) (Denom c) then DecCoins_Add result c
                               else result) result denomList) acc coinPrices →
         Amount x ≠ 0).
  { induction coinPrices as [|c cs IH]; intros acc Hacc; [done|]. cbn [foldl]. apply IH.
    clear IH. revert acc Hacc. induction denomList as [|d ds IHd]; intros acc Hacc; [done|].
    cbn [foldl]. apply IHd. destruct (String.eqb (Name d) (Denom c)); [|done].
    by apply DecCoins_Add_nonzero. }
  apply H. intros x Hx. inversion Hx.
Qed.

(** X8.  filterPricesByDenomList lets no coin through whose denom the
    denom list does not name, and none with a zero amount.  Of each denom
    the result holds the amount that the input holds of it, times the
    number of entries of the denom list that name it: nothing of a denom
    that is not listed, the amount itself of a denom listed once, twice
    the amount of a denom listed twice.  The result does not depend on the
    order of the input coins nor on the order of the denom list. *)
Theorem filterPricesByDenomList_amounts (coinPrices : list DecCoin)
    (denomList : list DenomEntry) :
  let result := filterPricesByDenomList coinPrices denomList in
  (∀ c, c ∈ result →
        Amount c ≠ 0 ∧
        (∃ d, d ∈ denomList ∧ Name d = Denom c) ∧
        (∃ c0, c0 ∈ coinPrices ∧ Denom c0 = Denom c)) ∧
  (∀ denom,
     DecCoins_AmountOf denom result
       = DenomList_count denom denomList * DecCoins_AmountOf denom coinPrices) ∧
  (∀ coinPrices' denomList',
     coinPrices' ≡ₚ coinPrices → denomList' ≡ₚ denomList →
     filterPricesByDenomList coinPrices' denomList' = result).
Proof.
  cbn zeta. split; [|split].
  - intros c Hc. split; [by apply (filterPricesByDenomList_nonzero coinPrices denomList)|].
    apply filterPricesByDenomList_elem in Hc as [Hc|(c0 & e & ? & ? & ? & ?)];
      [inversion Hc|]. split; eauto.
  - intros d. unfold filterPricesByDenomList.
    rewrite filterPricesByDenomList_AmountOf. cbn. lia.
  - intros coinPrices' denomList' Hc Hd.
    apply DecCoins_sorted_unique;
      try apply filterPricesByDenomList_sorted;
      try apply filterPricesByDenomList_nonzero.
    intros d. unfold filterPricesByDenomList.
    rewrite !filterPricesByDenomList_AmountOf. cbn.
    assert (Hcount : DenomList_count d denomList' = DenomList_count d denomList).
    { unfold DenomList_count. by rewrite Hd. }
    assert (Hamount : DecCoins_AmountOf d coinPrices' = DecCoins_AmountOf d coinPrices).
    { clear -Hc. induction Hc as [|x l l' _ IH|x y l|l l' l'' _ IH1 _ IH2].
      - done.
      - by rewrite !DecCoins_AmountOf_cons, IH.
      - rewrite !DecCoins_AmountOf_cons. lia.
      - congruence. }
    by rewrite Hcount, Hamount.
Qed.

Lemma filterPricesByDenomList_amounts_witness :
  filterPricesByDenomList
    [{| Denom := "uatom"; Amount := 10 ^ 18 |}; {| Denom := "akii"; Amount := 2 * 10 ^ 17 |}]
    [{| Name := "akii" |}; {| Name := "uatom" |}]
  = filterPricesByDenomList
      [{| Denom := "akii"; Amount := 2 * 10 ^ 17 |}; {| Denom := "uatom"; Amount := 10 ^ 18 |}]
      [{| Name := "uatom" |}; {| Name := "akii" |}].
Proof.
  apply (proj2 (proj2 (filterPricesByDenomList_amounts
           [{| Denom := "akii"; Amount := 2 * 10 ^ 17 |};
            {| Denom := "uatom"; Amount := 10 ^ 18 |}]
           [{| Name := "uatom" |}; {| Name := "akii" |}]))).
  - apply Permutation_swap.
  - apply Permutation_swap.
Defined.


Section GetPricesProperties.
Context (float64 : Type) (ValidateDenom : string → bool).





End GetPricesProperties.




Section GetComputedPricesProperties.
Context (range : ∀ V : Type, gmap string V → list (string * V)).
Context (range_perm : ∀ (V : Type) (m : gmap string V), range V m ≡ₚ map_to_list m).
Context (mockNow : Z).
Context (convertCandlesToUSD :
           gmap string (gmap string (list CandlePrice)) →
           gmap string (list CurrencyPair) → gmap string Z →
           gmap string (gmap string (list CandlePrice)) * option error).
Context (FilterCandleDeviations :
           gmap string (gmap string (list CandlePrice)) → gmap string Z →
           gmap string (gmap string (list CandlePrice)) * option error).
Context (convertTickersToUSD :
           gmap string (gmap string TickerPrice) →
           gmap string (list CurrencyPair) → gmap string Z →
           gmap string (gmap string TickerPrice) * option error).
Context (FilterTickerDeviations :
           gmap string (gmap string TickerPrice) → gmap string Z →
           gmap string (gmap string TickerPrice) * option error).


End GetComputedPricesProperties.


Section Keeps.
Context {float64 : Type}.
Context (R : Oracle float64 * list event → Oracle float64 * list event → Prop).
Context (R_refl : ∀ s, R s s).
Context (R_trans : ∀ s1 s2 s3, R s1 s2 → R s2 s3 → R s1 s3).

Lemma keeps_ret {A : Type} (a : A) : keeps R (mret a : M float64 A).
Proof. intros s. apply R_refl. Qed.

Lemma keeps_bind {A B : Type} (m : M float64 A) (f : A → M float64 B) :
  keeps R m → (∀ a, keeps R (f a)) → keeps R (m ≫= f).
Proof.
  intros Hm Hf s. rewrite run_bind. specialize (Hm s).
  destruct (m s) as [[a|p] s1]; [|done].
  eapply R_trans; [exact Hm|apply Hf].
Qed.

Lemma keeps_get : keeps R (get float64).
Proof. intros s. apply R_refl. Qed.

Lemma keeps_lift {A : Type} (r : result A) : keeps R (lift float64 r).
Proof. intros s. apply R_refl. Qed.

Lemma keeps_forM {S A : Type} (f : S → A → M float64 S) (l : list A) (s0 : S) :
  (∀ s a, keeps R (f s a)) → keeps R (forM float64 f l s0).
Proof.
  intros Hf. revert s0. induction l as [|a l IH]; intros s0; cbn [forM].
  - apply keeps_ret.
  - apply keeps_bind; [apply Hf|apply IH].
Qed.

End Keeps.

Section HealthchecksPingReturns.
Context (range : ∀ V : Type, gmap string V → list (string * V)).
Context (range_perm : ∀ (V : Type) (m : gmap string V), range V m ≡ₚ map_to_list m).
Context (float64 : Type).

Lemma healthchecksPing_url_run (w : World) (url : string) (timeout : Z)
    (o : Oracle float64) (tr : list event) :
  healthchecksPing_url float64 w () (url, timeout) (o, tr) =
    match httpGet w url with
    | inr (None, _) => (Panicked NilDereference, (o, tr ++ [EvHTTPGet url]))
    | _ => (Ok (), (o, tr ++ [EvHTTPGet url]))
    end.
Proof.
  unfold healthchecksPing_url. rewrite run_bind, run_emit. cbn [fst].
  by destruct (httpGet w url) as [[]|[[[]|] err]].
Qed.

Lemma healthchecksPing_loop (w : World) (l : list (string * Z))
    (o : Oracle float64) (tr : list event) :
  let rs := forM float64 (healthchecksPing_url float64 w) l () (o, tr) in
  rs.2.1 = o ∧
  ∃ requested skipped,
    l.*1 = requested ++ skipped ∧
    rs.2.2 = tr ++ (EvHTTPGet <$> requested) ∧
    ((rs.1 = Ok () ∧ skipped = [] ∧
      ∀ url, url ∈ l.*1 → ∀ err, httpGet w url ≠ inr (None, err)) ∨
     (rs.1 = Panicked NilDereference ∧
      ∃ url err, last requested = Some url ∧ httpGet w url = inr (None, err))).
Proof.
  cbn zeta. revert tr. induction l as [|[url t] l IH]; intros tr.
  - cbn. split; [done|]. exists [], []. split; [done|]. split; [by rewrite app_nil_r|].
    left. split; [done|]. split; [done|]. intros url Hin. inversion Hin.
  - cbn [forM]. rewrite run_bind, healthchecksPing_url_run.
    assert (Hcont : ∀ resp : unit + option unit * error,
      httpGet w url = resp → (∀ err, resp ≠ inr (None, err)) →
      let rs := forM float64 (healthchecksPing_url float64 w) l () (o, tr ++ [EvHTTPGet url]) in
      rs.2.1 = o ∧
      ∃ requested skipped,
        ((url, t) :: l).*1 = requested ++ skipped ∧
        rs.2.2 = tr ++ (EvHTTPGet <$> requested) ∧
        ((rs.1 = Ok () ∧ skipped = [] ∧
          ∀ url0, url0 ∈ ((url, t) :: l).*1 → ∀ err, httpGet w url0 ≠ inr (None, err)) ∨
         (rs.1 = Panicked NilDereference ∧
          ∃ url0 err, last requested = Some url0 ∧ httpGet w url0 = inr (None, err)))).
    { intros resp Hresp Hok. cbn zeta.
      destruct (IH (tr ++ [EvHTTPGet url])) as (Ho & requested & skipped & Hl & Htr & Hres).
      split; [done|]. exists (url :: requested), skipped.
      split; [cbn; by rewrite Hl|]. split; [rewrite Htr, <- app_assoc; done|].
      destruct Hres as [(Hr & Hs & Hall)|(Hr & url0 & err & Hlast & Hget)].
      - left. split; [done|]. split; [done|]. intros url0 Hin err.
        cbn in Hin. apply elem_of_cons in Hin as [->|Hin]; [rewrite Hresp; apply Hok|].
        by apply Hall.
      - right. split; [done|]. exists url0, err. split; [|done].
        destruct requested; [done|]. done. }
    destruct (httpGet w url) as [[]|[[[]|] err]] eqn:Hget.
    + apply (Hcont (inl ())); [done|]. intros; discriminate.
    + apply (Hcont (inr (Some (), err))); [done|]. intros; discriminate.
    + cbn. split; [done|]. exists [url], (l.*1). split; [done|]. split; [done|].
      right. split; [done|]. exists url, err. done.
Qed.

(** X11.  healthchecksPing never changes the oracle.  It requests the
    configured URLs one after the other, each at most once, and stops at
    the first request that brings no response: it returns exactly when
    no configured URL answers with the nil response, having requested
    every configured URL once, and panics otherwise. *)
Theorem healthchecksPing_returns_iff_responses (w : World)
    (s : Oracle float64 * list event) :
  let rs := healthchecksPing range float64 w s in
  rs.2.1 = s.1 ∧
  (∃ requested,
     rs.2.2 = s.2 ++ (EvHTTPGet <$> requested) ∧ NoDup requested ∧
     (∀ url, url ∈ requested → is_Some (healthchecks _ s.1 !! url)) ∧
     (rs.1 = Ok () → ∀ url, is_Some (healthchecks _ s.1 !! url) → url ∈ requested)) ∧
  (rs.1 = Ok () ↔
   ∀ url timeout err, healthchecks _ s.1 !! url = Some timeout →
                      httpGet w url ≠ inr (None, err)) ∧
  (rs.1 = Ok () ∨ rs.1 = Panicked NilDereference).
Proof.
  destruct s as [o tr]. cbn zeta. unfold healthchecksPing.
  rewrite run_bind, run_get. cbv beta iota. cbn [fst snd].
  destruct (healthchecksPing_loop w (range _ (healthchecks _ o)) o tr)
    as (Ho & requested & skipped & Hl & Htr & Hres).
  cbn zeta in *.
  pose proof (NoDup_range range range_perm (healthchecks _ o)) as Hnd.
  assert (Hkeys : ∀ url, url ∈ (range _ (healthchecks _ o)).*1 ↔
                         is_Some (healthchecks _ o !! url)).
  { intros url. rewrite list_elem_of_fmap. split.
    - intros ([u t] & -> & Hin). apply (elem_of_range range range_perm) in Hin. by eexists.
    - intros [t Ht]. exists (url, t). split; [done|].
      by apply (elem_of_range range range_perm). }
  split; [done|]. split; [|split].
  - exists requested. split; [done|]. rewrite Hl in Hnd. split.
    + by apply NoDup_app in Hnd as (? & _ & _).
    + split.
      * intros url Hin. apply Hkeys. rewrite Hl. apply elem_of_app. by left.
      * intros Hok url Hurl. apply Hkeys in Hurl. rewrite Hl in Hurl.
        destruct Hres as [(_ & -> & _)|(Hr & _)]; [by rewrite app_nil_r in Hurl|].
        rewrite Hok in Hr. discriminate.
  - split.
    + intros Hok url t err Hurl.
      destruct Hres as [(_ & _ & Hall)|(Hr & _)]; [|rewrite Hok in Hr; discriminate].
      apply Hall. apply Hkeys. by eexists.
    + intros Hall. destruct Hres as [(Hr & _)|(_ & url & err & Hlast & Hget)]; [done|].
      assert (Hin : url ∈ (range _ (healthchecks _ o)).*1).
      { rewrite Hl. apply elem_of_app. left. by apply last_Some_elem_of. }
      apply Hkeys in Hin as [t Ht]. by destruct (Hall url t err Ht).
  - destruct Hres as [(Hr & _)|(Hr & _)]; auto.
Qed.

End HealthchecksPingReturns.

Lemma healthchecksPing_returns_iff_responses_witness :
  (healthchecksPing range_fixed Z example_world (example_oracle, [])).1 = Ok ().
Proof.
  apply (proj1 (proj2 (proj2 (healthchecksPing_returns_iff_responses range_fixed
           range_fixed_perm Z example_world (example_oracle, []))))).
  intros url timeout err _. discriminate.
Defined.

Section Prepares.
Context {float64 : Type}.

Lemma prepares_refl (s : Oracle float64 * list event) : prepares s s.
Proof.
  split; [done|]. split; [done|]. exists []. split; [by rewrite app_nil_r|constructor].
Qed.

Lemma prepares_trans (s1 s2 s3 : Oracle float64 * list event) :
  prepares s1 s2 → prepares s2 s3 → prepares s1 s3.
Proof.
  intros (Hp & Hc & evs & He & Hn) (Hp' & Hc' & evs' & He' & Hn').
  split; [congruence|]. split; [congruence|]. exists (evs ++ evs').
  split; [by rewrite He', He, app_assoc|]. by apply Forall_app.
Qed.

Lemma prepares_modify (f : Oracle float64 → Oracle float64) :
  (∀ o, previousVotePeriod _ (f o) = previousVotePeriod _ o) →
  (∀ o, paramCache _ (f o) = paramCache _ o) →
  keeps prepares (modify float64 f).
Proof.
  intros Hp Hc [o tr]. split; [apply Hp|]. split; [apply Hc|]. exists [].
  split; [by rewrite app_nil_r|constructor].
Qed.

Lemma prepares_emit (providerName : string) :
  keeps prepares (emit float64 (EvNewProvider providerName)).
Proof.
  intros [o tr]. split; [done|]. split; [done|]. exists [EvNewProvider providerName].
  split; [done|]. repeat constructor. by eexists.
Qed.

End Prepares.

Ltac prepares_step :=
  first
    [ apply (keeps_ret prepares prepares_refl)
    | apply (keeps_get prepares prepares_refl)
    | apply (keeps_lift prepares prepares_refl)
    | apply prepares_modify; intros; reflexivity
    | apply prepares_emit
    | apply (keeps_forM prepares prepares_refl prepares_trans); intros
    | apply (keeps_bind prepares prepares_trans); [|intros]
    | match goal with
      | |- keeps _ (match ?x with _ => _ end) => destruct x
      | |- keeps _ (if ?x then _ else _) => destruct x
      | |- keeps _ (let '(_, _) := ?x in _) => destruct x
      end ].

Section TickTrace.
Context (range : ∀ V : Type, gmap string V → list (string * V)).
Context (float64 : Type) (float64_eqb : float64 → float64 → bool).
Context (votePeriodIndex : Z → Z → float64).
Context (mockNow : Z).
Context (knownProvider : string → bool).
Context (convertCandlesToUSD :
           gmap string (gmap string (list CandlePrice)) →
           gmap string (list CurrencyPair) → gmap string Z →
           gmap string (gmap string (list CandlePrice)) * option error).
Context (FilterCandleDeviations :
           gmap string (gmap string (list CandlePrice)) → gmap string Z →
           gmap string (gmap string (list CandlePrice)) * option error).
Context (convertTickersToUSD :
           gmap string (gmap string TickerPrice) →
           gmap string (list CurrencyPair) → gmap string Z →
           gmap string (gmap string TickerPrice) * option error).
Context (FilterTickerDeviations :
           gmap string (gmap string TickerPrice) → gmap string Z →
           gmap string (gmap string TickerPrice) * option error).
Context (ValidateDenom : string → bool).
Context (ValAddressFromBech32 : string → string + error).

Lemma getOrSetProvider_prepares w providerName :
  keeps prepares (getOrSetProvider float64 knownProvider w providerName).
Proof. unfold getOrSetProvider. repeat prepares_step. Qed.

Lemma SetPrices_prepares w :
  keeps prepares
    (SetPrices range float64 mockNow knownProvider convertCandlesToUSD
       FilterCandleDeviations convertTickersToUSD FilterTickerDeviations w).
Proof.
  unfold SetPrices, SetPrices_spawn, SetPrices_provider, SetPrices_required,
    paramCache_Whitelist.
  repeat first [apply getOrSetProvider_prepares | prepares_step].
Qed.

Lemma GetPrices_prepares : keeps prepares (GetPrices range float64 ValidateDenom).
Proof. unfold GetPrices. repeat prepares_step. Qed.

Lemma GetCachedJailedState_prepares w h :
  keeps prepares (GetCachedJailedState float64 w h).
Proof. unfold GetCachedJailedState, refreshJailCache. repeat prepares_step. Qed.

Lemma GetPrices_reads (o o' : Oracle float64) (tr tr' : list event) :
  prices _ o' = prices _ o → chainDenomMapping _ o' = chainDenomMapping _ o →
  (GetPrices range float64 ValidateDenom (o', tr')).1
    = (GetPrices range float64 ValidateDenom (o, tr)).1 ∧
  (GetPrices range float64 ValidateDenom (o, tr)).2 = (o, tr).
Proof.
  intros Hp Hc. unfold GetPrices. rewrite !run_bind, !run_get. cbv beta iota.
  unfold lift. cbn [fst snd]. by rewrite Hp, Hc.
Qed.

Lemma vote_message_same (o o' : Oracle float64) (p : Params)
    (msg : MsgAggregateExchangeRateVote) :
  prices _ o' = prices _ o → chainDenomMapping _ o' = chainDenomMapping _ o →
  oracleClient _ o' = oracleClient _ o →
  vote_message range float64 ValidateDenom ValAddressFromBech32 o p msg →
  vote_message range float64 ValidateDenom ValAddressFromBech32 o' p msg.
Proof.
  intros Hp Hc Hoc (coins & valAddr & Hcoins & Hval & ->).
  exists coins, valAddr. rewrite Hoc.
  by rewrite (proj1 (GetPrices_reads o o' [] [] Hp Hc)).
Qed.

Lemma healthchecksPing_trace w (s : Oracle float64 * list event) :
  let rs := healthchecksPing range float64 w s in
  rs.2.1 = s.1 ∧
  ∃ requests, rs.2.2 = s.2 ++ requests ∧ Forall is_request requests ∧
    (rs.1 = Ok () ∨ rs.1 = Panicked NilDereference).
Proof.
  destruct s as [o tr]. cbn zeta. unfold healthchecksPing.
  rewrite run_bind, run_get. cbv beta iota. cbn [fst snd].
  destruct (healthchecksPing_loop float64 w (range _ (healthchecks _ o)) o tr)
    as (Ho & requested & skipped & _ & Htr & Hres).
  cbn zeta in *. split; [done|]. exists (EvHTTPGet <$> requested).
  split; [done|]. split.
  - apply Forall_fmap, Forall_true. intros url. by eexists.
  - destruct Hres as [(? & _)|(? & _)]; auto.
Qed.

Lemma prepares_tick_trace h s r s' :
  prepares s s' → tick_trace range float64 float64_eqb votePeriodIndex ValidateDenom ValAddressFromBech32 h s r s'.
Proof.
  intros (Hp & _ & evs & He & Hn). exists evs, []. rewrite app_nil_r.
  split; [done|]. split; [done|]. by left.
Qed.

Lemma tick_trace_after h s s1 r s' :
  previousVotePeriod _ s1.1 = previousVotePeriod _ s.1 →
  (∃ evs, s1.2 = s.2 ++ evs ∧ Forall is_creation evs) →
  tick_trace range float64 float64_eqb votePeriodIndex ValidateDenom ValAddressFromBech32 h s1 r s' →
  tick_trace range float64 float64_eqb votePeriodIndex ValidateDenom ValAddressFromBech32 h s r s'.
Proof.
  intros Hp (evs & He & Hn) (created & rest & He' & Hc & Hcases).
  exists (evs ++ created), rest.
  split; [by rewrite He', He, <- !app_assoc|]. split; [by apply Forall_app|].
  rewrite <- Hp. done.
Qed.


Lemma tick_broadcast_trace w h p voteMsg s :
  params (paramCache _ s.1) = Some p →
  vote_message range float64 ValidateDenom ValAddressFromBech32 s.1 p voteMsg →
  float64_eqb (currentVotePeriod float64 votePeriodIndex p h)
    (previousVotePeriod _ s.1) = false →
  let rs := tick_broadcast range float64 w
              (currentVotePeriod float64 votePeriodIndex p h) voteMsg s in
  tick_trace range float64 float64_eqb votePeriodIndex ValidateDenom ValAddressFromBech32 h s rs.1 rs.2.
Proof.
  destruct s as [o tr]. cbn [fst snd]. intros Hp Hmsg Hneq. cbn zeta. unfold tick_broadcast.
  destruct (BroadcastTx w voteMsg) as [resp|[resp err]].
  - rewrite run_bind, run_emit, run_bind, run_modify, run_bind.
    pose proof (healthchecksPing_trace w
      (set_previousVotePeriod _ (currentVotePeriod float64 votePeriodIndex p h) o,
       tr ++ [EvBroadcastTx voteMsg true])) as (Ho & requests & Htr & Hreq & Hres).
    cbn zeta in *.
    destruct (healthchecksPing range float64 w _) as [[[]|pn] [o' tr']];
      cbn [fst snd] in *; subst o';
      (exists [], (EvBroadcastTx voteMsg true :: requests);
       split; [by rewrite Htr, <- app_assoc|]; split; [constructor|]; right;
       exists p; split; [exact Hp|]; split; [exact Hneq|]; right;
       exists voteMsg, requests; split; [done|];
       split; [by apply (vote_message_same o)|]; split; [done|]).
    + by left.
    + destruct Hres as [?|Hpn]; [discriminate|]. injection Hpn as ->. by right.
  - rewrite run_bind, run_emit. cbn [mret M_ret fst snd].
    exists [], [EvBroadcastTx voteMsg false]. split; [done|]. split; [constructor|].
    right. exists p. split; [exact Hp|]. split; [exact Hneq|]. left.
    exists voteMsg, err. done.
Qed.

Lemma tick_vote_trace w h p s :
  params (paramCache _ s.1) = Some p →
  let rs := tick_vote range float64 float64_eqb votePeriodIndex ValidateDenom
              ValAddressFromBech32 w p h s in
  tick_trace range float64 float64_eqb votePeriodIndex ValidateDenom ValAddressFromBech32 h s rs.1 rs.2.
Proof.
  destruct s as [o tr]. cbn [fst snd]. intros Hp. cbn zeta. unfold tick_vote.
  rewrite run_bind, run_modify.
  assert (Hf1 : prepares (o, tr) (set_lastPriceSyncTS _ (timeNow w) o, tr)).
  { apply (prepares_modify (set_lastPriceSyncTS _ (timeNow w))); done. }
  rewrite run_bind, run_get. cbv beta iota.
  change (previousVotePeriod float64 (set_lastPriceSyncTS float64 (timeNow w) o))
    with (previousVotePeriod float64 o).
  fold (currentVotePeriod float64 votePeriodIndex p h).
  destruct (float64_eqb _ _) eqn:Heqb; [by apply prepares_tick_trace|].
  destruct (ValAddressFromBech32 _) as [valAddr|err] eqn:Hval;
    [|by apply prepares_tick_trace].
  rewrite run_bind.
  destruct (GetPrices_reads (set_lastPriceSyncTS _ (timeNow w) o)
              (set_lastPriceSyncTS _ (timeNow w) o) tr [] eq_refl eq_refl) as [Hcoins Hstate].
  destruct (GetPrices range float64 ValidateDenom
              (set_lastPriceSyncTS _ (timeNow w) o, tr)) as [[coins|pn] s2] eqn:Hget;
    cbn [fst snd] in Hstate; subst s2; [|by apply prepares_tick_trace].
  cbn [fst snd] in Hcoins.
  apply (tick_trace_after h (o, tr) (set_lastPriceSyncTS _ (timeNow w) o, tr));
    [done|exists []; split; [by rewrite app_nil_r|constructor]|].
  apply (tick_broadcast_trace w h p _ (set_lastPriceSyncTS _ (timeNow w) o, tr)).
  - exact Hp.
  - exists coins, valAddr. split; [exact Hcoins|]. split; [exact Hval|done].
  - exact Heqb.
Qed.

Lemma tick_tick_trace (w : World) (blockHeight : Z) (s : Oracle float64 * list event) :
  let rs := tick range float64 float64_eqb votePeriodIndex mockNow knownProvider
              convertCandlesToUSD FilterCandleDeviations convertTickersToUSD
              FilterTickerDeviations ValidateDenom ValAddressFromBech32
              w blockHeight s in
  tick_trace range float64 float64_eqb votePeriodIndex ValidateDenom ValAddressFromBech32 blockHeight s rs.1 rs.2.
Proof.
  cbn zeta. unfold tick.
  destruct (blockHeight <? 1); [apply prepares_tick_trace, prepares_refl|].
  rewrite run_bind.
  pose proof (GetCachedJailedState_prepares w blockHeight s) as Hf1.
  destruct (GetCachedJailedState float64 w blockHeight s) as [[r|pn] s1];
    [|by apply prepares_tick_trace].
  cbn [fst snd] in Hf1.
  destruct Hf1 as (Hp1 & Hc1 & Hevs1).
  apply (tick_trace_after blockHeight s s1); [done|done|].
  destruct r as [[|]|err]; [| |apply prepares_tick_trace, prepares_refl].
  { destruct s1 as [o1 tr1]. rewrite run_bind, run_get.
    apply prepares_tick_trace, prepares_refl. }
  rewrite run_bind.
  destruct (GetParamCache_spec float64 w blockHeight s1) as (r & Hr & Hp2 & Htr2 & Hcache).
  destruct (GetParamCache float64 w blockHeight s1) as [r' s2]. cbn [fst snd] in *.
  subst r'.
  apply (tick_trace_after blockHeight s1 s2);
    [done|exists []; split; [by rewrite app_nil_r|constructor]|].
  destruct r as [oracleParams|err]; [|apply prepares_tick_trace, prepares_refl].
  rewrite run_bind.
  pose proof (SetPrices_prepares w s2) as Hf3.
  destruct (SetPrices range float64 mockNow knownProvider convertCandlesToUSD
              FilterCandleDeviations convertTickersToUSD FilterTickerDeviations w s2)
    as [[[err|]|pn] s3];
    [by apply prepares_tick_trace| |by apply prepares_tick_trace].
  cbn [fst snd] in Hf3. destruct Hf3 as (Hp3 & Hc3 & Hevs3).
  apply (tick_trace_after blockHeight s2 s3); [done|done|].
  apply tick_vote_trace. rewrite Hc3. by apply Hcache.
Qed.


(** X13.  A tick votes at most once per vote period: when the vote period
    of the next block, computed with the parameters in the cache after
    the tick, is previousVotePeriod, the tick makes no broadcast and no
    healthcheck request, and leaves previousVotePeriod as it was. *)
Theorem tick_skips_voted_period (w : World) (blockHeight : Z)
    (s : Oracle float64 * list event) (p : Params) :
  let rs := tick range float64 float64_eqb votePeriodIndex mockNow knownProvider
              convertCandlesToUSD FilterCandleDeviations convertTickersToUSD
              FilterTickerDeviations ValidateDenom ValAddressFromBech32
              w blockHeight s in
  params (paramCache _ rs.2.1) = Some p →
  float64_eqb (currentVotePeriod float64 votePeriodIndex p blockHeight)
    (previousVotePeriod _ s.1) = true →
  previousVotePeriod _ rs.2.1 = previousVotePeriod _ s.1 ∧
  ∃ created, rs.2.2 = s.2 ++ created ∧ Forall is_creation created.
Proof.
  cbn zeta. intros Hp Heqb. destruct (tick_tick_trace w blockHeight s)
    as (created & rest & Htr & Hc & Hcases).
  destruct Hcases as [[-> Hprev]|(p' & Hp' & Hneq & _)].
  - split; [done|]. exists created. by rewrite app_nil_r in Htr.
  - rewrite Hp in Hp'. injection Hp' as <-. congruence.
Qed.

(** X14.  Every vote that a tick broadcasts, whether the broadcast succeeds
    or fails, is built from what the oracle holds after the tick: its
    exchange rates are the string of the coins that GetPrices returns,
    filtered by the whitelist of the cached parameters, its feeder is the
    oracle address of the client and its validator the validator address
    of the client. *)
Theorem tick_vote_message (w : World) (blockHeight : Z)
    (s : Oracle float64 * list event) :
  let rs := tick range float64 float64_eqb votePeriodIndex mockNow knownProvider
              convertCandlesToUSD FilterCandleDeviations convertTickersToUSD
              FilterTickerDeviations ValidateDenom ValAddressFromBech32
              w blockHeight s in
  ∃ evs, rs.2.2 = s.2 ++ evs ∧
    ∀ msg succeeded, EvBroadcastTx msg succeeded ∈ evs →
      ∃ p coins valAddr,
        params (paramCache _ rs.2.1) = Some p ∧
        (GetPrices range float64 ValidateDenom (rs.2.1, [])).1 = Ok coins ∧
        ValAddressFromBech32 (ValidatorAddrString (oracleClient _ rs.2.1)) = inl valAddr ∧
        msg = {| ExchangeRates :=
                   GenerateExchangeRatesString
                     (filterPricesByDenomList coins (Whitelist p));
                 Feeder := OracleAddrString (oracleClient _ rs.2.1);
                 Validator := valAddr |}.
Proof.
  cbn zeta. destruct (tick_tick_trace w blockHeight s)
    as (created & rest & Htr & Hc & Hcases).
  exists (created ++ rest). split; [done|]. intros msg ok Hin.
  apply elem_of_app in Hin as [Hin|Hin].
  { rewrite Forall_forall in Hc. destruct (Hc _ Hin) as [name Hname]. discriminate. }
  destruct Hcases as [[-> _]|(p & Hp & _ & [(msg' & err & -> & Hmsg & _)
                                           |(msg' & requests & -> & Hmsg & Hreq & _)])].
  - inversion Hin.
  - apply list_elem_of_singleton in Hin. injection Hin as -> ->.
    destruct Hmsg as (coins & valAddr & ? & ? & ?). exists p, coins, valAddr. done.
  - apply elem_of_cons in Hin as [Hin|Hin].
    + injection Hin as -> ->.
      destruct Hmsg as (coins & valAddr & ? & ? & ?). exists p, coins, valAddr. done.
    + rewrite Forall_forall in Hreq. destruct (Hreq _ Hin) as [url Hurl]. discriminate.
Qed.

End TickTrace.

Lemma tick_skips_voted_period_witness :
  let rs := example_tick example_world 5 (example_oracle, []) in
  previousVotePeriod _ rs.2.1 = previousVotePeriod _ example_oracle ∧
  ∃ created, rs.2.2 = [] ++ created ∧ Forall is_creation created.
Proof.
  apply (tick_skips_voted_period range_fixed Z Z.eqb example_votePeriodIndex 0
           example_knownProvider example_convertCandlesToUSD
           example_FilterCandleDeviations example_convertTickersToUSD
           example_FilterTickerDeviations (λ _, true) inl
           example_world 5 (example_oracle, []) example_params).
  - vm_compute. reflexivity.
  - vm_compute. reflexivity.
Defined.

Section KeepsCreatedOnce.
Context {float64 : Type}.

Lemma keeps_created_once_refl (s : Oracle float64 * list event) : keeps_created_once s s.
Proof. by intros ?. Qed.

Lemma keeps_created_once_trans (s1 s2 s3 : Oracle float64 * list event) :
  keeps_created_once s1 s2 → keeps_created_once s2 s3 → keeps_created_once s1 s3.
Proof. intros H1 H2 H. by apply H2, H1. Qed.

Lemma keeps_created_once_modify (f : Oracle float64 → Oracle float64) :
  (∀ o, priceProviders _ (f o) = priceProviders _ o) →
  (∀ o, failedProviders _ (f o) = failedProviders _ o) →
  keeps keeps_created_once (modify float64 f).
Proof.
  intros Hp Hf [o tr] Hinv name. destruct (Hinv name) as [Hle Hone].
  cbn [modify fst snd] in *. rewrite Hp, Hf. done.
Qed.

Lemma creations_snoc_other (name : string) (tr : list event) (ev : event) :
  (∀ providerName, ev ≠ EvNewProvider providerName) →
  creations name (tr ++ [ev]) = creations name tr.
Proof.
  intros Hev. unfold creations. rewrite filter_app, length_app, filter_cons, filter_nil.
  rewrite decide_False by apply Hev. cbn. lia.
Qed.

Lemma keeps_created_once_emit (ev : event) :
  (∀ providerName, ev ≠ EvNewProvider providerName) →
  keeps keeps_created_once (emit float64 ev).
Proof.
  intros Hev [o tr] Hinv name. destruct (Hinv name) as [Hle Hone].
  cbn [emit fst snd] in *. rewrite creations_snoc_other by done. done.
Qed.

End KeepsCreatedOnce.

Ltac keeps_created_once_step :=
  first
    [ apply (keeps_ret keeps_created_once keeps_created_once_refl)
    | apply (keeps_get keeps_created_once keeps_created_once_refl)
    | apply (keeps_lift keeps_created_once keeps_created_once_refl)
    | apply keeps_created_once_modify; intros; reflexivity
    | apply keeps_created_once_emit; intros; discriminate
    | apply (keeps_forM keeps_created_once keeps_created_once_refl
               keeps_created_once_trans); intros
    | apply (keeps_bind keeps_created_once keeps_created_once_trans); [|intros]
    | match goal with
      | |- keeps _ (match ?x with _ => _ end) => destruct x
      | |- keeps _ (if ?x then _ else _) => destruct x
      | |- keeps _ (let '(_, _) := ?x in _) => destruct x
      end ].

Section TickCreatesOnce.
Context (range : ∀ V : Type, gmap string V → list (string * V)).
Context (float64 : Type) (float64_eqb : float64 → float64 → bool).
Context (votePeriodIndex : Z → Z → float64).
Context (mockNow : Z).
Context (knownProvider : string → bool).
Context (convertCandlesToUSD :
           gmap string (gmap string (list CandlePrice)) →
           gmap string (list CurrencyPair) → gmap string Z →
           gmap string (gmap string (list CandlePrice)) * option error).
Context (FilterCandleDeviations :
           gmap string (gmap string (list CandlePrice)) → gmap string Z →
           gmap string (gmap string (list CandlePrice)) * option error).
Context (convertTickersToUSD :
           gmap string (gmap string TickerPrice) →
           gmap string (list CurrencyPair) → gmap string Z →
           gmap string (gmap string TickerPrice) * option error).
Context (FilterTickerDeviations :
           gmap string (gmap string TickerPrice) → gmap string Z →
           gmap string (gmap string TickerPrice) * option error).
Context (ValidateDenom : string → bool).
Context (ValAddressFromBech32 : string → string + error).
Context (ParseDuration : string → Z + error).

Lemma getOrSetProvider_keeps_created_once w providerName :
  keeps keeps_created_once (getOrSetProvider float64 knownProvider w providerName).
Proof. intros s Hs. by apply getOrSetProvider_created_once. Qed.

Lemma tick_keeps_created_once w blockHeight :
  keeps keeps_created_once
    (tick range float64 float64_eqb votePeriodIndex mockNow knownProvider
       convertCandlesToUSD FilterCandleDeviations convertTickersToUSD
       FilterTickerDeviations ValidateDenom ValAddressFromBech32 w blockHeight).
Proof.
  unfold tick, tick_vote, tick_broadcast, healthchecksPing, healthchecksPing_url,
    GetPrices, GetParamCache, refreshParamCache, GetCachedJailedState, refreshJailCache,
    SetPrices, SetPrices_spawn, SetPrices_provider, SetPrices_required,
    paramCache_Whitelist.
  repeat first [apply getOrSetProvider_keeps_created_once | keeps_created_once_step].
Qed.

Lemma tick_run_created_once ticks s :
  created_once float64 s →
  created_once float64
    (tick_run range float64 float64_eqb votePeriodIndex mockNow knownProvider
       convertCandlesToUSD FilterCandleDeviations convertTickersToUSD
       FilterTickerDeviations ValidateDenom ValAddressFromBech32 ticks s).
Proof.
  revert s. induction ticks as [|[w h] ticks IH]; intros s Hs; [done|].
  cbn [tick_run]. apply IH. by apply tick_keeps_created_once.
Qed.

(** X15.  Over the whole run of an oracle made by New, whatever the block
    heights and whatever the outside answers, and through ticks that fail
    or panic, the adapter of each provider is created at most once. *)
Theorem tick_run_creates_at_most_once (oc : OracleClient)
    (currencyPairs : list config_CurrencyPair) (deviations : gmap string Z)
    (endpoints : gmap string ProviderEndpoint)
    (healthchecksConfig : list config_Healthchecks) (zero : float64)
    (ticks : list (World * Z)) (providerName : string) :
  (creations providerName
     (tick_run range float64 float64_eqb votePeriodIndex mockNow knownProvider
        convertCandlesToUSD FilterCandleDeviations convertTickersToUSD
        FilterTickerDeviations ValidateDenom ValAddressFromBech32 ticks
        (New float64 ParseDuration oc currencyPairs deviations endpoints
           healthchecksConfig zero, [])).2 ≤ 1)%nat.
Proof.
  apply tick_run_created_once. intros name. unfold New.
  destruct (createMappingsFromPairs currencyPairs) as [cdm pp]. cbn.
  split; [lia|]. unfold creations. cbn. lia.
Qed.

End TickCreatesOnce.

Section SetPricesWithoutProviders.
Context (range : ∀ V : Type, gmap string V → list (string * V)).
Context (range_perm : ∀ (V : Type) (m : gmap string V), range V m ≡ₚ map_to_list m).
Context (float64 : Type).
Context (mockNow : Z).
Context (knownProvider : string → bool).
Context (convertCandlesToUSD :
           gmap string (gmap string (list CandlePrice)) →
           gmap string (list CurrencyPair) → gmap string Z →
           gmap string (gmap string (list CandlePrice)) * option error).
Context (FilterCandleDeviations :
           gmap string (gmap string (list CandlePrice)) → gmap string Z →
           gmap string (gmap string (list CandlePrice)) * option error).
Context (convertTickersToUSD :
           gmap string (gmap string TickerPrice) →
           gmap string (list CurrencyPair) → gmap string Z →
           gmap string (gmap string TickerPrice) * option error).
Context (FilterTickerDeviations :
           gmap string (gmap string TickerPrice) → gmap string Z →
           gmap string (gmap string TickerPrice) * option error).

Lemma range_empty {V : Type} : range V ∅ = [].
Proof.
  apply Permutation_nil_r. rewrite range_perm. by rewrite map_to_list_empty.
Qed.

Lemma SetPrices_provider_failed (w : World) (l : list (string * list CurrencyPair))
    (acc : gmap string unit * list task) (o : Oracle float64) (tr : list event) :
  (∀ name pairs, (name, pairs) ∈ l → is_Some (failedProviders _ o !! name)) →
  forM float64 (SetPrices_provider float64 knownProvider w) l acc (o, tr)
  = (Ok acc, (o, tr)).
Proof.
  induction l as [|[name pairs] l IH]; intros Hfailed; [done|].
  cbn [forM]. rewrite run_bind. unfold SetPrices_provider at 1.
  rewrite run_bind, getOrSetProvider_unfold.
  destruct (Hfailed name pairs ltac:(set_solver)) as [err ->].
  cbn [mret M_ret]. apply IH. intros n ps Hin. apply (Hfailed n ps). set_solver.
Qed.

(** X16.  Once every configured provider has failed to initialise,
    SetPrices asks nothing of anybody, requires no rate, and, the
    conversion and the filter of no candles returning no candles, reports
    success and replaces the stored prices by the empty map. *)
Theorem SetPrices_without_providers (w : World) (o : Oracle float64) (tr : list event) :
  mockSetPrices _ o = None →
  (∀ name pairs, providerPairs _ o !! name = Some pairs →
                 is_Some (failedProviders _ o !! name)) →
  convertCandlesToUSD ∅ (providerPairs _ o) (deviations _ o) = (∅, None) →
  FilterCandleDeviations ∅ (deviations _ o) = (∅, None) →
  SetPrices range float64 mockNow knownProvider convertCandlesToUSD
    FilterCandleDeviations convertTickersToUSD FilterTickerDeviations w (o, tr)
  = (Ok None, (set_prices _ ∅ o, tr)).
Proof.
  intros Hmock Hfailed Hconv Hfilter. unfold SetPrices.
  rewrite run_bind, run_get, Hmock, run_bind. unfold SetPrices_spawn.
  rewrite run_bind, run_get. cbv beta iota.
  rewrite SetPrices_provider_failed
    by (intros name pairs Hin; apply (Hfailed name pairs);
        by apply (elem_of_range range range_perm)).
  cbv beta iota. unfold SetPrices_aggregate. cbn [foldl].
  rewrite run_bind, run_get, run_bind. cbv beta iota.
  unfold GetComputedPrices. rewrite Hconv, Hfilter.
  cbv beta iota. unfold ComputeTVWAP, ComputeTVWAP_sums, vwap, SetPrices_missing.
  rewrite (range_empty (V := gmap string (list CandlePrice))).
  cbn [foldM mbind result_bind fst snd].
  rewrite (range_empty (V := Z)). cbn [foldM mbind result_bind].
  rewrite (range_empty (V := unit)). cbn [foldl negb].
  unfold lift. cbn [List.find fmap option_fmap option_map].
  unfold mbind, M_bind, modify, mret, M_ret. cbn [fst snd]. done.
Qed.

End SetPricesWithoutProviders.

Lemma SetPrices_without_providers_witness :
  let o := set_failedProviders Z
             {["binance" := "dial tcp: connection refused"; "kraken" := "dial tcp: connection refused"]}
             example_oracle_with_params in
  example_SetPrices example_world (o, []) = (Ok None, (set_prices _ ∅ o, [])).
Proof.
  intros o.
  apply (SetPrices_without_providers range_fixed range_fixed_perm Z 0 example_knownProvider
           example_convertCandlesToUSD example_FilterCandleDeviations
           example_convertTickersToUSD example_FilterTickerDeviations example_world o []).
  - reflexivity.
  - intros name pairs Hin.
    assert (Hname : name = "binance" ∨ name = "kraken").
    { assert (Hk : (name, pairs) ∈ map_to_list (providerPairs Z o))
        by (by apply elem_of_map_to_list).
      vm_compute in Hk.
      apply elem_of_cons in Hk as [Hk|Hk]; [injection Hk as -> _; auto|].
      apply elem_of_cons in Hk as [Hk|Hk]; [injection Hk as -> _; auto|].
      inversion Hk. }
    destruct Hname as [-> | ->]; by eexists.
  - reflexivity.
  - reflexivity.
Defined.

Section NewProperties.
Context (float64 : Type) (ParseDuration : string → Z + error).

Lemma New_healthchecks_fold (l : list config_Healthchecks) (url : string) :
  foldl (λ healthchecks healthcheck,
           match ParseDuration (hcTimeout healthcheck) with
           | inr _ => healthchecks
           | inl timeout => <[hcURL healthcheck := timeout]> healthchecks
           end) (∅ : gmap string Z) l !! url
  = last (parsed_timeouts ParseDuration url l).
Proof.
  induction l as [|hc l IH] using rev_ind; [done|].
  rewrite foldl_app. cbn [foldl]. unfold parsed_timeouts in *. rewrite omap_app.
  cbn [omap list_omap].
  destruct (ParseDuration (hcTimeout hc)) as [timeout|err].
  - destruct (decide (hcURL hc = url)) as [<-|Hne].
    + rewrite lookup_insert_eq. by rewrite last_snoc.
    + rewrite lookup_insert_ne by done. by rewrite app_nil_r.
  - destruct (decide (hcURL hc = url)); by rewrite app_nil_r.
Qed.

(** X17.  The oracle that New returns has a healthcheck for a URL exactly
    when an entry of the configuration with that URL has a timeout that
    parses; its timeout is the one of the last such entry of the
    configuration, and an entry whose timeout does not parse neither adds
    a healthcheck nor removes the one an earlier entry added. *)
Theorem New_healthchecks (oc : OracleClient) (currencyPairs : list config_CurrencyPair)
    (deviations : gmap string Z) (endpoints : gmap string ProviderEndpoint)
    (healthchecksConfig : list config_Healthchecks) (zero : float64) :
  let o := New float64 ParseDuration oc currencyPairs deviations endpoints
             healthchecksConfig zero in
  (∀ url, healthchecks _ o !! url
          = last (parsed_timeouts ParseDuration url healthchecksConfig)) ∧
  (∀ url, is_Some (healthchecks _ o !! url) ↔
          ∃ hc timeout, hc ∈ healthchecksConfig ∧ hcURL hc = url ∧
                        ParseDuration (hcTimeout hc) = inl timeout).
Proof.
  cbn zeta. unfold New. destruct (createMappingsFromPairs currencyPairs) as [cdm pp].
  cbn [healthchecks].
  split; [apply New_healthchecks_fold|].
  intros url. rewrite New_healthchecks_fold. unfold parsed_timeouts. split.
  - intros [t Ht]. apply last_Some_elem_of in Ht.
    apply list_elem_of_omap in Ht as (hc & Hin & Hhc).
    destruct (decide (hcURL hc = url)) as [Hurl|]; [|done].
    destruct (ParseDuration (hcTimeout hc)) as [timeout|] eqn:Hparse; [|done].
    eauto.
  - intros (hc & timeout & Hin & Hurl & Hparse).
    assert (Ht : timeout ∈ omap (λ hc, if decide (hcURL hc = url)
                                       then match ParseDuration (hcTimeout hc) with
                                            | inl timeout => Some timeout
                                            | inr _ => None
                                            end
                                       else None) healthchecksConfig).
    { apply list_elem_of_omap. exists hc. split; [done|].
      rewrite decide_True by done. by rewrite Hparse. }
    destruct (omap _ healthchecksConfig) as [|x l _] using rev_ind; [inversion Ht|].
    rewrite last_snoc. by eexists.
Qed.

End NewProperties.

Lemma reportPriceErrMetrics_snoc {V : Type} (providerName priceType : string)
    (prices : option (gmap string V)) (expected : list CurrencyPair) (pair : CurrencyPair) :
  reportPriceErrMetrics providerName priceType prices (expected ++ [pair]) =
    reportPriceErrMetrics providerName priceType prices expected ++
    (if safeMapContains prices (CurrencyPair_String pair) then []
     else [missing_price_labels providerName priceType pair]).
Proof.
  unfold reportPriceErrMetrics. rewrite foldl_app. cbn [foldl].
  destruct (safeMapContains prices (CurrencyPair_String pair)); cbn [negb];
    by rewrite ?app_nil_r.
Qed.

(** X18.  reportPriceErrMetrics sends one failure metric for each
    expected pair that the prices have no entry for, in the order of the
    expected pairs, and none for a pair that has one: it sends nothing
    exactly when the map has an entry for every expected pair, and for
    the nil map it sends one metric per expected pair. *)
Theorem reportPriceErrMetrics_missing_pairs {V : Type} (providerName priceType : string)
    (prices : option (gmap string V)) (expected : list CurrencyPair) :
  let sent := reportPriceErrMetrics providerName priceType prices expected in
  sent = missing_price_labels providerName priceType <$>
           filter (λ pair, safeMapContains prices (CurrencyPair_String pair) = false)
             expected ∧
  (sent = [] ↔
   ∀ pair, pair ∈ expected →
           ∃ m, prices = Some m ∧ is_Some (m !! CurrencyPair_String pair)) ∧
  (prices = None → sent = missing_price_labels providerName priceType <$> expected).
Proof.
  cbn zeta.
  assert (Hsent : reportPriceErrMetrics providerName priceType prices expected
                  = missing_price_labels providerName priceType <$>
                      filter (λ pair, safeMapContains prices (CurrencyPair_String pair) = false)
                        expected).
  { induction expected as [|pair expected IH] using rev_ind; [done|].
    rewrite reportPriceErrMetrics_snoc, IH, filter_app, fmap_app, filter_cons, filter_nil.
    destruct (safeMapContains prices (CurrencyPair_String pair)) eqn:Hc.
    - by rewrite decide_False.
    - by rewrite decide_True. }
  split; [done|]. split.
  - rewrite Hsent. split.
    + intros Hnil pair Hin. apply fmap_nil_inv in Hnil.
      destruct (safeMapContains prices (CurrencyPair_String pair)) eqn:Hc.
      * destruct prices as [m|]; [|done]. exists m. split; [done|].
        cbn in Hc. by apply bool_decide_eq_true_1 in Hc.
      * assert (Hf : pair ∈ filter (λ pair, safeMapContains prices
                                      (CurrencyPair_String pair) = false) expected)
          by (by apply list_elem_of_filter).
        rewrite Hnil in Hf. inversion Hf.
    + intros Hall. clear Hsent. induction expected as [|pair expected IH]; [done|].
      rewrite filter_cons.
      destruct (Hall pair) as (m & Hp & Hm); [left|].
      rewrite decide_False.
      * apply IH. intros pair' Hin. apply Hall. by right.
      * rewrite Hp. cbn. by rewrite bool_decide_eq_true_2.
  - intros ->. rewrite Hsent. f_equal. clear Hsent.
    induction expected as [|pair expected IH]; [done|].
    rewrite filter_cons. rewrite decide_True by done. by rewrite IH.
Qed.

Section GetProviderTimeoutProperties.
Context (ParseDuration : string → Z + error).

Lemma GetProviderTimeout_endpoints_spec (providerName : string)
    (endpoints : list ProviderEndpoint) :
  GetProviderTimeout_endpoints ParseDuration providerName endpoints
  = head (omap (own_timeout ParseDuration providerName) endpoints).
Proof.
  induction endpoints as [|e endpoints IH]; [done|].
  cbn [GetProviderTimeout_endpoints omap list_omap]. unfold own_timeout at 1.
  destruct (String.eqb_spec (epName e) providerName) as [Hn|Hn];
    destruct (String.eqb_spec (epTimeout e) "") as [Ht|Ht]; cbn [andb negb].
  - rewrite decide_False by (intros [_ ?]; done). apply IH.
  - rewrite decide_True by done.
    by destruct (ParseDuration (epTimeout e)).
  - rewrite decide_False by (intros [? _]; done). apply IH.
  - rewrite decide_False by (intros [? _]; done). apply IH.
Qed.

(** X19.  GetProviderTimeout returns the timeout of the first endpoint of
    the configuration that has the provider's name and a non-empty
    timeout that parses.  When there is none it returns the global
    timeout, and 100 milliseconds when that does not parse.  Endpoints of
    other providers, and endpoints whose timeout is empty or does not
    parse, never change the result. *)
Theorem GetProviderTimeout_first_own_timeout (providerName : string) (cfg : Config) :
  let global := match ParseDuration (ProviderTimeout cfg) with
                | inl d => d
                | inr _ => 100 * Millisecond
                end in
  (∀ before endpoint after d,
     ProviderEndpoints cfg = before ++ endpoint :: after →
     Forall (λ e, own_timeout ParseDuration providerName e = None) before →
     epName endpoint = providerName → epTimeout endpoint ≠ "" →
     ParseDuration (epTimeout endpoint) = inl d →
     GetProviderTimeout ParseDuration providerName cfg = d) ∧
  (Forall (λ e, epName e ≠ providerName ∨ epTimeout e = "" ∨
                ∃ err, ParseDuration (epTimeout e) = inr err)
          (ProviderEndpoints cfg) →
   GetProviderTimeout ParseDuration providerName cfg = global) ∧
  GetProviderTimeout ParseDuration providerName cfg
  = GetProviderTimeout ParseDuration providerName
      {| ProviderEndpoints :=
           filter (λ e, is_Some (own_timeout ParseDuration providerName e))
                  (ProviderEndpoints cfg);
         ProviderTimeout := ProviderTimeout cfg |}.
Proof.
  cbn zeta. unfold GetProviderTimeout. rewrite !GetProviderTimeout_endpoints_spec.
  cbn [ProviderEndpoints ProviderTimeout]. split; [|split].
  - intros before endpoint after d -> Hbefore Hn Ht Hd.
    rewrite omap_app.
    assert (Hnone : omap (own_timeout ParseDuration providerName) before = []).
    { induction Hbefore as [|e l He _ IH]; [done|].
      cbn [omap list_omap]. by rewrite He. }
    rewrite Hnone. cbn [app omap list_omap]. unfold own_timeout at 1.
    rewrite decide_True by done. by rewrite Hd.
  - intros Hall.
    assert (Hnone : omap (own_timeout ParseDuration providerName) (ProviderEndpoints cfg) = []).
    { induction Hall as [|e l He _ IH]; [done|].
      cbn [omap list_omap]. unfold own_timeout at 1.
      destruct (decide _) as [[Hn Ht]|_]; [|done].
      destruct He as [He|[He|[err He]]]; [done..|]. by rewrite He. }
    by rewrite Hnone.
  - f_equal.
    induction (ProviderEndpoints cfg) as [|e l IH]; [done|].
    rewrite filter_cons. cbn [omap list_omap].
    destruct (own_timeout ParseDuration providerName e) as [d|] eqn:He.
    + rewrite decide_True by (by eexists). cbn [omap list_omap]. by rewrite He.
    + rewrite decide_False by (by intros [? ?]). done.
Qed.

End GetProviderTimeoutProperties.

Lemma GetProviderTimeout_first_own_timeout_witness :
  GetProviderTimeout example_ParseDuration "binance" example_config = 250 * Millisecond ∧
  GetProviderTimeout example_ParseDuration "kraken" example_config = 100 * Millisecond.
Proof.
  split.
  - apply (proj1 (GetProviderTimeout_first_own_timeout example_ParseDuration
                    "binance" example_config) [] example_binance_endpoint []);
      [reflexivity | constructor | reflexivity | discriminate | reflexivity].
  - apply (proj1 (proj2 (GetProviderTimeout_first_own_timeout example_ParseDuration
                           "kraken" example_config))).
    repeat constructor. discriminate.
Defined.

Section KeepsPrices.
Context {float64 : Type}.

Lemma keeps_prices_refl (s : Oracle float64 * list event) : keeps_prices s s.
Proof. done. Qed.

Lemma keeps_prices_trans (s1 s2 s3 : Oracle float64 * list event) :
  keeps_prices s1 s2 → keeps_prices s2 s3 → keeps_prices s1 s3.
Proof. intros [H1 H2] [H3 H4]. split; congruence. Qed.

Lemma keeps_prices_modify (f : Oracle float64 → Oracle float64) :
  (∀ o, prices _ (f o) = prices _ o) →
  (∀ o, lastPriceSyncTS _ (f o) = lastPriceSyncTS _ o) →
  keeps keeps_prices (modify float64 f).
Proof. intros Hp Ht [o tr]. split; [apply Hp|apply Ht]. Qed.

Lemma keeps_prices_emit (ev : event) : keeps keeps_prices (emit float64 ev).
Proof. by intros [o tr]. Qed.

End KeepsPrices.

Ltac keeps_prices_step :=
  first
    [ apply (keeps_ret keeps_prices keeps_prices_refl)
    | apply (keeps_get keeps_prices keeps_prices_refl)
    | apply (keeps_lift keeps_prices keeps_prices_refl)
    | apply keeps_prices_modify; intros; reflexivity
    | apply keeps_prices_emit
    | apply (keeps_forM keeps_prices keeps_prices_refl keeps_prices_trans); intros
    | apply (keeps_bind keeps_prices keeps_prices_trans); [|intros]
    | match goal with
      | |- keeps _ (match ?x with _ => _ end) => destruct x
      | |- keeps _ (if ?x then _ else _) => destruct x
      | |- keeps _ (let '(_, _) := ?x in _) => destruct x
      end ].

Section TickTimestamp.
Context (range : ∀ V : Type, gmap string V → list (string * V)).
Context (float64 : Type) (float64_eqb : float64 → float64 → bool).
Context (votePeriodIndex : Z → Z → float64).
Context (mockNow : Z).
Context (knownProvider : string → bool).
Context (convertCandlesToUSD :
           gmap string (gmap string (list CandlePrice)) →
           gmap string (list CurrencyPair) → gmap string Z →
           gmap string (gmap string (list CandlePrice)) * option error).
Context (FilterCandleDeviations :
           gmap string (gmap string (list CandlePrice)) → gmap string Z →
           gmap string (gmap string (list CandlePrice)) * option error).
Context (convertTickersToUSD :
           gmap string (gmap string TickerPrice) →
           gmap string (list CurrencyPair) → gmap string Z →
           gmap string (gmap string TickerPrice) * option error).
Context (FilterTickerDeviations :
           gmap string (gmap string TickerPrice) → gmap string Z →
           gmap string (gmap string TickerPrice) * option error).
Context (ValidateDenom : string → bool).
Context (ValAddressFromBech32 : string → string + error).

Lemma SetPrices_spawn_keeps_prices w :
  keeps keeps_prices (SetPrices_spawn range float64 knownProvider w).
Proof.
  unfold SetPrices_spawn, SetPrices_provider, SetPrices_required, paramCache_Whitelist,
    getOrSetProvider.
  repeat keeps_prices_step.
Qed.

Lemma GetCachedJailedState_keeps_prices w h :
  keeps keeps_prices (GetCachedJailedState float64 w h).
Proof. unfold GetCachedJailedState, refreshJailCache. repeat keeps_prices_step. Qed.

Lemma GetParamCache_keeps_prices w h :
  keeps keeps_prices (GetParamCache float64 w h).
Proof. unfold GetParamCache, refreshParamCache. repeat keeps_prices_step. Qed.

(** SetPrices never touches the time of the prices, and it stores prices
    only when it returns without error. *)
Lemma SetPrices_stores_on_success w (s : Oracle float64 * list event) :
  let rs := SetPrices range float64 mockNow knownProvider convertCandlesToUSD
              FilterCandleDeviations convertTickersToUSD FilterTickerDeviations w s in
  lastPriceSyncTS _ rs.2.1 = lastPriceSyncTS _ s.1 ∧
  (rs.1 ≠ Ok None → prices _ rs.2.1 = prices _ s.1).
Proof.
  destruct s as [o tr]. cbn zeta. unfold SetPrices. rewrite run_bind, run_get.
  cbv beta iota. destruct (mockSetPrices _ o) as [r|]; [done|].
  rewrite run_bind.
  destruct (SetPrices_spawn_keeps_prices w (o, tr)) as [Hp1 Ht1].
  destruct (SetPrices_spawn range float64 knownProvider w (o, tr))
    as [[[requiredRates tasks]|pn] [o1 tr1]]; cbn [fst snd] in *; [|done].
  destruct (SetPrices_aggregate w tasks) as [providerPrices providerCandles].
  rewrite run_bind, run_get. cbv beta iota. rewrite run_bind. unfold lift.
  destruct (GetComputedPrices _ _ _ _ _ _ _ _ _ _ _ _) as [[computedPrices [err|]]|pn];
    cbn [fst snd]; [done| |done].
  destruct (SetPrices_missing _ _) as [base|]; [done|].
  rewrite run_bind, run_modify. cbn [fst snd]. split; [done|]. by intros [].
Qed.

(** The vote stamps the prices with the current time and leaves them as
    they are. *)
Lemma tick_vote_stamps w p h (o : Oracle float64) (tr : list event) :
  let rs := tick_vote range float64 float64_eqb votePeriodIndex ValidateDenom
              ValAddressFromBech32 w p h (o, tr) in
  prices _ rs.2.1 = prices _ o ∧ lastPriceSyncTS _ rs.2.1 = timeNow w.
Proof.
  cbn zeta. unfold tick_vote. rewrite run_bind, run_modify. cbv beta iota zeta.
  eassert (Hk : keeps (float64 := float64) (A := option error) keeps_prices _);
    [|destruct (Hk (set_lastPriceSyncTS _ (timeNow w) o, tr)) as [H1 H2];
      split; [exact H1|exact H2]].
  unfold tick_broadcast, healthchecksPing, healthchecksPing_url, GetPrices.
  repeat keeps_prices_step.
Qed.

(** X20.  A tick never stores prices without stamping them: when the
    stored prices differ after the tick, and whenever the tick returns
    without error, GetLastPriceSyncTimestamp gives the time of this tick;
    no tick sets it to anything else, and a tick at a block height below
    1 changes nothing at all. *)
Theorem tick_stamps_stored_prices (w : World) (blockHeight : Z)
    (s : Oracle float64 * list event) :
  let rs := tick range float64 float64_eqb votePeriodIndex mockNow knownProvider
              convertCandlesToUSD FilterCandleDeviations convertTickersToUSD
              FilterTickerDeviations ValidateDenom ValAddressFromBech32
              w blockHeight s in
  (prices _ rs.2.1 ≠ prices _ s.1 → GetLastPriceSyncTimestamp rs.2.1 = timeNow w) ∧
  (rs.1 = Ok None → GetLastPriceSyncTimestamp rs.2.1 = timeNow w) ∧
  (GetLastPriceSyncTimestamp rs.2.1 = GetLastPriceSyncTimestamp s.1 ∨
   GetLastPriceSyncTimestamp rs.2.1 = timeNow w) ∧
  (blockHeight < 1 → rs.2 = s).
Proof.
  cbn zeta. unfold GetLastPriceSyncTimestamp.
  assert (Hkept : ∀ (r : result (option error)) (s' : Oracle float64 * list event),
            keeps_prices s s' → r ≠ Ok None →
            (prices _ s'.1 ≠ prices _ s.1 → lastPriceSyncTS _ s'.1 = timeNow w) ∧
            (r = Ok None → lastPriceSyncTS _ s'.1 = timeNow w) ∧
            (lastPriceSyncTS _ s'.1 = lastPriceSyncTS _ s.1 ∨
             lastPriceSyncTS _ s'.1 = timeNow w)).
  { intros r s' [Hp Ht] Hr. split; [done|]. split; [done|]. by left. }
  unfold tick. destruct (Z.ltb_spec blockHeight 1) as [Hlt|Hge].
  { split; [done|]. split; [done|]. split; [by left|done]. }
  match goal with
  | |- ?A ∧ ?B ∧ ?C ∧ _ =>
      enough (Hmain : A ∧ B ∧ C)
        by (destruct Hmain as (? & ? & ?); split; [done|]; split; [done|];
            split; [done|lia])
  end.
  rewrite run_bind.
  pose proof (GetCachedJailedState_keeps_prices w blockHeight s) as Hf1.
  destruct (GetCachedJailedState float64 w blockHeight s) as [[r|pn] s1];
    cbn [fst snd] in Hf1; [|by apply Hkept].
  destruct r as [[|]|err]; [| |by apply Hkept].
  { destruct s1 as [o1 tr1]. rewrite run_bind, run_get. by apply Hkept. }
  rewrite run_bind.
  pose proof (GetParamCache_keeps_prices w blockHeight s1) as Hf2.
  destruct (GetParamCache float64 w blockHeight s1) as [[r|pn] s2];
    cbn [fst snd] in Hf2; [|apply Hkept; [by eapply keeps_prices_trans|done]].
  assert (Hf12 : keeps_prices s s2) by (by eapply keeps_prices_trans).
  destruct r as [oracleParams|err]; [|by apply Hkept].
  rewrite run_bind.
  destruct (SetPrices_stores_on_success w s2) as [Ht3 Hp3]. cbn zeta in Ht3, Hp3.
  destruct (SetPrices range float64 mockNow knownProvider convertCandlesToUSD
              FilterCandleDeviations convertTickersToUSD FilterTickerDeviations w s2)
    as [[[err|]|pn] s3]; cbn [fst snd] in Ht3, Hp3.
  - apply Hkept; [|done]. apply (keeps_prices_trans s s2 s3); [done|].
    split; [by apply Hp3|done].
  - destruct s3 as [o3 tr3].
    destruct (tick_vote_stamps w oracleParams blockHeight o3 tr3) as [_ Hstamp].
    cbn zeta in Hstamp. split; [done|]. split; [done|]. by right.
  - apply Hkept; [|done]. apply (keeps_prices_trans s s2 s3); [done|].
    split; [by apply Hp3|done].
Qed.

End TickTimestamp.
